(** * OpenGL context lifecycle of [src/SFML/Window/GlContext.cpp]

    A shallow embedding of the context bookkeeping of [sf::priv::GlContext]:
    the per-thread record of the current context, the process-wide identity
    counter, the list of unshared OpenGL objects, transient activations,
    context initialisation (version and profile detection) and the settings
    check performed after creation.

    Conventions.
    - [std::uint64_t], [unsigned int] and [std::uint32_t] are values of [N]
      with the wrap-around of the C++ arithmetic written out; [int] is [Z].
    - [thread_local] variables are functions of the calling thread.
    - The state the functions share is threaded through the monad [M];
      a failed [assert] aborts the run (result [None]) unless the build
      defines [NDEBUG], in which case the assertion is skipped.
    - Locks that a call takes and releases before it returns are not
      represented: each member function is modelled as one uninterrupted
      run of the calling thread.
    - The platform ([makeCurrent], the context factory, the OpenGL driver)
      is a parameter of the development. *)

From Stdlib Require Import NArith ZArith Lia List Sorted Bool Ascii String.
From stdpp Require Import base list.
Import ListNotations.

Local Open Scope N_scope.

(** ** Machine integers *)

Definition uint64_modulus : N := 2 ^ 64.
Definition uint_modulus : N := 2 ^ 32.

(** [static_cast<unsigned int>(i)] for an [int] [i]. *)
Definition to_unsigned (i : Z) : N := Z.to_N (i mod Z.of_N uint_modulus).

(** [static_cast<int>(u)] for an [unsigned int] [u] (two's complement). *)
Definition to_int (u : N) : Z :=
  let z := Z.of_N (u mod uint_modulus) in
  if (z <? 2 ^ 31)%Z then z else (z - Z.of_N uint_modulus)%Z.

(** Product and sum of [unsigned int]. *)
Definition uint_mul (a b : N) : N := (a * b) mod uint_modulus.
Definition uint_add (a b : N) : N := (a + b) mod uint_modulus.

(** ** Data *)

(** Modelled from the spec: [ContextSettings] (its header is not part of the
    sources at hand), the negotiated record of version, profile attributes,
    depth and stencil bits, multisampling level and sRGB capability; the
    field names and their types are those [GlContext.cpp] uses. *)
Record ContextSettings := {
  depthBits : N;
  stencilBits : N;
  antialiasingLevel : N;
  majorVersion : N;
  minorVersion : N;
  attributeFlags : N;
  sRgbCapable : bool
}.

Module Impl.
(** [GlContext::Impl]: the constant [id] of a context. The member
    [unsharedGlObjects] is a shared owner of the one process-wide list and
    is accounted for by the use count of that list in the world. *)
Record Impl := { id : N }.
End Impl.

(** A context object, through the part of it that never changes after
    construction. [m_settings], its only mutable member, is passed to and
    returned by the member functions that read or write it. *)
Record GlContext := { m_impl : Impl.Impl }.

(** [Impl::UnsharedGlObject]; [object] is the address the [shared_ptr<void>]
    holds. *)
Record UnsharedGlObject := {
  contextId : N;
  object : N
}.

Abbreviation UnsharedGlObjects := (list UnsharedGlObject).

(** The heap object behind [Impl::getWeakUnsharedGlObjects()]: the list and
    the number of [shared_ptr] owners, one per live [Impl]. *)
Record SharedObjects := {
  use_count : nat;
  objects : UnsharedGlObjects
}.

Module GlContextImpl.
(** [GlContextImpl::CurrentContext]. [ptr] holds the context the pointer
    was set to; whether that context still exists is not part of the
    record, so that a pointer left behind by a destruction on another
    thread shows as a record that names a context that is not alive any
    more (see [valid]). *)
Record CurrentContext := {
  id : N;
  ptr : option GlContext;
  transientCount : N
}.
End GlContextImpl.
Import GlContextImpl (CurrentContext).

(** Modelled from the spec: [GraphicsContext] (its sources are not at hand)
    owns the one shared context used as the fallback activation target. *)
Record GraphicsContext := { sharedContext : GlContext }.

(** The anonymous-namespace [TransientContext]; [sharedContextLock] tells
    whether the [unique_lock] owns the mutex. *)
Record TransientContext := {
  graphicsContext : GraphicsContext;
  sharedContextLock : bool
}.

(** The messages written to [err()]. *)
Inductive Diagnostic :=
| ErrEnablingSharedInTransientContext
| ErrDisablingSharedInTransientContext
| ErrEnablingSharedInCreate
| ErrDisablingSharedInCreate
| ErrCouldNotInitializeInCreate
| ErrMakeCurrentFailure (active : bool)
| ErrCouldNotEnableInCleanup
| ErrCouldNotRestoreInCleanup
| ErrEnablingInInitialize
| ErrCouldNotLoadFunction
| ErrUnableToParseVersion (version : string)
| ErrUnableToRetrieveVersion
| WarnFailedToEnableSRGB
| WarnSettingsNotMet (requested created : ContextSettings).

Definition ThreadId := nat.
Bind Scope nat_scope with ThreadId.

(** What the OpenGL implementation answers to the calls of [initialize]. *)
Record Driver := {
  getFunction : string -> bool;
  glGetIntegerv : N -> option Z;
  glGetError : N;
  glGetString : N -> option string;
  glGetStringi : N -> N -> string;
  glIsEnabled : N -> bool
}.

(** ** OpenGL constants *)

Definition GL_MULTISAMPLE : N := 0x809D.
Definition GL_MAJOR_VERSION : N := 0x821B.
Definition GL_MINOR_VERSION : N := 0x821C.
Definition GL_NUM_EXTENSIONS : N := 0x821D.
Definition GL_CONTEXT_FLAGS : N := 0x821E.
Definition GL_FRAMEBUFFER_SRGB : N := 0x8DB9.
Definition GL_CONTEXT_FLAG_DEBUG_BIT : Z := 0x00000002.
Definition GL_CONTEXT_PROFILE_MASK : N := 0x9126.
Definition GL_CONTEXT_CORE_PROFILE_BIT : Z := 0x00000001.
(** From [glad/gl.h], which [GlContext.cpp] includes. *)
Definition GL_INVALID_ENUM : N := 0x0500.
Definition GL_VERSION : N := 0x1F02.
Definition GL_EXTENSIONS : N := 0x1F03.

(** ** The world and the monad of member functions *)

(** The build and the platform the library runs on: whether [assert] is
    compiled away ([NDEBUG]); the state of the platform, the virtual
    [makeCurrent] of the context backends, the backend constructor behind
    [GraphicsContext::makeContextType] (it answers the [m_settings] the new
    context starts with) and the OpenGL implementation of the context that
    is current; the enumerators [ContextSettings::Default], [Core] and
    [Debug], declared in a header that is not among the sources. *)
Class Platform := {
  NDEBUG : bool;
  P : Type;
  makeCurrent : GlContext -> bool -> P -> bool * P;
  ContextArgs : Type;
  makeContextType : ContextArgs -> ContextSettings -> P -> ContextSettings * P;
  driver : P -> Driver;
  Attribute_Default : N;
  Attribute_Core : N;
  Attribute_Debug : N
}.

Section Model.

Context {pf : Platform}.

Record World := {
  atomicId : N;
  weakUnsharedGlObjects : option SharedObjects;
  currentContext : ThreadId -> CurrentContext;
  transientContext : ThreadId -> option TransientContext;
  platform : P;
  err : list Diagnostic
}.

Definition M (A : Type) : Type := World -> option (A * World).

Definition ret {A} (a : A) : M A := fun w => Some (a, w).

Definition bind {A B} (m : M A) (k : A -> M B) : M B :=
  fun w => match m w with
           | Some (a, w') => k a w'
           | None => None
           end.

Notation "x <- m ;; k" := (bind m (fun x => k))
  (at level 100, m at next level, right associativity).
Notation "m ;;; k" := (bind m (fun _ => k))
  (at level 100, right associativity).

(** [assert(c)]. *)
Definition assert (c : bool) : M unit :=
  fun w => if NDEBUG || c then Some (tt, w) else None.

(** [err() << d << errEndl]. *)
Definition logErr (d : Diagnostic) : M unit :=
  fun w => Some (tt, {| atomicId := atomicId w;
                        weakUnsharedGlObjects := weakUnsharedGlObjects w;
                        currentContext := currentContext w;
                        transientContext := transientContext w;
                        platform := platform w;
                        err := err w ++ [d] |}).

Definition update {A} (f : ThreadId -> A) (t : ThreadId) (a : A) : ThreadId -> A :=
  fun t' => if Nat.eqb t' t then a else f t'.

(** [GlContextImpl::CurrentContext::get()] on thread [t], read and written. *)
Definition getCurrentContext (t : ThreadId) : M CurrentContext :=
  fun w => Some (currentContext w t, w).

Definition setCurrentContext (t : ThreadId) (cc : CurrentContext) : M unit :=
  fun w => Some (tt, {| atomicId := atomicId w;
                        weakUnsharedGlObjects := weakUnsharedGlObjects w;
                        currentContext := update (currentContext w) t cc;
                        transientContext := transientContext w;
                        platform := platform w;
                        err := err w |}).

(** [TransientContext::get()] on thread [t], read and written. *)
Definition getTransientContext (t : ThreadId) : M (option TransientContext) :=
  fun w => Some (transientContext w t, w).

Definition setTransientContext (t : ThreadId) (tc : option TransientContext) : M unit :=
  fun w => Some (tt, {| atomicId := atomicId w;
                        weakUnsharedGlObjects := weakUnsharedGlObjects w;
                        currentContext := currentContext w;
                        transientContext := update (transientContext w) t tc;
                        platform := platform w;
                        err := err w |}).

Definition getUnsharedGlObjects : M (option SharedObjects) :=
  fun w => Some (weakUnsharedGlObjects w, w).

Definition setUnsharedGlObjects (s : option SharedObjects) : M unit :=
  fun w => Some (tt, {| atomicId := atomicId w;
                        weakUnsharedGlObjects := s;
                        currentContext := currentContext w;
                        transientContext := transientContext w;
                        platform := platform w;
                        err := err w |}).

(** The call [this->makeCurrent(active)] into the platform. *)
Definition callMakeCurrent (this : GlContext) (active : bool) : M bool :=
  fun w => let r := makeCurrent this active (platform w) in
           Some (fst r, {| atomicId := atomicId w;
                           weakUnsharedGlObjects := weakUnsharedGlObjects w;
                           currentContext := currentContext w;
                           transientContext := transientContext w;
                           platform := snd r;
                           err := err w |}).

(** [atomicId.fetch_add(1)] on the static counter of [Impl]. *)
Definition fetch_add_atomicId : M N :=
  fun w => Some (atomicId w,
                 {| atomicId := (atomicId w + 1) mod uint64_modulus;
                    weakUnsharedGlObjects := weakUnsharedGlObjects w;
                    currentContext := currentContext w;
                    transientContext := transientContext w;
                    platform := platform w;
                    err := err w |}).

(** The state of a process before any context exists: the counter starts
    at 1, the weak pointer is empty and every thread-local is
    value-initialised. *)
Definition initialWorld (p : P) : World :=
  {| atomicId := 1;
     weakUnsharedGlObjects := None;
     currentContext := fun _ => {| GlContextImpl.id := 0;
                                   GlContextImpl.ptr := None;
                                   GlContextImpl.transientCount := 0 |};
     transientContext := fun _ => None;
     platform := p;
     err := [] |}.

(** ** Construction and destruction *)

(** [Impl::Impl()]: the member initialiser of [id] draws the identity, the
    body takes a share of the list of unshared objects, creating the list
    when the weak pointer has expired. *)
Definition Impl_ctor : M Impl.Impl :=
  i <- fetch_add_atomicId ;;
  s <- getUnsharedGlObjects ;;
  setUnsharedGlObjects
    (Some match s with
          | Some so => {| use_count := S (use_count so); objects := objects so |}
          | None => {| use_count := 1; objects := [] |}
          end) ;;;
  ret {| Impl.id := i |}.

(** The destruction of an [Impl] gives its share back; the last owner
    destroys the list. *)
Definition Impl_dtor : M unit :=
  s <- getUnsharedGlObjects ;;
  match s with
  | Some so =>
      match use_count so with
      | S (S n) => setUnsharedGlObjects (Some {| use_count := S n; objects := objects so |})
      | _ => setUnsharedGlObjects None
      end
  | None => ret tt
  end.

(** [GlContext::GlContext(const ContextSettings&)]. *)
Definition GlContext_ctor (settings : ContextSettings) : M (GlContext * ContextSettings) :=
  i <- Impl_ctor ;;
  ret ({| m_impl := i |}, settings).

(** [GlContext::~GlContext()], run on thread [t]. *)
Definition GlContext_dtor (t : ThreadId) (this : GlContext) : M unit :=
  cc <- getCurrentContext t ;;
  (if Impl.id (m_impl this) =? GlContextImpl.id cc
   then setCurrentContext t {| GlContextImpl.id := 0;
                               GlContextImpl.ptr := None;
                               GlContextImpl.transientCount := GlContextImpl.transientCount cc |}
   else ret tt) ;;;
  Impl_dtor.

(** ** The active context of a thread *)

Definition getActiveContext (t : ThreadId) : M (option GlContext) :=
  cc <- getCurrentContext t ;; ret (GlContextImpl.ptr cc).

Definition getActiveContextId (t : ThreadId) : M N :=
  cc <- getCurrentContext t ;; ret (GlContextImpl.id cc).

Definition hasActiveContext (t : ThreadId) : M bool :=
  i <- getActiveContextId t ;; ret (negb (i =? 0)).

(** [GlContext::setActive]; [graphicsContext] only provides the mutex. *)
Definition setActive (t : ThreadId) (this : GlContext)
    (graphicsContext : GraphicsContext) (active : bool) : M bool :=
  cc <- getCurrentContext t ;;
  if active && (Impl.id (m_impl this) =? GlContextImpl.id cc) then ret true
  else if negb active && negb (Impl.id (m_impl this) =? GlContextImpl.id cc) then ret true
  else if active then
    (* activate *)
    ok <- callMakeCurrent this true ;;
    if negb ok then logErr (ErrMakeCurrentFailure true) ;;; ret false
    else
      setCurrentContext t {| GlContextImpl.id := Impl.id (m_impl this);
                             GlContextImpl.ptr := Some this;
                             GlContextImpl.transientCount := GlContextImpl.transientCount cc |} ;;;
      ret true
  else
    (* deactivate *)
    ok <- callMakeCurrent this false ;;
    if negb ok then logErr (ErrMakeCurrentFailure false) ;;; ret false
    else
      setCurrentContext t {| GlContextImpl.id := 0;
                             GlContextImpl.ptr := None;
                             GlContextImpl.transientCount := GlContextImpl.transientCount cc |} ;;;
      ret true.

(** Modelled from the spec: [GraphicsContext::setActive] is not among the
    sources; it activates, respectively deactivates, the shared context. *)
Definition GraphicsContext_setActive (t : ThreadId) (gc : GraphicsContext)
    (active : bool) : M bool :=
  setActive t (sharedContext gc) gc active.

(** ** The list of unshared objects *)

(** [GlContext::registerUnsharedGlObject]; [objectSharedPtr] stands for the
    address held by the [shared_ptr<void>] the argument points to, which
    the call moves into the new entry. *)
Definition registerUnsharedGlObject (t : ThreadId) (objectSharedPtr : N) : M unit :=
  s <- getUnsharedGlObjects ;;
  match s with
  | Some so =>
      i <- getActiveContextId t ;;
      setUnsharedGlObjects
        (Some {| use_count := use_count so;
                 objects := objects so ++ [{| contextId := i; object := objectSharedPtr |}] |})
  | None => ret tt
  end.

(** Modelled from the spec: [findIf] of [SFML/System/AlgorithmUtils.hpp],
    which is not among the sources, finds the first entry that satisfies
    the predicate; [None] stands for the end iterator. *)
Fixpoint findIf {A} (pred : A -> bool) (l : list A) : option nat :=
  match l with
  | [] => None
  | x :: l' => if pred x then Some 0%nat else option_map S (findIf pred l')
  end.

(** [GlContext::unregisterUnsharedGlObject]; entries are compared by the
    address their [shared_ptr] holds. *)
Definition unregisterUnsharedGlObject (t : ThreadId) (objectSharedPtr : N) : M unit :=
  s <- getUnsharedGlObjects ;;
  match s with
  | Some so =>
      currentContextId <- getActiveContextId t ;;
      match findIf (fun obj => (contextId obj =? currentContextId)
                               && (object obj =? objectSharedPtr)) (objects so) with
      | Some iter =>
          setUnsharedGlObjects
            (Some {| use_count := use_count so; objects := delete iter (objects so) |})
      | None => ret tt
      end
  | None => ret tt
  end.

(** The loop of [cleanupUnsharedResources] from the iterator onwards:
    [erase] at a matching entry, [++iter] otherwise. *)
Fixpoint eraseOwned (i : N) (v : UnsharedGlObjects) : UnsharedGlObjects :=
  match v with
  | [] => []
  | o :: rest =>
      if contextId o =? i then eraseOwned i rest else o :: eraseOwned i rest
  end.

(** [GlContext::cleanupUnsharedResources]. The context owns a share of the
    list, so the list exists whenever the context does. *)
Definition cleanupUnsharedResources (t : ThreadId) (this : GlContext)
    (graphicsContext : GraphicsContext) : M unit :=
  cc <- getCurrentContext t ;;
  let contextToRestore :=
    if Impl.id (m_impl this) =? GlContextImpl.id cc then None
    else GlContextImpl.ptr cc in
  ok <- setActive t this graphicsContext true ;;
  (if ok then ret tt else logErr ErrCouldNotEnableInCleanup) ;;;
  s <- getUnsharedGlObjects ;;
  match s with
  | Some so =>
      setUnsharedGlObjects
        (Some {| use_count := use_count so;
                 objects := eraseOwned (Impl.id (m_impl this)) (objects so) |})
  | None => ret tt
  end ;;;
  match contextToRestore with
  | Some r =>
      ok' <- setActive t r graphicsContext true ;;
      if ok' then ret tt else logErr ErrCouldNotRestoreInCleanup
  | None => ret tt
  end.

(** ** Transient activation *)

(** [TransientContext::TransientContext(GraphicsContext&)]: the lock is
    taken by the member initialiser. *)
Definition TransientContext_ctor (t : ThreadId) (theGraphicsContext : GraphicsContext)
    : M TransientContext :=
  a <- hasActiveContext t ;;
  assert (negb a) ;;;
  ok <- GraphicsContext_setActive t theGraphicsContext true ;;
  (if ok then ret tt else logErr ErrEnablingSharedInTransientContext) ;;;
  ret {| graphicsContext := theGraphicsContext; sharedContextLock := true |}.

(** [TransientContext::~TransientContext()]. *)
Definition TransientContext_dtor (t : ThreadId) (tc : TransientContext) : M unit :=
  if sharedContextLock tc then
    ok <- GraphicsContext_setActive t (graphicsContext tc) false ;;
    if ok then ret tt else logErr ErrDisablingSharedInTransientContext
  else ret tt.

(** [TransientContext::get().reset()]. *)
Definition TransientContext_reset (t : ThreadId) : M unit :=
  o <- getTransientContext t ;;
  match o with
  | Some tc => TransientContext_dtor t tc ;;; setTransientContext t None
  | None => ret tt
  end.

(** [TransientContext::get().emplace(graphicsContext)]: a value that is
    already there is destroyed first. *)
Definition TransientContext_emplace (t : ThreadId) (gc : GraphicsContext) : M unit :=
  TransientContext_reset t ;;;
  tc <- TransientContext_ctor t gc ;;
  setTransientContext t (Some tc).

(** [GlContext::acquireTransientContext]. *)
Definition acquireTransientContext (t : ThreadId) (graphicsContext : GraphicsContext)
    : M unit :=
  cc <- getCurrentContext t ;;
  if negb (GlContextImpl.id cc =? 0) then
    setCurrentContext t {| GlContextImpl.id := GlContextImpl.id cc;
                           GlContextImpl.ptr := GlContextImpl.ptr cc;
                           GlContextImpl.transientCount :=
                             uint_add (GlContextImpl.transientCount cc) 1 |}
  else
    assert (GlContextImpl.transientCount cc =? 0) ;;;
    o <- getTransientContext t ;;
    assert (negb (bool_decide (is_Some o))) ;;;
    TransientContext_emplace t graphicsContext ;;;
    cc' <- getCurrentContext t ;;
    assert (negb (GlContextImpl.id cc' =? 0)).

(** [GlContext::releaseTransientContext]. *)
Definition releaseTransientContext (t : ThreadId) : M unit :=
  cc <- getCurrentContext t ;;
  assert (negb (GlContextImpl.id cc =? 0)) ;;;
  if 0 <? GlContextImpl.transientCount cc then
    setCurrentContext t {| GlContextImpl.id := GlContextImpl.id cc;
                           GlContextImpl.ptr := GlContextImpl.ptr cc;
                           GlContextImpl.transientCount :=
                             GlContextImpl.transientCount cc - 1 |}
  else
    o <- getTransientContext t ;;
    assert (bool_decide (is_Some o)) ;;;
    TransientContext_reset t.

(** ** Initialisation: version and profile detection *)

(** [std::isdigit] on a character of the version string. *)
Definition isdigit (c : ascii) : bool :=
  (48 <=? N_of_ascii c) && (N_of_ascii c <=? 57).

(** [s[i]] for a C string: the terminating NUL stands at its length. *)
Definition char_at (s : string) (i : nat) : ascii :=
  match String.get i s with
  | Some c => c
  | None => zero
  end.

(** The lambda [parseVersionString] of [initialize]; the result holds what
    it writes to [major] and [minor] when it returns [true]. *)
Definition parseVersionString (versionString prefix : string) : option (N * N) :=
  let prefixLength := String.length prefix in
  if (prefixLength + 3 <=? String.length versionString)%nat
     && String.prefix prefix versionString
     && isdigit (char_at versionString prefixLength)
     && Ascii.eqb (char_at versionString (prefixLength + 1)) "."
     && isdigit (char_at versionString (prefixLength + 2))
  then Some (N_of_ascii (char_at versionString prefixLength) - 48,
             N_of_ascii (char_at versionString (prefixLength + 2)) - 48)
  else None.

(** The chain of four parses of [initialize], in its order. *)
Definition parseVersion (version : string) : option (N * N) :=
  match parseVersionString version "OpenGL ES-CL " with
  | Some v => Some v
  | None =>
  match parseVersionString version "OpenGL ES-CM " with
  | Some v => Some v
  | None =>
  match parseVersionString version "OpenGL ES " with
  | Some v => Some v
  | None => parseVersionString version ""
  end end end.

(** [std::strstr(haystack, needle) != nullptr]. *)
Definition strstr (haystack needle : string) : bool :=
  bool_decide (is_Some (String.index 0 needle haystack)).

(** The value an [int] variable initialised to 0 holds after
    [glGetIntegerv(pname, &variable)]. *)
Definition queryInteger (gl : Driver) (pname : N) : Z :=
  match glGetIntegerv gl pname with
  | Some v => v
  | None => 0%Z
  end.

Definition getDriver : M Driver := fun w => Some (driver (platform w), w).

(** The version part of [initialize]: the pair written to
    [m_settings.majorVersion] and [m_settings.minorVersion]. *)
Definition detectVersion (gl : Driver) : M (N * N) :=
  let majorVersion := queryInteger gl GL_MAJOR_VERSION in
  let minorVersion := queryInteger gl GL_MINOR_VERSION in
  if negb (glGetError gl =? GL_INVALID_ENUM) then
    ret (to_unsigned majorVersion, to_unsigned minorVersion)
  else
    match glGetString gl GL_VERSION with
    | Some version =>
        match parseVersion version with
        | Some v => ret v
        | None => logErr (ErrUnableToParseVersion version) ;;; ret (1, 1)
        end
    | None => logErr ErrUnableToRetrieveVersion ;;; ret (1, 1)
    end.

(** The profile part of [initialize]: the value of
    [m_settings.attributeFlags] for the detected version. *)
Definition detectAttributeFlags (gl : Driver) (major minor : N) : N :=
  if 3 <=? major then
    let flags := queryInteger gl GL_CONTEXT_FLAGS in
    let a := if negb (Z.land flags GL_CONTEXT_FLAG_DEBUG_BIT =? 0)%Z
             then N.lor Attribute_Default Attribute_Debug
             else Attribute_Default in
    if (major =? 3) && (minor =? 1) then
      let a := N.lor a Attribute_Core in
      if getFunction gl "glGetStringi" then
        let numExtensions := queryInteger gl GL_NUM_EXTENSIONS in
        if existsb (fun i => strstr (glGetStringi gl GL_EXTENSIONS (N.of_nat i))
                                    "GL_ARB_compatibility")
                   (seq 0 (N.to_nat (to_unsigned numExtensions)))
        then N.land a (N.lxor (uint_modulus - 1) Attribute_Core)
        else a
      else a
    else if (3 <? major) || (2 <=? minor) then
      let profile := queryInteger gl GL_CONTEXT_PROFILE_MASK in
      if negb (Z.land profile GL_CONTEXT_CORE_PROFILE_BIT =? 0)%Z
      then N.lor a Attribute_Core
      else a
    else a
  else Attribute_Default.

(** [GlContext::initialize]. The calls of [glEnable] show only through the
    answer of [glIsEnabled]. *)
Definition initialize (t : ThreadId) (this : GlContext) (m_settings : ContextSettings)
    (graphicsContext : GraphicsContext) (requestedSettings : ContextSettings)
    : M (bool * ContextSettings) :=
  ok <- setActive t this graphicsContext true ;;
  (if ok then ret tt else logErr ErrEnablingInInitialize) ;;;
  gl <- getDriver ;;
  if negb (getFunction gl "glGetIntegerv") || negb (getFunction gl "glGetError")
     || negb (getFunction gl "glGetString") || negb (getFunction gl "glEnable")
     || negb (getFunction gl "glIsEnabled")
  then logErr ErrCouldNotLoadFunction ;;; ret (false, m_settings)
  else
    v <- detectVersion gl ;;
    let flags := detectAttributeFlags gl (fst v) (snd v) in
    let antialiasing :=
      if (0 <? antialiasingLevel requestedSettings) && (0 <? antialiasingLevel m_settings)
      then antialiasingLevel m_settings
      else 0 in
    sRgb <- (if sRgbCapable requestedSettings && sRgbCapable m_settings
             then if negb (glIsEnabled gl GL_FRAMEBUFFER_SRGB)
                  then logErr WarnFailedToEnableSRGB ;;; ret false
                  else ret true
             else ret false) ;;
    ret (true, {| depthBits := depthBits m_settings;
                  stencilBits := stencilBits m_settings;
                  antialiasingLevel := antialiasing;
                  majorVersion := fst v;
                  minorVersion := snd v;
                  attributeFlags := flags;
                  sRgbCapable := sRgb |}).

(** ** The settings check *)

(** [major * 10u + minor] converted to [int]. *)
Definition versionNumber (s : ContextSettings) : Z :=
  to_int (uint_add (uint_mul (majorVersion s) 10) (minorVersion s)).

(** The condition under which [checkSettings] writes its warning. *)
Definition settingsNotMet (m_settings requestedSettings : ContextSettings) : bool :=
  negb (attributeFlags m_settings =? attributeFlags requestedSettings)
  || (versionNumber m_settings <? versionNumber requestedSettings)%Z
  || (stencilBits m_settings <? stencilBits requestedSettings)
  || (antialiasingLevel m_settings <? antialiasingLevel requestedSettings)
  || (depthBits m_settings <? depthBits requestedSettings)
  || (negb (sRgbCapable m_settings) && sRgbCapable requestedSettings).

(** [GlContext::checkSettings]. *)
Definition checkSettings (m_settings requestedSettings : ContextSettings) : M unit :=
  if settingsNotMet m_settings requestedSettings
  then logErr (WarnSettingsNotMet requestedSettings m_settings)
  else ret tt.

(** ** Creation *)

(** [graphicsContext.makeContextType(context, settings, ...)]: the base
    constructor runs, then the backend fixes the settings the context
    starts with. *)
Definition callMakeContextType (args : ContextArgs) (settings : ContextSettings)
    : M (GlContext * ContextSettings) :=
  c <- GlContext_ctor settings ;;
  fun w => let r := makeContextType args (snd c) (platform w) in
           Some ((fst c, fst r),
                 {| atomicId := atomicId w;
                    weakUnsharedGlObjects := weakUnsharedGlObjects w;
                    currentContext := currentContext w;
                    transientContext := transientContext w;
                    platform := snd r;
                    err := err w |}).

(** [GlContext::create] with requested settings (the overloads for a
    window and for a size differ in the arguments handed to the backend);
    [None] is the null pointer. When [initialize] fails the function
    returns the null pointer and the context held by its local
    [UniquePtr] is destroyed: [~GlContext] runs on the calling thread and
    the share of the list is given back (the destructor of the backend
    type, which runs before it, is not among the sources). *)
Definition create (t : ThreadId) (graphicsContext : GraphicsContext)
    (settings : ContextSettings) (args : ContextArgs)
    : M (option (GlContext * ContextSettings)) :=
  ok <- GraphicsContext_setActive t graphicsContext true ;;
  (if ok then ret tt else logErr ErrEnablingSharedInCreate) ;;;
  context <- callMakeContextType args settings ;;
  ok' <- GraphicsContext_setActive t graphicsContext false ;;
  (if ok' then ret tt else logErr ErrDisablingSharedInCreate) ;;;
  r <- initialize t (fst context) (snd context) graphicsContext settings ;;
  if negb (fst r) then
    logErr ErrCouldNotInitializeInCreate ;;;
    GlContext_dtor t (fst context) ;;;
    ret None
  else
    checkSettings (snd r) settings ;;;
    ret (Some (fst context, snd r)).

(** ** Vocabulary of the specification *)

(** The identity of a context. *)
Definition identity (c : GlContext) : N := Impl.id (m_impl c).

(** The life of contexts in a process: a thread constructs a context or
    destroys one. *)
Inductive Event :=
| Construct (t : ThreadId) (settings : ContextSettings)
| Destroy (t : ThreadId) (c : GlContext).

(** The contexts a sequence of events constructs, in the order of their
    construction. *)
Fixpoint run (es : list Event) : M (list GlContext) :=
  match es with
  | [] => ret []
  | Construct _ settings :: es' =>
      c <- GlContext_ctor settings ;;
      cs <- run es' ;;
      ret (fst c :: cs)
  | Destroy t c :: es' => GlContext_dtor t c ;;; run es'
  end.

Definition isConstruct (e : Event) : bool :=
  match e with
  | Construct _ _ => true
  | Destroy _ _ => false
  end.

Definition constructions (es : list Event) : nat :=
  List.length (List.filter isConstruct es).

(** [n] calls in a row. *)
Fixpoint repeatM (n : nat) (m : M unit) : M unit :=
  match n with
  | O => ret tt
  | S n' => m ;;; repeatM n' m
  end.

(** The record of thread [t] with another nesting count. *)
Definition withTransientCount (cc : CurrentContext) (n : N) : CurrentContext :=
  {| GlContextImpl.id := GlContextImpl.id cc;
     GlContextImpl.ptr := GlContextImpl.ptr cc;
     GlContextImpl.transientCount := n |}.

(** The record of a thread is consistent when its identity is that of the
    context it points to, and 0 when it points to none. *)
Definition consistent (cc : CurrentContext) : Prop :=
  match GlContextImpl.ptr cc with
  | Some c => GlContextImpl.id cc = identity c
  | None => GlContextImpl.id cc = 0
  end.

(** The platform makes context [c] current, or none current, whenever
    asked. *)
Definition makeCurrentSucceeds (c : GlContext) (active : bool) : Prop :=
  forall p, fst (makeCurrent c active p) = true.

(** The entry an unregistration looks for. *)
Definition matches (currentContextId objectSharedPtr : N) (obj : UnsharedGlObject) : Prop :=
  contextId obj = currentContextId /\ object obj = objectSharedPtr.

(** Versions in the order of their major, then minor, numbers. *)
Definition versionLower (created requested : ContextSettings) : Prop :=
  majorVersion created < majorVersion requested
  \/ (majorVersion created = majorVersion requested
      /\ minorVersion created < minorVersion requested).

(** An attribute flag that was requested and is not there. *)
Definition flagMissing (flag : N) (created requested : ContextSettings) : Prop :=
  N.land (attributeFlags requested) flag <> 0
  /\ N.land (attributeFlags created) flag = 0.

(** The created settings are weaker than the requested ones in some
    dimension. *)
Definition weakerThanRequested (created requested : ContextSettings) : Prop :=
  versionLower created requested
  \/ depthBits created < depthBits requested
  \/ stencilBits created < stencilBits requested
  \/ antialiasingLevel created < antialiasingLevel requested
  \/ flagMissing Attribute_Core created requested
  \/ flagMissing Attribute_Debug created requested
  \/ (sRgbCapable requested = true /\ sRgbCapable created = false).

(** The created settings are weaker than the requested ones in a dimension
    other than the version. *)
Definition weakerBesidesVersion (created requested : ContextSettings) : Prop :=
  depthBits created < depthBits requested
  \/ stencilBits created < stencilBits requested
  \/ antialiasingLevel created < antialiasingLevel requested
  \/ flagMissing Attribute_Core created requested
  \/ flagMissing Attribute_Debug created requested
  \/ (sRgbCapable requested = true /\ sRgbCapable created = false).

(** The number [major * 10 + minor] of the version is an [int]. *)
Definition versionFitsInt (s : ContextSettings) : Prop :=
  majorVersion s * 10 + minorVersion s < 2 ^ 31.

(** [create] up to and including [initialize]. *)
Definition createAndInitialize (t : ThreadId) (graphicsContext : GraphicsContext)
    (settings : ContextSettings) (args : ContextArgs)
    : M (GlContext * (bool * ContextSettings)) :=
  ok <- GraphicsContext_setActive t graphicsContext true ;;
  (if ok then ret tt else logErr ErrEnablingSharedInCreate) ;;;
  context <- callMakeContextType args settings ;;
  ok' <- GraphicsContext_setActive t graphicsContext false ;;
  (if ok' then ret tt else logErr ErrDisablingSharedInCreate) ;;;
  r <- initialize t (fst context) (snd context) graphicsContext settings ;;
  ret (fst context, r).

(** The version string holds [prefix], a digit, a dot and a digit. *)
Definition versionAt (prefix versionString : string) (major minor : N) : Prop :=
  exists (d1 d2 : ascii) (rest : string),
    versionString = (prefix ++ String d1 (String "." (String d2 rest)))%string
    /\ isdigit d1 = true /\ isdigit d2 = true
    /\ major = N_of_ascii d1 - 48 /\ minor = N_of_ascii d2 - 48.

(** The four prefixes of [initialize], in the order they are tried. *)
Definition versionPrefixes : list string :=
  ["OpenGL ES-CL "; "OpenGL ES-CM "; "OpenGL ES "; ""]%string.

(** The world with one more message on [err()]. *)
Definition withErr (w : World) (d : Diagnostic) : World :=
  {| atomicId := atomicId w;
     weakUnsharedGlObjects := weakUnsharedGlObjects w;
     currentContext := currentContext w;
     transientContext := transientContext w;
     platform := platform w;
     err := err w ++ [d] |}.



(** The warnings of the settings check among the messages on [err()]. *)
Definition isSettingsWarning (d : Diagnostic) : bool :=
  match d with
  | WarnSettingsNotMet _ _ => true
  | _ => false
  end.

Definition settingsWarnings (w : World) : nat :=
  List.length (List.filter isSettingsWarning (err w)).

(** Between [w] and [w'] no warning of the settings check was written. *)
Definition noSettingsWarning (w w' : World) : Prop :=
  settingsWarnings w' = settingsWarnings w.

(** Between [w] and [w'] nothing changes apart from the records of thread
    [t] and the state of the platform. *)
Definition onlyThread (t : ThreadId) (w w' : World) : Prop :=
  (forall t', t' <> t ->
     currentContext w' t' = currentContext w t'
     /\ transientContext w' t' = transientContext w t')
  /\ atomicId w' = atomicId w
  /\ weakUnsharedGlObjects w' = weakUnsharedGlObjects w
  /\ err w' = err w.

(** [n] acquisitions followed by [n] releases. *)
Definition acquireThenRelease (t : ThreadId) (graphicsContext : GraphicsContext)
    (n : nat) : M unit :=
  repeatM n (acquireTransientContext t graphicsContext) ;;;
  repeatM n (releaseTransientContext t).

(** What the slow path of the transient activation relies on when no
    context is active: the thread has no transient context in use, the
    shared context has an identity and the platform makes it current, and
    not current, when asked. *)
Definition sharedContextUsable (t : ThreadId) (gc : GraphicsContext) (w : World) : Prop :=
  GlContextImpl.ptr (currentContext w t) = None
  /\ transientContext w t = None
  /\ identity (sharedContext gc) <> 0
  /\ makeCurrentSucceeds (sharedContext gc) true
  /\ makeCurrentSucceeds (sharedContext gc) false.

(** ** Pixel format evaluation *)

(** The weighting [diff *= ((diff > 0) ? 100000 : 1)] of [evaluateFormat]. *)
Definition weight (diff : Z) : Z :=
  (diff * (if 0 <? diff then 100000 else 1))%Z.

(** [GlContext::evaluateFormat]. The arithmetic of [int] is that of [Z] as
    long as every intermediate result is an [int]; the primed parameters
    are the [depthBits] and [stencilBits] of the format. *)
Definition evaluateFormat (bitsPerPixel : N) (settings : ContextSettings)
    (colorBits depthBits' stencilBits' antialiasing : Z)
    (accelerated sRgb : bool) : Z :=
  let colorDiff := (to_int bitsPerPixel - colorBits)%Z in
  let depthDiff := (to_int (depthBits settings) - depthBits')%Z in
  let stencilDiff := (to_int (stencilBits settings) - stencilBits')%Z in
  let antialiasingDiff := (to_int (antialiasingLevel settings) - antialiasing)%Z in
  let colorDiff := weight colorDiff in
  let depthDiff := weight depthDiff in
  let stencilDiff := weight stencilDiff in
  let antialiasingDiff := weight antialiasingDiff in
  let score := (Z.abs colorDiff + Z.abs depthDiff + Z.abs stencilDiff
                + Z.abs antialiasingDiff)%Z in
  let score := if sRgbCapable settings && negb sRgb
               then (score + 10000000)%Z else score in
  if negb accelerated then (score + 100000000)%Z else score.

(** The range of [int]. *)
Definition isInt (z : Z) : Prop := (- 2 ^ 31 <= z < 2 ^ 31)%Z.

(** The requested bit counts and those of a format are at most [bound]. *)
Definition requestWithin (bound : Z) (bitsPerPixel : N) (settings : ContextSettings)
    : Prop :=
  (Z.of_N bitsPerPixel <= bound /\ Z.of_N (depthBits settings) <= bound
   /\ Z.of_N (stencilBits settings) <= bound
   /\ Z.of_N (antialiasingLevel settings) <= bound)%Z.

Definition formatWithin (bound : Z) (colorBits depthBits' stencilBits' antialiasing : Z)
    : Prop :=
  (0 <= colorBits <= bound /\ 0 <= depthBits' <= bound
   /\ 0 <= stencilBits' <= bound /\ 0 <= antialiasing <= bound)%Z.

(** ** Vocabulary of further properties *)

(** Every run of [m] that returns relates the worlds before and after
    by [R]. *)
Definition preserves {A} (R : World -> World -> Prop) (m : M A) : Prop :=
  forall w a w', m w = Some (a, w') -> R w w'.

(** Two records name the same context. *)
Definition sameTarget (cc cc' : CurrentContext) : Prop :=
  GlContextImpl.id cc' = GlContextImpl.id cc
  /\ GlContextImpl.ptr cc' = GlContextImpl.ptr cc.

(** The record of a thread is valid when it points to a context that is
    alive and holds the identity of that context, or points to none and
    holds 0; [live] tells which contexts are alive. *)
Definition valid (live : GlContext -> Prop) (cc : CurrentContext) : Prop :=
  match GlContextImpl.ptr cc with
  | Some c => live c /\ GlContextImpl.id cc = identity c
  | None => GlContextImpl.id cc = 0
  end.

(** What a member function run on thread [t] may do to the thread-local
    state and to the counter of identities: the records of the other
    threads stay, the record of [t] keeps its context or becomes a valid
    one, and no identity is drawn. *)
Definition footprint (live : GlContext -> Prop) (t : ThreadId) (w w' : World) : Prop :=
  (forall t', t' <> t ->
     currentContext w' t' = currentContext w t'
     /\ transientContext w' t' = transientContext w t')
  /\ (sameTarget (currentContext w t) (currentContext w' t)
      \/ valid live (currentContext w' t))
  /\ atomicId w' = atomicId w.

(** What a member function run on thread [t] leaves alone in any case: the
    records of the other threads and the counter of identities. *)
Definition confinedTo (t : ThreadId) (w w' : World) : Prop :=
  (forall t', t' <> t ->
     currentContext w' t' = currentContext w t'
     /\ transientContext w' t' = transientContext w t')
  /\ atomicId w' = atomicId w.

(** The record of every thread is valid. *)
Definition allValid (live : GlContext -> Prop) (w : World) : Prop :=
  forall t, valid live (currentContext w t).

(** The number of owners of the list of unshared objects; 0 when the weak
    pointer has expired. *)
Definition liveCount (w : World) : nat :=
  match weakUnsharedGlObjects w with
  | Some so => use_count so
  | None => 0%nat
  end.

(** A list that exists has an owner. *)
Definition listOwned (w : World) : Prop :=
  match weakUnsharedGlObjects w with
  | Some so => (0 < use_count so)%nat
  | None => True
  end.

(** The number of live contexts after a sequence of events, from [n]. *)
Fixpoint liveAfter (es : list Event) (n : nat) : nat :=
  match es with
  | [] => n
  | Construct _ _ :: es' => liveAfter es' (S n)
  | Destroy _ _ :: es' => liveAfter es' (Nat.pred n)
  end.

(** Between [w] and [w'] only messages were written. *)
Definition sameButErr (w w' : World) : Prop :=
  atomicId w' = atomicId w
  /\ weakUnsharedGlObjects w' = weakUnsharedGlObjects w
  /\ currentContext w' = currentContext w
  /\ transientContext w' = transientContext w
  /\ platform w' = platform w.

(** The three answers of the driver the profile detection of [initialize]
    depends on: the debug bit of the context flags, an extension string
    with [GL_ARB_compatibility] reachable through [glGetStringi], and the
    core bit of the profile mask. *)
Definition debugContext (gl : Driver) : bool :=
  negb (Z.land (queryInteger gl GL_CONTEXT_FLAGS) GL_CONTEXT_FLAG_DEBUG_BIT =? 0)%Z.

Definition compatibilityExtension (gl : Driver) : bool :=
  getFunction gl "glGetStringi"
  && existsb (fun i => strstr (glGetStringi gl GL_EXTENSIONS (N.of_nat i))
                              "GL_ARB_compatibility")
             (seq 0 (N.to_nat (to_unsigned (queryInteger gl GL_NUM_EXTENSIONS)))).

Definition coreProfile (gl : Driver) : bool :=
  negb (Z.land (queryInteger gl GL_CONTEXT_PROFILE_MASK) GL_CONTEXT_CORE_PROFILE_BIT =? 0)%Z.

(** The five functions [initialize] needs are all there. *)
Definition functionsLoaded (gl : Driver) : bool :=
  getFunction gl "glGetIntegerv" && getFunction gl "glGetError"
  && getFunction gl "glGetString" && getFunction gl "glEnable"
  && getFunction gl "glIsEnabled".

(** The condition of [checkSettings], in the words of a user: the flags
    differ, or the created settings are lower in some dimension. *)
Definition fallsShort (created requested : ContextSettings) : Prop :=
  attributeFlags created <> attributeFlags requested
  \/ versionLower created requested
  \/ stencilBits created < stencilBits requested
  \/ antialiasingLevel created < antialiasingLevel requested
  \/ depthBits created < depthBits requested
  \/ (sRgbCapable created = false /\ sRgbCapable requested = true).

End Model.

Notation "x <- m ;; k" := (bind m (fun x => k))
  (at level 100, m at next level, right associativity).
Notation "m ;;; k" := (bind m (fun _ => k))
  (at level 100, right associativity).

(** ** Example platforms and objects *)

Definition defaultSettings : ContextSettings :=
  {| depthBits := 0; stencilBits := 0; antialiasingLevel := 0;
     majorVersion := 1; minorVersion := 1;
     attributeFlags := 0; sRgbCapable := false |}.

(** A desktop driver that answers the integer version queries with 4.6. *)
Definition desktopDriver : Driver :=
  {| getFunction := fun _ => true;
     glGetIntegerv := fun pname =>
       if pname =? GL_MAJOR_VERSION then Some 4%Z
       else if pname =? GL_MINOR_VERSION then Some 6%Z
       else Some 0%Z;
     glGetError := 0;
     glGetString := fun _ => Some "4.6.0 Mesa"%string;
     glGetStringi := fun _ _ => EmptyString;
     glIsEnabled := fun _ => true |}.

(** An embedded driver that knows no integer version query and answers the
    given version string, if any. *)
Definition legacyDriver (version : option string) : Driver :=
  {| getFunction := fun _ => true;
     glGetIntegerv := fun _ => None;
     glGetError := GL_INVALID_ENUM;
     glGetString := fun _ => version;
     glGetStringi := fun _ _ => EmptyString;
     glIsEnabled := fun _ => true |}.

(** A debug build on a platform whose [makeCurrent] always succeeds. *)
Definition friendlyPlatform : Platform :=
  {| NDEBUG := false;
     P := unit;
     makeCurrent := fun _ _ p => (true, p);
     ContextArgs := unit;
     makeContextType := fun _ settings p => (settings, p);
     driver := fun _ => desktopDriver;
     Attribute_Default := 0;
     Attribute_Core := 1;
     Attribute_Debug := 4 |}.


(** A desktop driver from which [glIsEnabled] cannot be loaded, and one
    that never reports a capability as enabled. *)
Definition bareDriver : Driver :=
  {| getFunction := fun name => negb (String.eqb name "glIsEnabled");
     glGetIntegerv := glGetIntegerv desktopDriver;
     glGetError := 0;
     glGetString := glGetString desktopDriver;
     glGetStringi := fun _ _ => EmptyString;
     glIsEnabled := fun _ => true |}.

Definition dullDriver : Driver :=
  {| getFunction := fun _ => true;
     glGetIntegerv := glGetIntegerv desktopDriver;
     glGetError := 0;
     glGetString := glGetString desktopDriver;
     glGetStringi := fun _ _ => EmptyString;
     glIsEnabled := fun _ => false |}.

(** Friendly platforms with these drivers. *)
Definition barePlatform : Platform :=
  {| NDEBUG := false;
     P := unit;
     makeCurrent := fun _ _ p => (true, p);
     ContextArgs := unit;
     makeContextType := fun _ settings p => (settings, p);
     driver := fun _ => bareDriver;
     Attribute_Default := 0;
     Attribute_Core := 1;
     Attribute_Debug := 4 |}.

Definition dullPlatform : Platform :=
  {| NDEBUG := false;
     P := unit;
     makeCurrent := fun _ _ p => (true, p);
     ContextArgs := unit;
     makeContextType := fun _ settings p => (settings, p);
     driver := fun _ => dullDriver;
     Attribute_Default := 0;
     Attribute_Core := 1;
     Attribute_Debug := 4 |}.

(** A platform that makes contexts current and refuses to make none
    current. *)
Definition refusingPlatform : Platform :=
  {| NDEBUG := false;
     P := unit;
     makeCurrent := fun _ active p => (active, p);
     ContextArgs := unit;
     makeContextType := fun _ settings p => (settings, p);
     driver := fun _ => desktopDriver;
     Attribute_Default := 0;
     Attribute_Core := 1;
     Attribute_Debug := 4 |}.

(** A platform whose [makeCurrent] succeeds twice and fails from the third
    call on; its state counts the calls. *)
Definition tiringPlatform : Platform :=
  {| NDEBUG := false;
     P := nat;
     makeCurrent := fun _ _ calls => (Nat.ltb calls 2, S calls);
     ContextArgs := unit;
     makeContextType := fun _ settings p => (settings, p);
     driver := fun _ => desktopDriver;
     Attribute_Default := 0;
     Attribute_Core := 1;
     Attribute_Debug := 4 |}.

(** A platform whose backend grants 16 depth bits and no multisampling,
    whatever is requested. *)
Definition modestPlatform : Platform :=
  {| NDEBUG := false;
     P := unit;
     makeCurrent := fun _ _ p => (true, p);
     ContextArgs := unit;
     makeContextType := fun _ settings p =>
       ({| depthBits := 16;
           stencilBits := stencilBits settings;
           antialiasingLevel := 0;
           majorVersion := majorVersion settings;
           minorVersion := minorVersion settings;
           attributeFlags := attributeFlags settings;
           sRgbCapable := sRgbCapable settings |}, p);
     driver := fun _ => desktopDriver;
     Attribute_Default := 0;
     Attribute_Core := 1;
     Attribute_Debug := 4 |}.

(** Requested: 24 depth bits and 4 samples. Created by the modest
    platform: 16 depth bits, no multisampling, version 4.6. *)
Definition requestedSettings24x4 : ContextSettings :=
  {| depthBits := 24; stencilBits := 0; antialiasingLevel := 4;
     majorVersion := 1; minorVersion := 1;
     attributeFlags := 0; sRgbCapable := false |}.

Definition createdSettings16x0 : ContextSettings :=
  {| depthBits := 16; stencilBits := 0; antialiasingLevel := 0;
     majorVersion := 4; minorVersion := 6;
     attributeFlags := 0; sRgbCapable := false |}.

(** What [initialize] makes of the default settings on the desktop driver:
    version 4.6. *)
Definition createdSettings_4_6 : ContextSettings :=
  {| depthBits := 0; stencilBits := 0; antialiasingLevel := 0;
     majorVersion := 4; minorVersion := 6;
     attributeFlags := 0; sRgbCapable := false |}.

(** The default settings with sRGB capability, in version 4.6, and what
    [initialize] makes of them when the framebuffer is not enabled. *)
Definition settingsSRgb_4_6 : ContextSettings :=
  {| depthBits := 0; stencilBits := 0; antialiasingLevel := 0;
     majorVersion := 4; minorVersion := 6;
     attributeFlags := 0; sRgbCapable := true |}.

(** Versions 1.20 and 2.1, everything else alike. *)
Definition settings_1_20 : ContextSettings :=
  {| depthBits := 0; stencilBits := 0; antialiasingLevel := 0;
     majorVersion := 1; minorVersion := 20;
     attributeFlags := 0; sRgbCapable := false |}.

Definition settings_2_1 : ContextSettings :=
  {| depthBits := 0; stencilBits := 0; antialiasingLevel := 0;
     majorVersion := 2; minorVersion := 1;
     attributeFlags := 0; sRgbCapable := false |}.

(** Version 1.20 with 16 depth bits, and version 2.1 with 24. *)
Definition settings_1_20_depth16 : ContextSettings :=
  {| depthBits := 16; stencilBits := 0; antialiasingLevel := 0;
     majorVersion := 1; minorVersion := 20;
     attributeFlags := 0; sRgbCapable := false |}.

Definition settings_2_1_depth24 : ContextSettings :=
  {| depthBits := 24; stencilBits := 0; antialiasingLevel := 0;
     majorVersion := 2; minorVersion := 1;
     attributeFlags := 0; sRgbCapable := false |}.

(** A process that has not constructed any context yet. *)
Definition friendlyStart : @World friendlyPlatform := @initialWorld friendlyPlatform tt.
Definition refusingStart : @World refusingPlatform := @initialWorld refusingPlatform tt.
Definition tiringStart (calls : nat) : @World tiringPlatform :=
  @initialWorld tiringPlatform calls.

Definition modestStart : @World modestPlatform := @initialWorld modestPlatform tt.
Definition bareStart : @World barePlatform := @initialWorld barePlatform tt.
Definition dullStart : @World dullPlatform := @initialWorld dullPlatform tt.

(** The first three contexts a process constructs. *)
Definition context1 : GlContext := {| m_impl := {| Impl.id := 1 |} |}.
Definition context2 : GlContext := {| m_impl := {| Impl.id := 2 |} |}.
Definition context3 : GlContext := {| m_impl := {| Impl.id := 3 |} |}.

(** The graphics context whose shared context is the first context. *)
Definition graphicsContext1 : GraphicsContext := {| sharedContext := context1 |}.

(** The construction of three contexts, and the registration of the
    objects 100 and 101 under context 2 and of 200 under context 3, all on
    thread 0. *)
Definition constructThree : list Event :=
  [Construct 0 defaultSettings; Construct 0 defaultSettings;
   Construct 0 defaultSettings].

Definition registerThree {pf : Platform} : M unit :=
  run constructThree ;;;
  setActive 0 context2 graphicsContext1 true ;;;
  registerUnsharedGlObject 0 100 ;;;
  registerUnsharedGlObject 0 101 ;;;
  setActive 0 context3 graphicsContext1 true ;;;
  registerUnsharedGlObject 0 200.

(** The first context is constructed and made active on thread 0, where
    the object 100 is registered. *)
Definition registerOne {pf : Platform} : M unit :=
  GlContext_ctor defaultSettings ;;;
  setActive 0 context1 graphicsContext1 true ;;;
  registerUnsharedGlObject 0 100.

(** Two contexts are constructed on two threads and destroyed again. *)
Definition constructAndDestroyTwo : list Event :=
  [Construct 0 defaultSettings; Construct 1 defaultSettings;
   Destroy 0 context1; Destroy 1 context2].

(** The world a run leaves; the world it started from when it aborts. *)
Definition worldAfter {pf : Platform} {A} (m : M A) (w : World) : World :=
  match m w with
  | Some (_, w') => w'
  | None => w
  end.

(** The value a run returns. *)
Definition valueOf {pf : Platform} {A} (m : M A) (w : World) : option A :=
  option_map fst (m w).

(** * Properties *)

Section Properties.

Context {pf : Platform}.


(** ** Tactics and basic facts *)

Ltac unfold_monad :=
  unfold bind, ret, assert, logErr, getCurrentContext, setCurrentContext,
    getTransientContext, setTransientContext, getUnsharedGlObjects,
    setUnsharedGlObjects, callMakeCurrent, fetch_add_atomicId, getDriver in *.

Lemma update_eq {A} (f : ThreadId -> A) t a : update f t a t = a.
Proof. unfold update. now rewrite Nat.eqb_refl. Qed.

Lemma update_neq {A} (f : ThreadId -> A) t t' a : t' <> t -> update f t a t' = f t'.
Proof. intros H. unfold update. apply Nat.eqb_neq in H. now rewrite H. Qed.

Lemma bind_Some {A B} (m : M A) (k : A -> M B) w b w' :
  bind m k w = Some (b, w') ->
  exists a w1, m w = Some (a, w1) /\ k a w1 = Some (b, w').
Proof.
  unfold bind. destruct (m w) as [[a w1]|]; [|discriminate]. eauto.
Qed.

Lemma preserves_ret {A} (R : World -> World -> Prop) (a : A) :
  (forall w, R w w) -> preserves R (ret a).
Proof. intros Hrefl w a' w' H. injection H as _ <-. apply Hrefl. Qed.

Lemma preserves_bind {A B} (R : World -> World -> Prop) (m : M A) (k : A -> M B) :
  (forall w1 w2 w3, R w1 w2 -> R w2 w3 -> R w1 w3) ->
  preserves R m -> (forall a, preserves R (k a)) -> preserves R (bind m k).
Proof.
  intros Htrans Hm Hk w b w' H. apply bind_Some in H as (a & w1 & H1 & H2).
  eapply Htrans; [eapply Hm | eapply Hk]; eassumption.
Qed.

Lemma assert_Some c w a w' : assert c w = Some (a, w') -> w' = w.
Proof.
  unfold assert. destruct (NDEBUG || c); [|discriminate].
  intros H. inversion H. reflexivity.
Qed.

(** [setActive] always returns. *)
Lemma setActive_total t C gc active w :
  exists b w', setActive t C gc active w = Some (b, w').
Proof.
  unfold setActive. unfold_monad.
  destruct active, (Impl.id (m_impl C) =? GlContextImpl.id (currentContext w t));
    simpl; try (eexists; eexists; reflexivity);
    destruct (makeCurrent C _ (platform w)) as [[] p]; simpl;
    eexists; eexists; reflexivity.
Qed.

(** ** setActive *)

(** C6: [setActive(true)] on the context that is already active on the
    thread, and [setActive(false)] on a context that is not the active one
    of the thread, return [true] and leave the whole state as it was. *)
Theorem C6_setActive_noop (t : ThreadId) (C : GlContext) (gc : GraphicsContext) (w : World) :
  (GlContextImpl.id (currentContext w t) = identity C ->
   setActive t C gc true w = Some (true, w))
  /\ (GlContextImpl.id (currentContext w t) <> identity C ->
      setActive t C gc false w = Some (true, w)).
Proof.
  unfold identity, setActive. unfold_monad. split; intros H.
  - rewrite H, N.eqb_refl. reflexivity.
  - destruct (N.eqb_spec (Impl.id (m_impl C)) (GlContextImpl.id (currentContext w t))) as [E|E].
    + congruence.
    + reflexivity.
Qed.

(** C2: when [setActive(true)] returns [true] the record of the calling
    thread holds the identity of the context, and when [setActive(false)]
    on the active context of the thread returns [true] the record holds 0. *)
Theorem C2_setActive_activeContextId (t : ThreadId) (C : GlContext) (gc : GraphicsContext)
    (w w' : World) :
  (setActive t C gc true w = Some (true, w') ->
   getActiveContextId t w' = Some (identity C, w'))
  /\ (GlContextImpl.id (currentContext w t) = identity C ->
      setActive t C gc false w = Some (true, w') ->
      getActiveContextId t w' = Some (0, w')).
Proof.
  unfold identity, getActiveContextId, setActive. unfold_monad. split.
  - destruct (N.eqb_spec (Impl.id (m_impl C)) (GlContextImpl.id (currentContext w t))) as [E|E];
      simpl.
    + intros H. injection H as <-. now rewrite E.
    + destruct (makeCurrent C true (platform w)) as [[] p]; simpl; intros H;
        [| discriminate].
      injection H as <-. simpl. now rewrite update_eq.
  - intros E. rewrite E, N.eqb_refl. simpl.
    destruct (makeCurrent C false (platform w)) as [[] p]; simpl; intros H;
      [| discriminate].
    injection H as <-. simpl. now rewrite update_eq.
Qed.

(** C9: when the platform call [makeCurrent] made by [setActive] fails, in
    either direction, [setActive] returns [false] and the records of every
    thread are what they were; only the message is added to [err()].
    Moreover no run of [setActive] that returns [false] changes them. *)
Theorem C9_setActive_failure_atomic (t : ThreadId) (C : GlContext) (gc : GraphicsContext)
    (active : bool) (w : World) :
  ((if active
    then GlContextImpl.id (currentContext w t) <> identity C
    else GlContextImpl.id (currentContext w t) = identity C) ->
   fst (makeCurrent C active (platform w)) = false ->
   exists w', setActive t C gc active w = Some (false, w')
     /\ currentContext w' = currentContext w
     /\ transientContext w' = transientContext w
     /\ weakUnsharedGlObjects w' = weakUnsharedGlObjects w
     /\ atomicId w' = atomicId w
     /\ err w' = err w ++ [ErrMakeCurrentFailure active])
  /\ (forall w', setActive t C gc active w = Some (false, w') ->
        currentContext w' = currentContext w
        /\ transientContext w' = transientContext w).
Proof.
  unfold identity, setActive. unfold_monad. split.
  - intros Hreach Hfail.
    destruct (N.eqb_spec (Impl.id (m_impl C)) (GlContextImpl.id (currentContext w t))) as [E|E];
      destruct active; simpl; try congruence;
      destruct (makeCurrent C _ (platform w)) as [[] p]; simpl in *; try discriminate;
      eexists; repeat split.
  - intros w'.
    destruct (N.eqb_spec (Impl.id (m_impl C)) (GlContextImpl.id (currentContext w t))) as [E|E];
      destruct active; simpl; try discriminate;
      destruct (makeCurrent C _ (platform w)) as [[] p]; simpl; intros H;
      try discriminate; injection H as <-; split; reflexivity.
Qed.

(** What [setActive] leaves alone. *)
Lemma setActive_frame t C gc active w b w' :
  setActive t C gc active w = Some (b, w') ->
  weakUnsharedGlObjects w' = weakUnsharedGlObjects w
  /\ atomicId w' = atomicId w
  /\ transientContext w' = transientContext w
  /\ (forall t', t' <> t -> currentContext w' t' = currentContext w t')
  /\ GlContextImpl.transientCount (currentContext w' t)
     = GlContextImpl.transientCount (currentContext w t).
Proof.
  unfold setActive. unfold_monad.
  destruct active, (Impl.id (m_impl C) =? GlContextImpl.id (currentContext w t));
    simpl; try (intros H; injection H as <- <-; repeat split; reflexivity);
    destruct (makeCurrent C _ (platform w)) as [[] p]; simpl;
    intros H; injection H as <- <-; simpl; repeat split;
    try (intros; now rewrite update_neq); now rewrite update_eq.
Qed.

(** The record of the calling thread after [setActive(true)]. *)
Lemma setActive_true_record t C gc w b w' :
  setActive t C gc true w = Some (b, w') ->
  (b = true
   /\ GlContextImpl.id (currentContext w' t) = identity C
   /\ (GlContextImpl.id (currentContext w t) <> identity C ->
       GlContextImpl.ptr (currentContext w' t) = Some C)
   /\ (GlContextImpl.id (currentContext w t) = identity C -> w' = w))
  \/ (b = false
      /\ GlContextImpl.id (currentContext w t) <> identity C
      /\ fst (makeCurrent C true (platform w)) = false
      /\ currentContext w' = currentContext w).
Proof.
  unfold identity, setActive. unfold_monad.
  destruct (N.eqb_spec (Impl.id (m_impl C)) (GlContextImpl.id (currentContext w t))) as [E|E];
    simpl.
  - intros H. injection H as <- <-. left. repeat split; congruence.
  - destruct (makeCurrent C true (platform w)) as [[] p] eqn:Hmc; simpl;
      intros H; injection H as <- <-; simpl.
    + left. rewrite update_eq. simpl. repeat split; congruence.
    + right. repeat split; congruence.
Qed.

(** ** The list of unshared objects *)

Lemma eraseOwned_filter i v :
  eraseOwned i v = List.filter (fun o => negb (contextId o =? i)) v.
Proof.
  induction v as [|o v IH]; simpl; [reflexivity|].
  destruct (contextId o =? i); simpl; now rewrite IH.
Qed.

Lemma eraseOwned_In i v o :
  In o (eraseOwned i v) <-> In o v /\ contextId o <> i.
Proof.
  rewrite eraseOwned_filter, filter_In, negb_true_iff, N.eqb_neq. reflexivity.
Qed.

Lemma eraseOwned_idempotent i v : eraseOwned i (eraseOwned i v) = eraseOwned i v.
Proof.
  induction v as [|o v IH]; simpl; [reflexivity|].
  destruct (contextId o =? i) eqn:E; simpl; [assumption|].
  now rewrite E, IH.
Qed.

Lemma findIf_None {A} (pred : A -> bool) l :
  findIf pred l = None <-> Forall (fun x => pred x = false) l.
Proof.
  induction l as [|x l IH]; simpl.
  - split; [constructor | reflexivity].
  - destruct (pred x) eqn:E.
    + split; [discriminate|]. intros H. inversion H; congruence.
    + destruct (findIf pred l); simpl.
      * split; [discriminate|]. intros H. inversion H; subst.
        apply IH in H3. discriminate.
      * split; [|reflexivity]. intros _. constructor; [assumption|]. now apply IH.
Qed.

Lemma findIf_first {A} (pred : A -> bool) l1 e l2 :
  Forall (fun x => pred x = false) l1 -> pred e = true ->
  findIf pred (l1 ++ e :: l2) = Some (List.length l1).
Proof.
  induction 1 as [|x l1 Hx Hl1 IH]; simpl; intros He.
  - now rewrite He.
  - rewrite Hx, IH by assumption. reflexivity.
Qed.

Lemma findIf_Some {A} (pred : A -> bool) l i :
  findIf pred l = Some i ->
  exists l1 e l2, l = l1 ++ e :: l2 /\ List.length l1 = i
    /\ pred e = true /\ Forall (fun x => pred x = false) l1.
Proof.
  revert i. induction l as [|x l IH]; simpl; intros i; [discriminate|].
  destruct (pred x) eqn:E.
  - intros H. injection H as <-. exists [], x, l. repeat split; auto.
  - destruct (findIf pred l) as [j|]; simpl; [|discriminate].
    intros H. injection H as <-.
    destruct (IH j eq_refl) as (l1 & e & l2 & -> & <- & He & Hl1).
    exists (x :: l1), e, l2. repeat split; auto.
Qed.

Lemma matches_pred currentContextId objectSharedPtr obj :
  (contextId obj =? currentContextId) && (object obj =? objectSharedPtr) = true
  <-> matches currentContextId objectSharedPtr obj.
Proof.
  unfold matches. rewrite andb_true_iff, !N.eqb_eq. reflexivity.
Qed.

Lemma not_matches_pred currentContextId objectSharedPtr obj :
  (contextId obj =? currentContextId) && (object obj =? objectSharedPtr) = false
  <-> ~ matches currentContextId objectSharedPtr obj.
Proof.
  rewrite <- matches_pred. now destruct (_ && _).
Qed.

(** The steps of [cleanupUnsharedResources]: the activation, the erasure
    (after which the world is [w2]) and the restoring call. *)
Lemma cleanup_steps t C gc w :
  exists b1 w1 w2,
    setActive t C gc true w = Some (b1, w1)
    /\ cleanupUnsharedResources t C gc w
       = match (if identity C =? GlContextImpl.id (currentContext w t)
                then None else GlContextImpl.ptr (currentContext w t)) with
         | Some r =>
             (ok' <- setActive t r gc true ;;
              if ok' then ret tt else logErr ErrCouldNotRestoreInCleanup) w2
         | None => Some (tt, w2)
         end
    /\ weakUnsharedGlObjects w2
       = option_map (fun so => {| use_count := use_count so;
                                  objects := eraseOwned (identity C) (objects so) |})
                    (weakUnsharedGlObjects w)
    /\ currentContext w2 = currentContext w1
    /\ transientContext w2 = transientContext w1
    /\ platform w2 = platform w1.
Proof.
  destruct (setActive_total t C gc true w) as (b1 & w1 & H1).
  pose proof (setActive_frame _ _ _ _ _ _ _ H1) as (Hreg & _).
  unfold cleanupUnsharedResources, identity.
  unfold bind at 1. unfold getCurrentContext at 1. cbv beta iota.
  unfold bind at 1. rewrite H1.
  exists b1, w1.
  destruct b1; unfold_monad; rewrite <- Hreg;
    destruct (weakUnsharedGlObjects w1) as [so|] eqn:Hso; simpl;
    eexists; (split; [reflexivity|]);
    (split; [destruct (Impl.id (m_impl C) =? GlContextImpl.id (currentContext w t));
             try destruct (GlContextImpl.ptr (currentContext w t)); reflexivity|]);
    simpl; repeat split; (reflexivity || assumption).
Qed.

(** C4: the cleanup of a context always returns, removes from the list
    exactly the entries recorded under the identity of that context, keeps
    every other entry in place, and a second cleanup removes nothing. *)
Theorem C4_cleanup_removes_owned (t : ThreadId) (C : GlContext) (gc : GraphicsContext)
    (w : World) :
  exists w',
    cleanupUnsharedResources t C gc w = Some (tt, w')
    /\ weakUnsharedGlObjects w'
       = option_map (fun so => {| use_count := use_count so;
                                  objects := List.filter
                                               (fun o => negb (contextId o =? identity C))
                                               (objects so) |})
                    (weakUnsharedGlObjects w)
    /\ (forall so so', weakUnsharedGlObjects w = Some so ->
          weakUnsharedGlObjects w' = Some so' ->
          forall o, In o (objects so')
                    <-> In o (objects so) /\ contextId o <> identity C)
    /\ (exists w'', cleanupUnsharedResources t C gc w' = Some (tt, w'')
          /\ weakUnsharedGlObjects w'' = weakUnsharedGlObjects w').
Proof.
  assert (Hrun : forall w0, exists w',
    cleanupUnsharedResources t C gc w0 = Some (tt, w')
    /\ weakUnsharedGlObjects w'
       = option_map (fun so => {| use_count := use_count so;
                                  objects := eraseOwned (identity C) (objects so) |})
                    (weakUnsharedGlObjects w0)).
  { intros w0.
    destruct (cleanup_steps t C gc w0) as (b1 & w1 & w2 & H1 & Hrun & Hreg & _).
    rewrite Hrun.
    destruct (if identity C =? _ then _ else _) as [r|]; [|eauto].
    destruct (setActive_total t r gc true w2) as (b2 & w3 & H2).
    pose proof (setActive_frame _ _ _ _ _ _ _ H2) as (Hreg2 & _).
    unfold bind at 1. rewrite H2.
    destruct b2; unfold_monad; eexists; (split; [reflexivity|]); simpl; congruence. }
  destruct (Hrun w) as (w' & Hw' & Hreg). exists w'.
  split; [assumption|]. split; [|split].
  - rewrite Hreg. destruct (weakUnsharedGlObjects w); simpl; [|reflexivity].
    now rewrite eraseOwned_filter.
  - intros so so' Hso Hso' o. rewrite Hreg, Hso in Hso'. simpl in Hso'.
    injection Hso' as <-. simpl. apply eraseOwned_In.
  - destruct (Hrun w') as (w'' & Hw'' & Hreg'). exists w''.
    split; [assumption|]. rewrite Hreg', Hreg.
    destruct (weakUnsharedGlObjects w); simpl; [|reflexivity].
    now rewrite eraseOwned_idempotent.
Qed.

(** C5: [unregisterUnsharedGlObject] always returns, writes no message and
    touches nothing but the list. It erases the first entry recorded under
    the identity that is active on the calling thread with the given
    handle, and only that entry; when no entry matches (in particular when
    the handle was recorded under another identity), or the list is gone,
    the state is left as it was. A registration followed by the
    unregistration of the same handle on the same thread adds one entry and
    removes one, so that the size of the list is what it was. *)
Theorem C5_unregister_first_match (t : ThreadId) (objectSharedPtr : N) (w : World) :
  exists w',
    unregisterUnsharedGlObject t objectSharedPtr w = Some (tt, w')
    /\ (currentContext w' = currentContext w
        /\ transientContext w' = transientContext w
        /\ atomicId w' = atomicId w
        /\ platform w' = platform w
        /\ err w' = err w)
    /\ (weakUnsharedGlObjects w = None -> w' = w)
    /\ (forall so, weakUnsharedGlObjects w = Some so ->
          (forall o, In o (objects so) ->
             ~ matches (GlContextImpl.id (currentContext w t)) objectSharedPtr o) ->
          w' = w)
    /\ (forall so l1 e l2, weakUnsharedGlObjects w = Some so ->
          objects so = l1 ++ e :: l2 ->
          matches (GlContextImpl.id (currentContext w t)) objectSharedPtr e ->
          (forall o, In o l1 ->
             ~ matches (GlContextImpl.id (currentContext w t)) objectSharedPtr o) ->
          weakUnsharedGlObjects w'
          = Some {| use_count := use_count so; objects := l1 ++ l2 |})
    /\ (exists w1 w2,
          registerUnsharedGlObject t objectSharedPtr w = Some (tt, w1)
          /\ unregisterUnsharedGlObject t objectSharedPtr w1 = Some (tt, w2)
          /\ currentContext w1 = currentContext w
          /\ option_map (fun so => List.length (objects so)) (weakUnsharedGlObjects w1)
             = option_map (fun so => S (List.length (objects so))) (weakUnsharedGlObjects w)
          /\ option_map (fun so => List.length (objects so)) (weakUnsharedGlObjects w2)
             = option_map (fun so => List.length (objects so)) (weakUnsharedGlObjects w)).
Proof.
  unfold unregisterUnsharedGlObject, registerUnsharedGlObject, getActiveContextId.
  unfold_monad. destruct (weakUnsharedGlObjects w) as [so|] eqn:Hso; simpl.
  - set (pred := fun obj => (contextId obj =? GlContextImpl.id (currentContext w t))
                            && (object obj =? objectSharedPtr)).
    destruct (findIf pred (objects so)) as [i|] eqn:Hfind.
    + eexists. split; [reflexivity|]. simpl. split; [repeat split|].
      split; [discriminate|]. split; [|split].
      * intros so0 Hso0 Hnone. injection Hso0 as <-.
        apply findIf_Some in Hfind as (l1 & e & l2 & Hl & _ & He & _).
        exfalso. apply (Hnone e).
        -- rewrite Hl. apply in_or_app. right. now left.
        -- now apply matches_pred.
      * intros so0 l1 e l2 Hso0 Hl He Hl1. injection Hso0 as <-.
        rewrite Hl in Hfind. rewrite findIf_first in Hfind.
        -- injection Hfind as <-. rewrite Hl, delete_middle. reflexivity.
        -- apply List.Forall_forall. intros o Ho. apply not_matches_pred. now apply Hl1.
        -- now apply matches_pred.
      * pose (x := {| contextId := GlContextImpl.id (currentContext w t);
                      object := objectSharedPtr |}).
        destruct (findIf pred (objects so ++ [x])) as [j|] eqn:Hfind'.
        -- eexists. eexists. split; [reflexivity|]. simpl. fold pred. fold x.
           rewrite Hfind'. split; [reflexivity|]. simpl.
           split; [reflexivity|]. split.
           ++ now rewrite length_app, Nat.add_1_r.
           ++ apply findIf_Some in Hfind' as (l1 & e & l2 & Hl & <- & _).
              rewrite Hl, delete_middle. f_equal.
              apply (f_equal (@List.length _)) in Hl.
              rewrite !length_app in Hl. simpl in Hl. rewrite length_app. lia.
        -- apply findIf_None in Hfind'. apply Forall_app in Hfind' as [_ Hx].
           inversion Hx as [|? ? Hpx _]; subst. unfold pred, x in Hpx. simpl in Hpx.
           rewrite !N.eqb_refl in Hpx. discriminate.
    + eexists. split; [reflexivity|]. split; [repeat split|].
      split; [reflexivity|]. split; [reflexivity|]. split.
      * intros so0 l1 e l2 Hso0 Hl He Hl1. injection Hso0 as <-.
        rewrite Hl in Hfind. rewrite findIf_first in Hfind; [discriminate| |].
        -- apply List.Forall_forall. intros o Ho. apply not_matches_pred. now apply Hl1.
        -- now apply matches_pred.
      * pose (x := {| contextId := GlContextImpl.id (currentContext w t);
                      object := objectSharedPtr |}).
        destruct (findIf pred (objects so ++ [x])) as [j|] eqn:Hfind'.
        -- eexists. eexists. split; [reflexivity|]. simpl. fold pred. fold x.
           rewrite Hfind'. split; [reflexivity|]. simpl.
           split; [reflexivity|]. split.
           ++ now rewrite length_app, Nat.add_1_r.
           ++ apply findIf_Some in Hfind' as (l1 & e & l2 & Hl & <- & _).
              rewrite Hl, delete_middle. f_equal.
              apply (f_equal (@List.length _)) in Hl.
              rewrite !length_app in Hl. simpl in Hl. rewrite length_app. lia.
        -- apply findIf_None in Hfind'. apply Forall_app in Hfind' as [_ Hx].
           inversion Hx as [|? ? Hpx _]; subst. unfold pred, x in Hpx. simpl in Hpx.
           rewrite !N.eqb_refl in Hpx. discriminate.
  - eexists. split; [reflexivity|]. split; [repeat split|].
    split; [reflexivity|]. split; [discriminate|]. split; [discriminate|].
    eexists. eexists. rewrite Hso. simpl. rewrite Hso. repeat split; reflexivity.
Qed.

(** ** The context of the caller across a cleanup *)

Lemma cleanup_restores t C R gc w :
  GlContextImpl.ptr (currentContext w t) = Some R ->
  GlContextImpl.id (currentContext w t) = identity R ->
  identity R <> identity C ->
  makeCurrentSucceeds R true ->
  exists w', cleanupUnsharedResources t C gc w = Some (tt, w')
    /\ GlContextImpl.id (currentContext w' t) = identity R
    /\ GlContextImpl.ptr (currentContext w' t) = Some R.
Proof.
  intros Hptr Hid Hne Hmc.
  destruct (cleanup_steps t C gc w) as (b1 & w1 & w2 & H1 & Hrun & _ & Hcc2 & _ & _).
  rewrite Hrun, Hid, Hptr.
  destruct (N.eqb_spec (identity C) (identity R)) as [E|_]; [congruence|].
  destruct (setActive_total t R gc true w2) as (b2 & w3 & H2).
  unfold bind at 1. rewrite H2.
  destruct (setActive_true_record _ _ _ _ _ _ H2)
    as [(-> & Hid3 & Hptr3 & Hsame) | (-> & _ & Hfail & _)].
  - unfold ret. eexists. split; [reflexivity|]. split; [assumption|].
    destruct (N.eq_dec (GlContextImpl.id (currentContext w2 t)) (identity R)) as [E|E].
    + rewrite (Hsame E), Hcc2.
      destruct (setActive_true_record _ _ _ _ _ _ H1)
        as [(_ & Hid1 & _) | (_ & _ & _ & Hcc1)].
      * rewrite Hcc2, Hid1 in E. congruence.
      * now rewrite Hcc1.
    + now apply Hptr3.
  - rewrite (Hmc (platform w2)) in Hfail. discriminate.
Qed.

(** C10, as the code has it: when a context [R] other than the one being
    cleaned up is active on the calling thread and the platform makes [R]
    current when asked, [R] is the active context of the thread again after
    the cleanup. Under that condition on the platform the thread holds the
    cleaned-up context afterwards only if that context, or none, was active
    before. When that context, or none, was active before, no restoring
    call is made and the thread keeps what the activation left. *)
Theorem C10_cleanup_restores_caller (t : ThreadId) (C R : GlContext)
    (gc : GraphicsContext) (w : World) :
  (GlContextImpl.ptr (currentContext w t) = Some R ->
   GlContextImpl.id (currentContext w t) = identity R ->
   identity R <> identity C ->
   makeCurrentSucceeds R true ->
   exists w', cleanupUnsharedResources t C gc w = Some (tt, w')
     /\ GlContextImpl.id (currentContext w' t) = identity R
     /\ GlContextImpl.ptr (currentContext w' t) = Some R)
  /\ (consistent (currentContext w t) ->
      (forall r, GlContextImpl.ptr (currentContext w t) = Some r ->
                 makeCurrentSucceeds r true) ->
      forall w', cleanupUnsharedResources t C gc w = Some (tt, w') ->
        GlContextImpl.id (currentContext w' t) = identity C ->
        GlContextImpl.id (currentContext w t) = identity C
        \/ GlContextImpl.ptr (currentContext w t) = None)
  /\ (GlContextImpl.id (currentContext w t) = identity C
      \/ GlContextImpl.ptr (currentContext w t) = None ->
      exists b1 w1 w',
        setActive t C gc true w = Some (b1, w1)
        /\ cleanupUnsharedResources t C gc w = Some (tt, w')
        /\ currentContext w' = currentContext w1).
Proof.
  split; [apply cleanup_restores|]. split.
  - intros Hcons Hmc w' Hrun Hfinal.
    destruct (N.eq_dec (GlContextImpl.id (currentContext w t)) (identity C)) as [E|E];
      [now left|].
    destruct (GlContextImpl.ptr (currentContext w t)) as [r|] eqn:Hptr; [|now right].
    exfalso. unfold consistent in Hcons. rewrite Hptr in Hcons.
    destruct (cleanup_restores t C r gc w Hptr Hcons) as (w'' & Hrun' & Hid' & _).
    + congruence.
    + now apply Hmc.
    + rewrite Hrun in Hrun'. injection Hrun' as <-. congruence.
  - intros Hnone.
    destruct (cleanup_steps t C gc w) as (b1 & w1 & w2 & H1 & Hrun & _ & Hcc2 & _ & _).
    exists b1, w1, w2. split; [assumption|]. split; [|assumption].
    rewrite Hrun. destruct Hnone as [E|E].
    + rewrite E, N.eqb_refl. reflexivity.
    + rewrite E. now destruct (_ =? _).
Qed.

(** ** Identities *)

Lemma GlContext_ctor_spec settings w :
  exists w', GlContext_ctor settings w
             = Some (({| m_impl := {| Impl.id := atomicId w |} |}, settings), w')
    /\ atomicId w' = (atomicId w + 1) mod uint64_modulus.
Proof.
  unfold GlContext_ctor, Impl_ctor. unfold_monad. simpl.
  eexists. split; reflexivity.
Qed.

Lemma GlContext_dtor_spec t c w :
  exists w', GlContext_dtor t c w = Some (tt, w') /\ atomicId w' = atomicId w.
Proof.
  unfold GlContext_dtor, Impl_dtor. unfold_monad.
  destruct (Impl.id (m_impl c) =? GlContextImpl.id (currentContext w t)); simpl;
    destruct (weakUnsharedGlObjects w) as [[[|[|n]] l]|]; simpl;
    eexists; split; reflexivity.
Qed.

(** The identities a run issues are the successive values of the counter. *)
Lemma run_identities es : forall w,
  atomicId w < uint64_modulus ->
  exists cs w', run es w = Some (cs, w')
    /\ List.map identity cs
       = List.map (fun k => (atomicId w + N.of_nat k) mod uint64_modulus)
                  (seq 0 (constructions es)).
Proof.
  induction es as [|[t settings|t c] es IH]; intros w Hw.
  - exists [], w. split; reflexivity.
  - destruct (GlContext_ctor_spec settings w) as (w1 & Hctor & Hid1).
    destruct (IH w1) as (cs & w' & Hrun & Hids).
    { rewrite Hid1. apply N.mod_lt. discriminate. }
    exists ({| m_impl := {| Impl.id := atomicId w |} |} :: cs), w'.
    simpl run. unfold bind at 1. rewrite Hctor. unfold bind at 1. rewrite Hrun.
    split; [reflexivity|].
    unfold constructions in *. simpl List.filter. simpl List.length.
    simpl seq. simpl List.map. f_equal.
    + unfold identity. simpl. rewrite N.add_0_r. symmetry. now apply N.mod_small.
    + rewrite Hids, <- seq_shift, List.map_map. apply List.map_ext. intros k.
      rewrite Hid1, N.Div0.add_mod_idemp_l. f_equal. lia.
  - destruct (GlContext_dtor_spec t c w) as (w1 & Hdtor & Hid1).
    destruct (IH w1) as (cs & w' & Hrun & Hids); [congruence|].
    exists cs, w'. simpl run. unfold bind at 1. rewrite Hdtor.
    split; [assumption|]. rewrite Hids, Hid1. reflexivity.
Qed.

Lemma constructions_repeat t settings n :
  constructions (repeat (Construct t settings) n) = n.
Proof.
  unfold constructions. induction n as [|n IH]; simpl; [reflexivity|].
  now rewrite IH.
Qed.

Lemma nth_error_map_seq {A} (f : nat -> A) n k :
  (k < n)%nat -> nth_error (List.map f (seq 0 n)) k = Some (f k).
Proof.
  intros Hk. rewrite nth_error_map, nth_error_seq.
  destruct (Nat.ltb_spec k n); [reflexivity | lia].
Qed.

Lemma StronglySorted_map_seq a s n :
  StronglySorted N.lt (List.map (fun k => a + N.of_nat k) (seq s n)).
Proof.
  revert s. induction n as [|n IH]; intros s; simpl; constructor; [apply IH|].
  apply List.Forall_forall. intros x Hx. apply in_map_iff in Hx as (k & <- & Hk).
  apply in_seq in Hk. lia.
Qed.

Lemma StronglySorted_lt_NoDup l : StronglySorted N.lt l -> List.NoDup l.
Proof.
  induction 1 as [|x l Hl IH Hx]; constructor; [|assumption].
  intros Hin. rewrite List.Forall_forall in Hx. specialize (Hx x Hin). lia.
Qed.

(** When the counter wraps the run issues 0. *)
Lemma run_wraps n t settings p :
  N.of_nat n = uint64_modulus ->
  exists cs w', run (repeat (Construct t settings) n) (initialWorld p) = Some (cs, w')
    /\ nth_error (List.map identity cs) 0 = Some 1
    /\ nth_error (List.map identity cs) (Nat.pred n) = Some 0.
Proof.
  intros Hn.
  assert (HM : 2 <= uint64_modulus) by (unfold uint64_modulus; now apply N.leb_le).
  destruct (run_identities (repeat (Construct t settings) n) (initialWorld p))
    as (cs & w' & Hrun & Hids).
  { simpl. lia. }
  exists cs, w'. split; [assumption|]. rewrite Hids, constructions_repeat. simpl atomicId.
  split.
  - rewrite nth_error_map_seq by lia. reflexivity.
  - rewrite nth_error_map_seq by lia. f_equal.
    replace (1 + N.of_nat (Nat.pred n)) with uint64_modulus by lia.
    apply N.Div0.mod_same.
Qed.

(** C1, as the code has it: identities come from one counter that starts
    at 1 and counts modulo 2^64; as long as fewer
    than 2^64 contexts have been constructed, whatever the threads and
    whatever is destroyed in between, the identities issued are 1, 2, 3, ...
    in the order of construction: strictly increasing, never 0 and never
    issued twice. *)
Theorem C1_identities_increasing (p : P) (es : list Event) :
  N.of_nat (constructions es) < uint64_modulus ->
  exists cs w', run es (initialWorld p) = Some (cs, w')
    /\ List.map identity cs
       = List.map (fun k => 1 + N.of_nat k) (seq 0 (constructions es))
    /\ StronglySorted N.lt (List.map identity cs)
    /\ List.Forall (fun i => i <> 0) (List.map identity cs)
    /\ List.NoDup (List.map identity cs).
Proof.
  intros Hn.
  destruct (run_identities es (initialWorld p)) as (cs & w' & Hrun & Hids);
    [reflexivity|].
  assert (Hids' : List.map identity cs
                  = List.map (fun k => 1 + N.of_nat k) (seq 0 (constructions es))).
  { rewrite Hids. apply List.map_ext_in. intros k Hk. apply in_seq in Hk.
    simpl atomicId. apply N.mod_small. lia. }
  exists cs, w'. split; [assumption|]. split; [assumption|].
  rewrite Hids'. split; [apply StronglySorted_map_seq|]. split.
  - apply List.Forall_forall. intros i Hi.
    apply in_map_iff in Hi as (k & <- & _). lia.
  - apply StronglySorted_lt_NoDup, StronglySorted_map_seq.
Qed.

(** ** Transient activation *)

Lemma withTransientCount_same cc :
  withTransientCount cc (GlContextImpl.transientCount cc) = cc.
Proof. now destruct cc. Qed.

Lemma onlyThread_refl t w : onlyThread t w w.
Proof. unfold onlyThread. auto. Qed.

Lemma onlyThread_trans t w1 w2 w3 :
  onlyThread t w1 w2 -> onlyThread t w2 w3 -> onlyThread t w1 w3.
Proof.
  unfold onlyThread. intros (H1 & A1 & B1 & C1) (H2 & A2 & B2 & C2).
  repeat split; try congruence.
  - rewrite (proj1 (H2 t' H)). apply H1, H.
  - rewrite (proj2 (H2 t' H)). apply H1, H.
Qed.

(** The fast path of [acquireTransientContext]. *)
Lemma acquire_fast t gc w :
  GlContextImpl.id (currentContext w t) <> 0 ->
  exists w', acquireTransientContext t gc w = Some (tt, w')
    /\ currentContext w' t
       = withTransientCount (currentContext w t)
           (uint_add (GlContextImpl.transientCount (currentContext w t)) 1)
    /\ transientContext w' = transientContext w
    /\ platform w' = platform w
    /\ onlyThread t w w'.
Proof.
  intros Hid. apply N.eqb_neq in Hid.
  unfold acquireTransientContext. unfold_monad. rewrite Hid. simpl.
  eexists. split; [reflexivity|]. simpl. rewrite update_eq.
  repeat split; try reflexivity. simpl. now apply update_neq.
Qed.

(** The fast path of [releaseTransientContext]. *)
Lemma release_fast t w :
  GlContextImpl.id (currentContext w t) <> 0 ->
  0 < GlContextImpl.transientCount (currentContext w t) ->
  exists w', releaseTransientContext t w = Some (tt, w')
    /\ currentContext w' t
       = withTransientCount (currentContext w t)
           (GlContextImpl.transientCount (currentContext w t) - 1)
    /\ transientContext w' = transientContext w
    /\ platform w' = platform w
    /\ onlyThread t w w'.
Proof.
  intros Hid Hcount. apply N.eqb_neq in Hid. apply N.ltb_lt in Hcount.
  unfold releaseTransientContext. unfold_monad. rewrite Hid, Hcount.
  rewrite orb_true_r. simpl.
  eexists. split; [reflexivity|]. simpl. rewrite update_eq.
  repeat split; try reflexivity. simpl. now apply update_neq.
Qed.

Lemma acquire_fast_n t gc n : forall w,
  GlContextImpl.id (currentContext w t) <> 0 ->
  GlContextImpl.transientCount (currentContext w t) + N.of_nat n < uint_modulus ->
  exists w', repeatM n (acquireTransientContext t gc) w = Some (tt, w')
    /\ currentContext w' t
       = withTransientCount (currentContext w t)
           (GlContextImpl.transientCount (currentContext w t) + N.of_nat n)
    /\ transientContext w' = transientContext w
    /\ platform w' = platform w
    /\ onlyThread t w w'.
Proof.
  induction n as [|n IH]; intros w Hid Hn.
  - exists w. simpl. rewrite N.add_0_r, withTransientCount_same.
    repeat split; reflexivity.
  - destruct (acquire_fast t gc w Hid) as (w1 & Hacq & Hcc1 & Htc1 & Hp1 & Hfr1).
    destruct (IH w1) as (w' & Hrep & Hcc' & Htc' & Hp' & Hfr').
    { now rewrite Hcc1. }
    { rewrite Hcc1. simpl. unfold uint_add. rewrite N.mod_small; lia. }
    exists w'. simpl. unfold bind. rewrite Hacq. split; [assumption|].
    split; [|split; [congruence|split; [congruence|eapply onlyThread_trans; eassumption]]].
    rewrite Hcc', Hcc1. unfold withTransientCount, uint_add. simpl.
    rewrite N.mod_small by lia. f_equal. lia.
Qed.

Lemma release_fast_n t n : forall w,
  GlContextImpl.id (currentContext w t) <> 0 ->
  N.of_nat n <= GlContextImpl.transientCount (currentContext w t) ->
  exists w', repeatM n (releaseTransientContext t) w = Some (tt, w')
    /\ currentContext w' t
       = withTransientCount (currentContext w t)
           (GlContextImpl.transientCount (currentContext w t) - N.of_nat n)
    /\ transientContext w' = transientContext w
    /\ platform w' = platform w
    /\ onlyThread t w w'.
Proof.
  induction n as [|n IH]; intros w Hid Hn.
  - exists w. simpl. rewrite N.sub_0_r, withTransientCount_same.
    repeat split; reflexivity.
  - destruct (release_fast t w Hid) as (w1 & Hrel & Hcc1 & Htc1 & Hp1 & Hfr1); [lia|].
    destruct (IH w1) as (w' & Hrep & Hcc' & Htc' & Hp' & Hfr').
    { now rewrite Hcc1. }
    { rewrite Hcc1. simpl. lia. }
    exists w'. simpl. unfold bind. rewrite Hrel. split; [assumption|].
    split; [|split; [congruence|split; [congruence|eapply onlyThread_trans; eassumption]]].
    rewrite Hcc', Hcc1. unfold withTransientCount. simpl. f_equal. lia.
Qed.

Lemma repeatM_snoc n (m : M unit) : forall w,
  repeatM (S n) m w = (repeatM n m ;;; m) w.
Proof.
  induction n as [|n IH]; intros w.
  - simpl. unfold bind, ret. destruct (m w) as [[[] w1]|]; reflexivity.
  - cbn [repeatM]. unfold bind.
    destruct (m w) as [[[] w1]|]; [|reflexivity].
    exact (IH w1).
Qed.

(** The slow path of [acquireTransientContext]: the shared context becomes
    the active context of the thread. *)
Lemma acquire_slow t gc w :
  GlContextImpl.id (currentContext w t) = 0 ->
  GlContextImpl.transientCount (currentContext w t) = 0 ->
  sharedContextUsable t gc w ->
  exists w', acquireTransientContext t gc w = Some (tt, w')
    /\ currentContext w' t
       = {| GlContextImpl.id := identity (sharedContext gc);
            GlContextImpl.ptr := Some (sharedContext gc);
            GlContextImpl.transientCount := 0 |}
    /\ transientContext w' t
       = Some {| graphicsContext := gc; sharedContextLock := true |}
    /\ onlyThread t w w'.
Proof.
  intros Hid Hcount (_ & Htc & Hsid & Hon & _).
  specialize (Hon (platform w)).
  unfold acquireTransientContext, TransientContext_emplace, TransientContext_reset,
    TransientContext_ctor, hasActiveContext, getActiveContextId,
    GraphicsContext_setActive, setActive, identity in *.
  unfold_monad.
  assert (Hne : (Impl.id (m_impl (sharedContext gc)) =? 0) = false)
    by now apply N.eqb_neq.
  destruct (makeCurrent (sharedContext gc) true (platform w)) as [b p'] eqn:Hmc.
  simpl in Hon. subst b.
  repeat (rewrite ?orb_true_r, ?Htc, ?Hid, ?Hcount, ?Hne, ?Hmc, ?update_eq; simpl).
  eexists. split; [reflexivity|]. simpl. rewrite !update_eq.
  repeat split; try reflexivity; simpl; now apply update_neq.
Qed.

(** The slow path of [releaseTransientContext]: the transient context of
    the thread is destroyed and the shared context deactivated. *)
Lemma release_slow t gc w :
  GlContextImpl.id (currentContext w t) = identity (sharedContext gc) ->
  identity (sharedContext gc) <> 0 ->
  GlContextImpl.transientCount (currentContext w t) = 0 ->
  transientContext w t = Some {| graphicsContext := gc; sharedContextLock := true |} ->
  makeCurrentSucceeds (sharedContext gc) false ->
  exists w', releaseTransientContext t w = Some (tt, w')
    /\ currentContext w' t
       = {| GlContextImpl.id := 0;
            GlContextImpl.ptr := None;
            GlContextImpl.transientCount := 0 |}
    /\ transientContext w' t = None
    /\ onlyThread t w w'.
Proof.
  intros Hid Hsid Hcount Htc Hoff.
  specialize (Hoff (platform w)).
  unfold releaseTransientContext, TransientContext_reset, TransientContext_dtor,
    GraphicsContext_setActive, setActive, identity in *.
  unfold_monad.
  assert (Hne : (Impl.id (m_impl (sharedContext gc)) =? 0) = false)
    by now apply N.eqb_neq.
  destruct (makeCurrent (sharedContext gc) false (platform w)) as [b p'] eqn:Hmc.
  simpl in Hoff. subst b.
  repeat (rewrite ?orb_true_r, ?Htc, ?Hid, ?Hcount, ?Hne, ?Hmc, ?update_eq, ?N.eqb_refl;
          simpl).
  eexists. split; [reflexivity|]. simpl. rewrite !update_eq.
  repeat split; try reflexivity; simpl; now apply update_neq.
Qed.

(** C3, as the code has it: on a thread whose nesting count is 0, [n]
    acquisitions followed by [n] releases, for [n] below 2^32, return and
    leave the records of the thread (active identity, pointer, nesting
    count, transient context) as they were, and those of the other threads,
    the counter of identities, the list of unshared objects and [err()]
    untouched; when no context is active at the start this relies on the
    shared context being usable, that is, on the platform making it
    current and not current when asked. An acquisition on a thread that
    has an active context adds one to its nesting count (modulo 2^32) and
    changes nothing else. *)
Theorem C3_transient_balanced (t : ThreadId) (gc : GraphicsContext) (n : nat) (w : World) :
  (GlContextImpl.transientCount (currentContext w t) = 0 ->
   N.of_nat n < uint_modulus ->
   (GlContextImpl.id (currentContext w t) = 0 -> sharedContextUsable t gc w) ->
   exists w', acquireThenRelease t gc n w = Some (tt, w')
     /\ currentContext w' t = currentContext w t
     /\ transientContext w' t = transientContext w t
     /\ onlyThread t w w')
  /\ (GlContextImpl.id (currentContext w t) <> 0 ->
      exists w', acquireTransientContext t gc w = Some (tt, w')
        /\ currentContext w' t
           = withTransientCount (currentContext w t)
               (uint_add (GlContextImpl.transientCount (currentContext w t)) 1)
        /\ transientContext w' = transientContext w
        /\ platform w' = platform w
        /\ onlyThread t w w').
Proof.
  split; [|apply acquire_fast].
  intros Hcount Hn Hshared. unfold acquireThenRelease.
  destruct (N.eq_dec (GlContextImpl.id (currentContext w t)) 0) as [Hid|Hid].
  - (* no context is active: the first acquisition and the last release
       take the slow path *)
    destruct n as [|m].
    { exists w. repeat split; reflexivity. }
    pose proof (Hshared Hid) as Husable.
    destruct Husable as (Hptr & Htc & Hsid & Hon & Hoff).
    destruct (acquire_slow t gc w Hid Hcount (Hshared Hid))
      as (w1 & Hacq & Hcc1 & Htc1 & Hfr1).
    destruct (acquire_fast_n t gc m w1) as (w2 & Hacqs & Hcc2 & Htc2 & _ & Hfr2).
    { now rewrite Hcc1. }
    { rewrite Hcc1. simpl. lia. }
    destruct (release_fast_n t m w2) as (w3 & Hrels & Hcc3 & Htc3 & _ & Hfr3).
    { now rewrite Hcc2, Hcc1. }
    { rewrite Hcc2, Hcc1. simpl. lia. }
    assert (Hcc3' : currentContext w3 t
                    = {| GlContextImpl.id := identity (sharedContext gc);
                         GlContextImpl.ptr := Some (sharedContext gc);
                         GlContextImpl.transientCount := 0 |}).
    { rewrite Hcc3, Hcc2, Hcc1. unfold withTransientCount. simpl. f_equal. lia. }
    destruct (release_slow t gc w3) as (w4 & Hrel & Hcc4 & Htc4 & Hfr4);
      try (rewrite Hcc3'; reflexivity); try assumption.
    { now rewrite Htc3, Htc2. }
    exists w4. split.
    + assert (Hacquired : repeatM (S m) (acquireTransientContext t gc) w = Some (tt, w2)).
      { cbn [repeatM]. unfold bind. now rewrite Hacq. }
      assert (Hreleased : repeatM (S m) (releaseTransientContext t) w2 = Some (tt, w4)).
      { rewrite repeatM_snoc. unfold bind. now rewrite Hrels. }
      unfold bind. now rewrite Hacquired.
    + split; [|split].
      * rewrite Hcc4. destruct (currentContext w t). simpl in *. now subst.
      * congruence.
      * repeat (eapply onlyThread_trans; [eassumption|]). apply onlyThread_refl.
  - (* a context is active: every call takes the fast path *)
    destruct (acquire_fast_n t gc n w Hid) as (w1 & Hacqs & Hcc1 & Htc1 & _ & Hfr1);
      [lia|].
    destruct (release_fast_n t n w1) as (w2 & Hrels & Hcc2 & Htc2 & _ & Hfr2).
    { now rewrite Hcc1. }
    { rewrite Hcc1. simpl. lia. }
    exists w2. split; [unfold bind; now rewrite Hacqs|]. split; [|split].
    + rewrite Hcc2, Hcc1. unfold withTransientCount. simpl.
      destruct (currentContext w t). simpl in *. subst. f_equal. lia.
    + congruence.
    + eapply onlyThread_trans; eassumption.
Qed.

(** The nesting count is an [unsigned int]: 2^32 acquisitions on a thread
    with an active context bring it back to 0, and in a debug build the
    release that follows aborts on its assertion when the thread has no
    transient context. *)
Lemma acquire_wraps t gc n w :
  GlContextImpl.id (currentContext w t) <> 0 ->
  GlContextImpl.transientCount (currentContext w t) = 0 ->
  N.of_nat n = uint_modulus ->
  exists w', repeatM n (acquireTransientContext t gc) w = Some (tt, w')
    /\ currentContext w' t = currentContext w t
    /\ transientContext w' = transientContext w.
Proof.
  intros Hid Hcount Hn.
  assert (HM : uint_modulus = 4294967296) by reflexivity.
  destruct n as [|m]; [simpl in Hn; lia|].
  destruct (acquire_fast_n t gc m w Hid) as (w1 & Hacqs & Hcc1 & Htc1 & _); [lia|].
  destruct (acquire_fast t gc w1) as (w2 & Hacq & Hcc2 & Htc2 & _).
  { now rewrite Hcc1. }
  exists w2. split.
  - rewrite repeatM_snoc. unfold bind. now rewrite Hacqs.
  - split; [|congruence].
    rewrite Hcc2, Hcc1. unfold withTransientCount, uint_add. simpl.
    rewrite Hcount.
    replace (0 + N.of_nat m + 1) with uint_modulus by lia.
    rewrite N.Div0.mod_same. destruct (currentContext w t). simpl in *. now subst.
Qed.

Lemma acquireThenRelease_overflow t gc n w :
  NDEBUG = false ->
  GlContextImpl.id (currentContext w t) <> 0 ->
  GlContextImpl.transientCount (currentContext w t) = 0 ->
  transientContext w t = None ->
  N.of_nat n = uint_modulus ->
  acquireThenRelease t gc n w = None.
Proof.
  intros Hdebug Hid Hcount Htc Hn.
  destruct (acquire_wraps t gc n w Hid Hcount Hn) as (w' & Hacqs & Hcc & Htc').
  unfold acquireThenRelease. unfold bind at 1. rewrite Hacqs.
  destruct n as [|m]; [discriminate Hn|].
  cbn [repeatM]. unfold bind at 1.
  replace (releaseTransientContext t w') with (@None (unit * World)); [reflexivity|].
  apply N.eqb_neq in Hid.
  unfold releaseTransientContext. unfold_monad.
  repeat (rewrite ?Hdebug, ?Hcc, ?Hid, ?Hcount, ?Htc', ?Htc; simpl).
  reflexivity.
Qed.

(** ** The two ways of initialize *)

Lemma functionsLoaded_test gl :
  negb (getFunction gl "glGetIntegerv") || negb (getFunction gl "glGetError")
  || negb (getFunction gl "glGetString") || negb (getFunction gl "glEnable")
  || negb (getFunction gl "glIsEnabled")
  = negb (functionsLoaded gl).
Proof.
  unfold functionsLoaded.
  destruct (getFunction gl "glGetIntegerv"), (getFunction gl "glGetError"),
    (getFunction gl "glGetString"), (getFunction gl "glEnable"),
    (getFunction gl "glIsEnabled"); reflexivity.
Qed.

(** The version detection always returns and only writes messages. *)
Lemma detectVersion_total gl w :
  exists v w', detectVersion gl w = Some (v, w')
    /\ (w' = w \/ exists d, w' = withErr w d).
Proof.
  unfold detectVersion. cbv zeta.
  destruct (negb (glGetError gl =? GL_INVALID_ENUM)).
  { eexists. eexists. split; [reflexivity | now left]. }
  destruct (glGetString gl GL_VERSION) as [version|].
  - destruct (parseVersion version) as [v|].
    + eexists. eexists. split; [reflexivity | now left].
    + eexists. eexists. split; [reflexivity|]. right. eexists. reflexivity.
  - eexists. eexists. split; [reflexivity|]. right. eexists. reflexivity.
Qed.

(** The two ways [initialize] goes, after the activation (which leaves
    [w0]) and its message (which leaves the first world below). *)
Lemma initialize_cases t this m_settings gc requestedSettings w :
  exists b0 w0 w1,
    setActive t this gc true w = Some (b0, w0)
    /\ w1 = (if b0 then w0 else withErr w0 ErrEnablingInInitialize)
    /\ ((functionsLoaded (driver (platform w1)) = false
         /\ initialize t this m_settings gc requestedSettings w
            = Some ((false, m_settings), withErr w1 ErrCouldNotLoadFunction))
        \/ (functionsLoaded (driver (platform w1)) = true
            /\ exists v w2,
                 detectVersion (driver (platform w1)) w1 = Some (v, w2)
                 /\ initialize t this m_settings gc requestedSettings w
                    = Some ((true,
                             {| depthBits := depthBits m_settings;
                                stencilBits := stencilBits m_settings;
                                antialiasingLevel :=
                                  if (0 <? antialiasingLevel requestedSettings)
                                     && (0 <? antialiasingLevel m_settings)
                                  then antialiasingLevel m_settings else 0;
                                majorVersion := fst v;
                                minorVersion := snd v;
                                attributeFlags :=
                                  detectAttributeFlags (driver (platform w1))
                                    (fst v) (snd v);
                                sRgbCapable :=
                                  sRgbCapable requestedSettings
                                  && sRgbCapable m_settings
                                  && glIsEnabled (driver (platform w1))
                                       GL_FRAMEBUFFER_SRGB |}),
                            if sRgbCapable requestedSettings
                               && sRgbCapable m_settings
                               && negb (glIsEnabled (driver (platform w1))
                                          GL_FRAMEBUFFER_SRGB)
                            then withErr w2 WarnFailedToEnableSRGB else w2))).
Proof.
  destruct (setActive_total t this gc true w) as (b0 & w0 & Hact).
  exists b0, w0, (if b0 then w0 else withErr w0 ErrEnablingInInitialize).
  split; [assumption|]. split; [reflexivity|].
  assert (Hlog : (if b0 then ret tt else logErr ErrEnablingInInitialize) w0
                 = Some (tt, if b0 then w0 else withErr w0 ErrEnablingInInitialize))
    by now destruct b0.
  set (w1 := if b0 then w0 else withErr w0 ErrEnablingInInitialize) in *.
  destruct (functionsLoaded (driver (platform w1))) eqn:Hfl; [right | left];
    (split; [reflexivity|]).
  - destruct (detectVersion_total (driver (platform w1)) w1) as (v & w2 & Hdv & _).
    exists v, w2. split; [assumption|].
    unfold initialize. unfold bind at 1. rewrite Hact.
    unfold bind at 1. rewrite Hlog.
    unfold bind at 1. unfold getDriver at 1.
    rewrite functionsLoaded_test, Hfl. change (negb true) with false. cbv iota.
    unfold bind at 1. rewrite Hdv. cbv zeta.
    destruct (sRgbCapable requestedSettings && sRgbCapable m_settings);
      [destruct (glIsEnabled (driver (platform w1)) GL_FRAMEBUFFER_SRGB)|];
      reflexivity.
  - unfold initialize. unfold bind at 1. rewrite Hact.
    unfold bind at 1. rewrite Hlog.
    unfold bind at 1. unfold getDriver at 1.
    rewrite functionsLoaded_test, Hfl. reflexivity.
Qed.

Lemma withErr_platform w d : platform (withErr w d) = platform w.
Proof. reflexivity. Qed.

(** ** The settings check *)

Lemma versionNumber_fits s :
  versionFitsInt s ->
  versionNumber s = Z.of_N (majorVersion s * 10 + minorVersion s).
Proof.
  unfold versionFitsInt, versionNumber, to_int, uint_add, uint_mul, uint_modulus.
  intros H.
  assert (H32 : majorVersion s * 10 + minorVersion s < 2 ^ 32).
  { eapply N.lt_trans; [exact H|]. reflexivity. }
  rewrite N.Div0.add_mod_idemp_l, N.Div0.mod_mod.
  rewrite (N.mod_small _ _ H32).
  destruct (Z.ltb_spec (Z.of_N (majorVersion s * 10 + minorVersion s)) (2 ^ 31));
    [reflexivity|].
  change (2 ^ 31)%Z with (Z.of_N (2 ^ 31)) in *. lia.
Qed.

Lemma versionLower_number created requested :
  minorVersion created < 10 ->
  versionFitsInt created -> versionFitsInt requested ->
  versionLower created requested ->
  (versionNumber created <? versionNumber requested)%Z = true.
Proof.
  intros Hminor Hc Hr Hlower.
  rewrite (versionNumber_fits _ Hc), (versionNumber_fits _ Hr).
  apply Z.ltb_lt. unfold versionLower in Hlower. lia.
Qed.

Lemma flagMissing_differs flag created requested :
  flagMissing flag created requested ->
  (attributeFlags created =? attributeFlags requested) = false.
Proof.
  intros [Hreq Hcre]. apply N.eqb_neq. intros E. rewrite E in Hcre. contradiction.
Qed.

Lemma weaker_settingsNotMet created requested :
  minorVersion created < 10 ->
  versionFitsInt created -> versionFitsInt requested ->
  weakerThanRequested created requested ->
  settingsNotMet created requested = true.
Proof.
  intros Hminor Hc Hr Hweaker. unfold settingsNotMet.
  destruct Hweaker as [H|[H|[H|[H|[H|[H|[H1 H2]]]]]]].
  - rewrite (versionLower_number _ _ Hminor Hc Hr H). now rewrite !orb_true_r.
  - apply N.ltb_lt in H. rewrite H. now rewrite !orb_true_r.
  - apply N.ltb_lt in H. rewrite H. now rewrite !orb_true_r.
  - apply N.ltb_lt in H. rewrite H. now rewrite !orb_true_r.
  - now rewrite (flagMissing_differs _ _ _ H).
  - now rewrite (flagMissing_differs _ _ _ H).
  - rewrite H1, H2. now rewrite !orb_true_r.
Qed.

(** [create] is [createAndInitialize] followed by the test of the result
    of [initialize] and the settings check. *)
Lemma create_steps t gc settings args w :
  create t gc settings args w
  = match createAndInitialize t gc settings args w with
    | Some ((context, r), w1) =>
        if negb (fst r)
        then (logErr ErrCouldNotInitializeInCreate ;;;
              GlContext_dtor t context ;;; ret None) w1
        else (checkSettings (snd r) settings ;;; ret (Some (context, snd r))) w1
    | None => None
    end.
Proof.
  unfold create, createAndInitialize, bind.
  destruct (GraphicsContext_setActive t gc true w) as [[ok w1]|]; [|reflexivity].
  destruct ((if ok then ret tt else logErr ErrEnablingSharedInCreate) w1)
    as [[[] w2]|]; [|reflexivity].
  destruct (callMakeContextType args settings w2) as [[context w3]|]; [|reflexivity].
  destruct (GraphicsContext_setActive t gc false w3) as [[ok' w4]|]; [|reflexivity].
  destruct ((if ok' then ret tt else logErr ErrDisablingSharedInCreate) w4)
    as [[[] w5]|]; [|reflexivity].
  destruct (initialize t (fst context) (snd context) gc settings w5)
    as [[[[] s'] w6]|]; reflexivity.
Qed.

(** *** What is written besides the settings warning *)

Lemma settingsWarnings_withErr w d :
  settingsWarnings (withErr w d)
  = (settingsWarnings w + (if isSettingsWarning d then 1 else 0))%nat.
Proof.
  unfold settingsWarnings, withErr. simpl.
  rewrite List.filter_app, List.length_app. simpl.
  destruct (isSettingsWarning d); reflexivity.
Qed.

Lemma noSettingsWarning_refl w : noSettingsWarning w w.
Proof. reflexivity. Qed.

Lemma noSettingsWarning_trans w1 w2 w3 :
  noSettingsWarning w1 w2 -> noSettingsWarning w2 w3 -> noSettingsWarning w1 w3.
Proof. unfold noSettingsWarning. congruence. Qed.

Lemma noSettingsWarning_err w w' : err w' = err w -> noSettingsWarning w w'.
Proof. unfold noSettingsWarning, settingsWarnings. now intros ->. Qed.

Lemma quiet_assert c : preserves noSettingsWarning (assert c).
Proof.
  intros w a w' H. apply assert_Some in H as ->. apply noSettingsWarning_refl.
Qed.

Lemma quiet_logErr d :
  isSettingsWarning d = false -> preserves noSettingsWarning (logErr d).
Proof.
  intros Hd w a w' H. inversion H; subst.
  unfold noSettingsWarning. fold (withErr w d).
  rewrite settingsWarnings_withErr, Hd. lia.
Qed.

Lemma quiet_getCurrentContext t : preserves noSettingsWarning (getCurrentContext t).
Proof. intros w a w' H. inversion H; subst. apply noSettingsWarning_refl. Qed.

Lemma quiet_setCurrentContext t cc :
  preserves noSettingsWarning (setCurrentContext t cc).
Proof. intros w a w' H. inversion H; subst. now apply noSettingsWarning_err. Qed.

Lemma quiet_getUnsharedGlObjects : preserves noSettingsWarning getUnsharedGlObjects.
Proof. intros w a w' H. inversion H; subst. apply noSettingsWarning_refl. Qed.

Lemma quiet_setUnsharedGlObjects s :
  preserves noSettingsWarning (setUnsharedGlObjects s).
Proof. intros w a w' H. inversion H; subst. now apply noSettingsWarning_err. Qed.

Lemma quiet_callMakeCurrent this active :
  preserves noSettingsWarning (callMakeCurrent this active).
Proof. intros w a w' H. inversion H; subst. now apply noSettingsWarning_err. Qed.

Lemma quiet_fetch_add_atomicId : preserves noSettingsWarning fetch_add_atomicId.
Proof. intros w a w' H. inversion H; subst. now apply noSettingsWarning_err. Qed.

Lemma quiet_getDriver : preserves noSettingsWarning getDriver.
Proof. intros w a w' H. inversion H; subst. apply noSettingsWarning_refl. Qed.

Ltac quiet_step :=
  first
    [ apply preserves_ret; apply noSettingsWarning_refl
    | apply quiet_assert
    | apply quiet_logErr; reflexivity
    | apply quiet_getCurrentContext
    | apply quiet_setCurrentContext
    | apply quiet_getUnsharedGlObjects
    | apply quiet_setUnsharedGlObjects
    | apply quiet_callMakeCurrent
    | apply quiet_fetch_add_atomicId
    | apply quiet_getDriver
    | assumption
    | progress cbv zeta
    | apply preserves_bind; [apply noSettingsWarning_trans | | intros ?]
    | match goal with
      | |- preserves _ (if ?b then _ else _) => destruct b
      | |- preserves _ (match ?o with Some _ => _ | None => _ end) => destruct o
      end ].

Lemma quiet_setActive t this gc active :
  preserves noSettingsWarning (setActive t this gc active).
Proof. unfold setActive. repeat quiet_step. Qed.

Lemma quiet_callMakeContextType args settings :
  preserves noSettingsWarning (callMakeContextType args settings).
Proof.
  unfold callMakeContextType, GlContext_ctor, Impl_ctor.
  apply preserves_bind; [apply noSettingsWarning_trans | repeat quiet_step |].
  intros c w a w' H. inversion H; subst. now apply noSettingsWarning_err.
Qed.

Lemma quiet_initialize t this m_settings gc requestedSettings :
  preserves noSettingsWarning (initialize t this m_settings gc requestedSettings).
Proof.
  pose proof (quiet_setActive t this gc true) as Hactive.
  unfold initialize, detectVersion. repeat quiet_step.
Qed.

Lemma quiet_GlContext_dtor t this : preserves noSettingsWarning (GlContext_dtor t this).
Proof.
  unfold GlContext_dtor, Impl_dtor. repeat quiet_step.
  destruct (use_count _) as [|[|n]]; repeat quiet_step.
Qed.

Lemma quiet_createAndInitialize t gc settings args :
  preserves noSettingsWarning (createAndInitialize t gc settings args).
Proof.
  pose proof (quiet_setActive t (sharedContext gc) gc) as Hshared.
  pose proof (quiet_callMakeContextType args settings) as Hmake.
  pose proof (fun this m_settings => quiet_initialize t this m_settings gc settings)
    as Hinit.
  unfold createAndInitialize, GraphicsContext_setActive.
  repeat first [apply Hshared | apply Hinit | quiet_step].
Qed.

(** The warnings of the settings check a whole creation writes: one when
    the check finds the created settings short, none otherwise, and none
    when the creation fails. *)
Lemma create_settingsWarnings t gc requested args w0 r w' :
  create t gc requested args w0 = Some (r, w') ->
  settingsWarnings w'
  = (settingsWarnings w0
     + match r with
       | Some (_, created) => if settingsNotMet created requested then 1 else 0
       | None => 0
       end)%nat.
Proof.
  intros H. rewrite create_steps in H.
  destruct (createAndInitialize t gc requested args w0) as [[[context r1] w1]|] eqn:Hci;
    [|discriminate].
  apply quiet_createAndInitialize in Hci. unfold noSettingsWarning in Hci.
  destruct r1 as [[] s1]; simpl in H.
  - apply bind_Some in H as ([] & w2 & Hcheck & H). inversion H; subst; clear H.
    unfold checkSettings in Hcheck. destruct (settingsNotMet s1 requested).
    + inversion Hcheck; subst. fold (withErr w1 (WarnSettingsNotMet requested s1)).
      rewrite settingsWarnings_withErr, Hci. reflexivity.
    + inversion Hcheck; subst. rewrite Hci. lia.
  - apply bind_Some in H as ([] & w2 & Hlog & H).
    apply bind_Some in H as ([] & w3 & Hdtor & H). inversion H; subst; clear H.
    apply quiet_logErr in Hlog; [|reflexivity].
    apply quiet_GlContext_dtor in Hdtor.
    unfold noSettingsWarning in *. lia.
Qed.

Lemma weakerBesidesVersion_settingsNotMet created requested :
  weakerBesidesVersion created requested ->
  settingsNotMet created requested = true.
Proof.
  intros Hweaker. unfold settingsNotMet.
  destruct Hweaker as [H|[H|[H|[H|[H|[H1 H2]]]]]].
  - apply N.ltb_lt in H. rewrite H. now rewrite !orb_true_r.
  - apply N.ltb_lt in H. rewrite H. now rewrite !orb_true_r.
  - apply N.ltb_lt in H. rewrite H. now rewrite !orb_true_r.
  - now rewrite (flagMissing_differs _ _ _ H).
  - now rewrite (flagMissing_differs _ _ _ H).
  - rewrite H1, H2. now rewrite !orb_true_r.
Qed.

(** C7, as the code has it: the settings check never fails and writes at
    most one message. When the created settings are weaker than the
    requested ones in a dimension other than the version (fewer depth or
    stencil bits, a lower antialiasing level, a missing core or debug flag,
    missing sRGB capability), or when the created version is lower, the
    minor number of the created version is below 10 and the numbers
    [major * 10 + minor] of both versions are below 2^31, the check writes
    exactly its warning; the creation that reached the check returns the
    context with its created settings, and over the whole creation exactly
    one warning of the settings check was written. Every creation that
    reached the check returns the context. Whatever the settings, a whole
    creation writes at most one warning of the settings check, and none
    when it fails. *)
Theorem C7_checkSettings_warns_once (t : ThreadId) (gc : GraphicsContext)
    (args : ContextArgs) (created requested : ContextSettings) (w : World) :
  (exists w', checkSettings created requested w = Some (tt, w')
     /\ (w' = w \/ w' = withErr w (WarnSettingsNotMet requested created)))
  /\ (weakerBesidesVersion created requested
      \/ (versionLower created requested
          /\ minorVersion created < 10
          /\ versionFitsInt created /\ versionFitsInt requested) ->
      checkSettings created requested w
      = Some (tt, withErr w (WarnSettingsNotMet requested created))
      /\ forall w0 context,
           createAndInitialize t gc requested args w0 = Some ((context, (true, created)), w) ->
           create t gc requested args w0
           = Some (Some (context, created),
                   withErr w (WarnSettingsNotMet requested created))
           /\ settingsWarnings (withErr w (WarnSettingsNotMet requested created))
              = S (settingsWarnings w0))
  /\ (forall w0 context,
        createAndInitialize t gc requested args w0 = Some ((context, (true, created)), w) ->
        exists w', create t gc requested args w0 = Some (Some (context, created), w'))
  /\ (forall w0 r w',
        create t gc requested args w0 = Some (r, w') ->
        (settingsWarnings w' <= S (settingsWarnings w0))%nat
        /\ (r = None -> settingsWarnings w' = settingsWarnings w0)).
Proof.
  assert (Hcheck : exists w', checkSettings created requested w = Some (tt, w')
            /\ (w' = w \/ w' = withErr w (WarnSettingsNotMet requested created))).
  { unfold checkSettings. destruct (settingsNotMet created requested).
    - eexists. split; [reflexivity|]. now right.
    - eexists. split; [reflexivity|]. now left. }
  split; [exact Hcheck|]. split; [|split].
  - intros Hweaker.
    assert (Hnot : settingsNotMet created requested = true).
    { destruct Hweaker as [Hbesides | (Hlower & Hminor & Hc & Hr)].
      - now apply weakerBesidesVersion_settingsNotMet.
      - apply weaker_settingsNotMet; try assumption. now left. }
    assert (Hwarn : checkSettings created requested w
                    = Some (tt, withErr w (WarnSettingsNotMet requested created))).
    { unfold checkSettings. now rewrite Hnot. }
    split; [exact Hwarn|].
    intros w0 context Hinit.
    assert (Hcreate : create t gc requested args w0
                      = Some (Some (context, created),
                              withErr w (WarnSettingsNotMet requested created))).
    { rewrite create_steps, Hinit. simpl. unfold bind. now rewrite Hwarn. }
    split; [exact Hcreate|].
    rewrite (create_settingsWarnings _ _ _ _ _ _ _ Hcreate), Hnot. lia.
  - intros w0 context Hinit. destruct Hcheck as (w' & Hw' & _).
    exists w'. rewrite create_steps, Hinit. simpl. unfold bind. now rewrite Hw'.
  - intros w0 r w' Hcreate.
    rewrite (create_settingsWarnings _ _ _ _ _ _ _ Hcreate). split.
    + destruct r as [[c s]|]; [destruct (settingsNotMet s requested)|]; lia.
    + intros ->. lia.
Qed.

(** ** Version detection *)

Lemma prefix_append (p s : string) :
  String.prefix p s = true <-> exists rest, s = (p ++ rest)%string.
Proof.
  revert s. induction p as [|a p IH]; intros s.
  - split; [intros _; now exists s|]. intros _. now destruct s.
  - destruct s as [|b s]; simpl.
    + split; [discriminate|]. intros [rest H]. discriminate.
    + destruct (ascii_dec a b) as [->|Hab].
      * rewrite IH. split; intros [rest H]; exists rest; [now rewrite H|].
        now injection H.
      * split; [discriminate|]. intros [rest H]. injection H as -> _. contradiction.
Qed.

Lemma char_at_append (p rest : string) k :
  char_at (p ++ rest) (String.length p + k) = char_at rest k.
Proof.
  unfold char_at. induction p as [|a p IH]; simpl; [reflexivity | exact IH].
Qed.

Lemma char_at_append_0 (p rest : string) :
  char_at (p ++ rest) (String.length p) = char_at rest 0.
Proof. rewrite <- (Nat.add_0_r (String.length p)) at 1. apply char_at_append. Qed.

Lemma length_append (p rest : string) :
  String.length (p ++ rest) = (String.length p + String.length rest)%nat.
Proof. induction p as [|a p IH]; simpl; [reflexivity | now rewrite IH]. Qed.

(** The shared parser accepts exactly the strings that hold a digit, a dot
    and a digit right after the prefix. *)
Lemma parseVersionString_spec versionString prefix major minor :
  parseVersionString versionString prefix = Some (major, minor)
  <-> versionAt prefix versionString major minor.
Proof.
  unfold parseVersionString, versionAt. cbv zeta. split.
  - destruct (_ && _) eqn:Hcond; [|discriminate].
    intros H. injection H as <- <-.
    rewrite !andb_true_iff in Hcond.
    destruct Hcond as ((((_ & Hprefix) & Hd1) & Hdot) & Hd2).
    apply prefix_append in Hprefix as [rest ->].
    rewrite char_at_append_0 in Hd1. rewrite char_at_append in Hdot, Hd2.
    rewrite char_at_append_0, char_at_append.
    destruct rest as [|c1 [|c2 [|c3 rest]]]; try discriminate.
    unfold char_at in *. simpl in *. apply Ascii.eqb_eq in Hdot. subst c2.
    exists c1, c3, rest. repeat split; assumption.
  - intros (d1 & d2 & rest & -> & Hd1 & Hd2 & -> & ->).
    rewrite length_append.
    replace (String.length prefix + 3 <=? _)%nat with true
      by (symmetry; apply Nat.leb_le; simpl; lia).
    replace (String.prefix prefix _) with true
      by (symmetry; apply prefix_append; eauto).
    rewrite char_at_append_0, !char_at_append. unfold char_at. simpl.
    now rewrite Hd1, Hd2.
Qed.







End Properties.

(** * Examples *)

Ltac evaluate := vm_compute; first [reflexivity | discriminate].

Ltac evaluate_all :=
  repeat match goal with |- _ /\ _ => split end; evaluate.

(** ** Identities *)

(** Four events, three of them constructions, on a fresh process. *)
Lemma C1_identities_increasing_witness :
  let es := [Construct 0 defaultSettings; Construct 1 defaultSettings;
             Destroy 0 context1; Construct 0 defaultSettings] in
  N.of_nat (constructions es) < uint64_modulus
  /\ exists cs w', run es friendlyStart = Some (cs, w')
       /\ List.map identity cs
          = List.map (fun k => 1 + N.of_nat k) (seq 0 (constructions es))
       /\ StronglySorted N.lt (List.map identity cs)
       /\ List.Forall (fun i => i <> 0) (List.map identity cs)
       /\ List.NoDup (List.map identity cs).
Proof.
  intros es. split; [evaluate|].
  apply (C1_identities_increasing (pf := friendlyPlatform)). evaluate.
Defined.

(** The claim C1 as stated fails on the code: the 2^64-th context of a
    process is given the identity 0, below that of the first, which is 1. *)
Lemma C1_counterexample_wraparound :
  exists cs w',
    run (repeat (Construct 0 defaultSettings) (N.to_nat uint64_modulus))
        friendlyStart = Some (cs, w')
    /\ nth_error (List.map identity cs) 0 = Some 1
    /\ nth_error (List.map identity cs) (Nat.pred (N.to_nat uint64_modulus)) = Some 0.
Proof. apply run_wraps. apply N2Nat.id. Qed.

(** ** setActive *)

(** Context 2 is activated on thread 0 of a fresh process, then
    deactivated. *)
Lemma C2_setActive_activeContextId_witness :
  let w1 := worldAfter (setActive 0 context2 graphicsContext1 true) friendlyStart in
  let w2 := worldAfter (setActive 0 context2 graphicsContext1 false) w1 in
  setActive 0 context2 graphicsContext1 true friendlyStart = Some (true, w1)
  /\ getActiveContextId 0 w1 = Some (identity context2, w1)
  /\ GlContextImpl.id (currentContext w1 0) = identity context2
  /\ setActive 0 context2 graphicsContext1 false w1 = Some (true, w2)
  /\ getActiveContextId 0 w2 = Some (0, w2).
Proof.
  intros w1 w2.
  assert (H1 : setActive 0 context2 graphicsContext1 true friendlyStart = Some (true, w1))
    by evaluate.
  assert (Hid : GlContextImpl.id (currentContext w1 0) = identity context2)
    by evaluate.
  assert (H2 : setActive 0 context2 graphicsContext1 false w1 = Some (true, w2))
    by evaluate.
  clearbody w2. clearbody w1.
  split; [exact H1|]. split.
  { exact (proj1 (C2_setActive_activeContextId 0%nat context2 graphicsContext1
                    friendlyStart w1) H1). }
  split; [exact Hid|]. split; [exact H2|].
  exact (proj2 (C2_setActive_activeContextId 0%nat context2 graphicsContext1 w1 w2)
           Hid H2).
Defined.

(** With context 2 active on thread 0: activating it again and deactivating
    context 3 do nothing. *)
Lemma C6_setActive_noop_witness :
  let w := worldAfter (setActive 0 context2 graphicsContext1 true) friendlyStart in
  GlContextImpl.id (currentContext w 0) = identity context2
  /\ setActive 0 context2 graphicsContext1 true w = Some (true, w)
  /\ GlContextImpl.id (currentContext w 0) <> identity context3
  /\ setActive 0 context3 graphicsContext1 false w = Some (true, w).
Proof.
  intros w.
  assert (Hid : GlContextImpl.id (currentContext w 0) = identity context2)
    by evaluate.
  assert (Hne : GlContextImpl.id (currentContext w 0) <> identity context3)
    by evaluate.
  clearbody w.
  split; [exact Hid|]. split.
  { exact (proj1 (C6_setActive_noop 0%nat context2 graphicsContext1 w) Hid). }
  split; [exact Hne|].
  exact (proj2 (C6_setActive_noop 0%nat context3 graphicsContext1 w) Hne).
Defined.

(** The platform refuses to make no context current: the deactivation of
    the active context 2 fails. The platform is tired: the activation of
    context 2 fails. *)
Lemma C9_setActive_failure_atomic_witness :
  let w := worldAfter (setActive 0 context2 graphicsContext1 true) refusingStart in
  let v := tiringStart 2 in
  (GlContextImpl.id (currentContext w 0) = identity context2
   /\ fst (makeCurrent context2 false (platform w)) = false
   /\ exists w', setActive 0 context2 graphicsContext1 false w = Some (false, w')
        /\ currentContext w' = currentContext w
        /\ transientContext w' = transientContext w
        /\ weakUnsharedGlObjects w' = weakUnsharedGlObjects w
        /\ atomicId w' = atomicId w
        /\ err w' = err w ++ [ErrMakeCurrentFailure false])
  /\ (GlContextImpl.id (currentContext v 0) <> identity context2
      /\ fst (makeCurrent context2 true (platform v)) = false
      /\ exists v', setActive 0 context2 graphicsContext1 true v = Some (false, v')
           /\ currentContext v' = currentContext v
           /\ transientContext v' = transientContext v
           /\ weakUnsharedGlObjects v' = weakUnsharedGlObjects v
           /\ atomicId v' = atomicId v
           /\ err v' = err v ++ [ErrMakeCurrentFailure true]).
Proof.
  intros w v.
  assert (Hid : GlContextImpl.id (currentContext w 0) = identity context2)
    by evaluate.
  assert (Hfail : fst (makeCurrent context2 false (platform w)) = false)
    by evaluate.
  assert (Hne : GlContextImpl.id (currentContext v 0) <> identity context2)
    by evaluate.
  assert (Hfail' : fst (makeCurrent context2 true (platform v)) = false)
    by evaluate.
  clearbody w. clearbody v.
  split.
  - split; [exact Hid|]. split; [exact Hfail|].
    exact (proj1 (C9_setActive_failure_atomic 0%nat context2 graphicsContext1 false w)
             Hid Hfail).
  - split; [exact Hne|]. split; [exact Hfail'|].
    exact (proj1 (C9_setActive_failure_atomic 0%nat context2 graphicsContext1 true v)
             Hne Hfail').
Defined.

(** ** Transient activation *)

(** Three acquisitions and three releases on a thread without an active
    context, once the shared context exists; and one acquisition on a
    thread whose active context is context 2. *)
Lemma C3_transient_balanced_witness :
  let w := worldAfter (GlContext_ctor defaultSettings) friendlyStart in
  let v := worldAfter (setActive 0 context2 graphicsContext1 true) w in
  (GlContextImpl.transientCount (currentContext w 0) = 0
   /\ N.of_nat 3 < uint_modulus
   /\ sharedContextUsable 0 graphicsContext1 w
   /\ exists w', acquireThenRelease 0 graphicsContext1 3 w = Some (tt, w')
        /\ currentContext w' 0 = currentContext w 0
        /\ transientContext w' 0 = transientContext w 0
        /\ onlyThread 0 w w')
  /\ (GlContextImpl.id (currentContext v 0) <> 0
      /\ exists v', acquireTransientContext 0 graphicsContext1 v = Some (tt, v')
           /\ currentContext v' 0
              = withTransientCount (currentContext v 0)
                  (uint_add (GlContextImpl.transientCount (currentContext v 0)) 1)
           /\ transientContext v' = transientContext v
           /\ platform v' = platform v
           /\ onlyThread 0 v v').
Proof.
  intros w v.
  assert (Hcount : GlContextImpl.transientCount (currentContext w 0) = 0)
    by evaluate.
  assert (Hn : N.of_nat 3 < uint_modulus) by evaluate.
  assert (Husable : sharedContextUsable 0 graphicsContext1 w).
  { unfold sharedContextUsable, makeCurrentSucceeds.
    split; [evaluate|]. split; [evaluate|]. split; [evaluate|].
    split; intros p; reflexivity. }
  assert (Hne : GlContextImpl.id (currentContext v 0) <> 0) by evaluate.
  clearbody v. clearbody w.
  split.
  - split; [exact Hcount|]. split; [exact Hn|]. split; [exact Husable|].
    exact (proj1 (C3_transient_balanced 0%nat graphicsContext1 3%nat w)
             Hcount Hn (fun _ => Husable)).
  - split; [exact Hne|].
    exact (proj2 (C3_transient_balanced 0%nat graphicsContext1 0%nat v) Hne).
Defined.

(** The claim C3 as stated fails on the code: on a platform that refuses to
    make no context current, one acquisition followed by one release on a
    thread without an active context leaves the shared context active on
    the thread. *)
Lemma C3_counterexample_failed_release :
  let w := worldAfter (GlContext_ctor defaultSettings) refusingStart in
  let w' := worldAfter (acquireThenRelease 0 graphicsContext1 1) w in
  valueOf (GlContext_ctor defaultSettings) refusingStart = Some (context1, defaultSettings)
  /\ GlContextImpl.id (currentContext w 0) = 0
  /\ GlContextImpl.transientCount (currentContext w 0) = 0
  /\ transientContext w 0 = None
  /\ valueOf (acquireThenRelease 0 graphicsContext1 1) w = Some tt
  /\ GlContextImpl.id (currentContext w' 0) = 1
  /\ err w' = [ErrMakeCurrentFailure false; ErrDisablingSharedInTransientContext].
Proof. intros w w'. evaluate_all. Qed.

(** ** The settings check *)

(** 24 depth bits and 4 samples are requested from the modest platform:
    the context is created with 16 and 0, and one warning is written over
    the whole creation. Fewer depth bits are warned about also when the
    minor number of the created version has two digits. A lower version
    alone, 1.1 against 2.1, is warned about. *)
Lemma C7_checkSettings_warns_once_witness :
  let w0 := worldAfter (GlContext_ctor defaultSettings) modestStart in
  let w := worldAfter (createAndInitialize (pf := modestPlatform) 0 graphicsContext1
                         requestedSettings24x4 tt) w0 in
  let warning := WarnSettingsNotMet requestedSettings24x4 createdSettings16x0 in
  (weakerBesidesVersion (pf := modestPlatform) createdSettings16x0 requestedSettings24x4
   /\ createAndInitialize (pf := modestPlatform) 0 graphicsContext1
        requestedSettings24x4 tt w0
      = Some ((context2, (true, createdSettings16x0)), w)
   /\ err w = []
   /\ checkSettings createdSettings16x0 requestedSettings24x4 w
      = Some (tt, withErr w warning)
   /\ create (pf := modestPlatform) 0 graphicsContext1 requestedSettings24x4 tt w0
      = Some (Some (context2, createdSettings16x0), withErr w warning)
   /\ settingsWarnings (withErr w warning) = S (settingsWarnings w0))
  /\ (weakerBesidesVersion (pf := friendlyPlatform)
        settings_1_20_depth16 settings_2_1_depth24
      /\ checkSettings settings_1_20_depth16 settings_2_1_depth24 friendlyStart
         = Some (tt, withErr friendlyStart
                       (WarnSettingsNotMet settings_2_1_depth24 settings_1_20_depth16)))
  /\ (versionLower defaultSettings settings_2_1
      /\ minorVersion defaultSettings < 10
      /\ versionFitsInt defaultSettings /\ versionFitsInt settings_2_1
      /\ checkSettings defaultSettings settings_2_1 friendlyStart
         = Some (tt, withErr friendlyStart
                       (WarnSettingsNotMet settings_2_1 defaultSettings))).
Proof.
  intros w0 w warning.
  assert (Hweaker : weakerBesidesVersion (pf := modestPlatform)
                      createdSettings16x0 requestedSettings24x4).
  { left. evaluate. }
  assert (Hinit : createAndInitialize (pf := modestPlatform) 0 graphicsContext1
                    requestedSettings24x4 tt w0
                  = Some ((context2, (true, createdSettings16x0)), w))
    by evaluate.
  assert (Herr : err w = []) by evaluate.
  assert (Hdepth : weakerBesidesVersion (pf := friendlyPlatform)
                     settings_1_20_depth16 settings_2_1_depth24).
  { left. evaluate. }
  assert (Hlower : versionLower defaultSettings settings_2_1
                   /\ minorVersion defaultSettings < 10
                   /\ versionFitsInt defaultSettings /\ versionFitsInt settings_2_1).
  { split; [left; evaluate|]. split; [evaluate|]. split; evaluate. }
  clearbody w. clearbody w0.
  destruct (proj1 (proj2 (C7_checkSettings_warns_once (pf := modestPlatform) 0%nat
                            graphicsContext1 tt createdSettings16x0
                            requestedSettings24x4 w))
              (or_introl Hweaker)) as [Hcheck Hcreate].
  destruct (Hcreate w0 context2 Hinit) as [Hrun Hcount].
  split; [|split].
  - split; [exact Hweaker|]. split; [exact Hinit|]. split; [exact Herr|].
    split; [exact Hcheck|]. split; [exact Hrun | exact Hcount].
  - split; [exact Hdepth|].
    exact (proj1 (proj1 (proj2 (C7_checkSettings_warns_once (pf := friendlyPlatform)
                                  0%nat graphicsContext1 tt settings_1_20_depth16
                                  settings_2_1_depth24 friendlyStart))
                    (or_introl Hdepth))).
  - destruct Hlower as (Hl & Hm & Hc & Hr).
    split; [exact Hl|]. split; [exact Hm|]. split; [exact Hc|]. split; [exact Hr|].
    exact (proj1 (proj1 (proj2 (C7_checkSettings_warns_once (pf := friendlyPlatform)
                                  0%nat graphicsContext1 tt defaultSettings
                                  settings_2_1 friendlyStart))
                    (or_intror (conj Hl (conj Hm (conj Hc Hr)))))).
Defined.

(** The claim C7 as stated fails on the code: version 1.20 is lower than
    the requested version 2.1, and the check writes nothing, since it
    compares 30 with 21. *)
Lemma C7_counterexample_two_digit_minor :
  weakerThanRequested (pf := friendlyPlatform) settings_1_20 settings_2_1
  /\ versionLower settings_1_20 settings_2_1
  /\ versionNumber settings_1_20 = 30%Z
  /\ versionNumber settings_2_1 = 21%Z
  /\ checkSettings settings_1_20 settings_2_1 friendlyStart = Some (tt, friendlyStart)
  /\ err friendlyStart = [].
Proof.
  split; [left; left; evaluate|]. split; [left; evaluate|]. evaluate_all.
Qed.

(** The driver does not enable the sRGB framebuffer that was requested and
    provided: the creation writes the warning of [initialize] and then the
    one warning of the settings check. *)
Example create_writes_the_sRGB_warning_too :
  let w := worldAfter (GlContext_ctor defaultSettings) dullStart in
  let w' := worldAfter (create (pf := dullPlatform) 0 graphicsContext1
                          settingsSRgb_4_6 tt) w in
  valueOf (create (pf := dullPlatform) 0 graphicsContext1 settingsSRgb_4_6 tt) w
  = Some (Some (context2, createdSettings_4_6))
  /\ err w' = [WarnFailedToEnableSRGB;
               WarnSettingsNotMet settingsSRgb_4_6 createdSettings_4_6]
  /\ settingsWarnings w' = 1%nat.
Proof. intros w w'. evaluate_all. Qed.

(** A function cannot be loaded: the creation returns the null pointer and
    the context it constructed is destroyed. No context is active on the
    thread afterwards, the list of unshared objects has its one owner
    again, and the identity 2 is spent. *)
Example create_failure_destroys_the_context :
  let w := worldAfter (GlContext_ctor defaultSettings) bareStart in
  let w' := worldAfter (create (pf := barePlatform) 0 graphicsContext1
                          defaultSettings tt) w in
  valueOf (create (pf := barePlatform) 0 graphicsContext1 defaultSettings tt) w
  = Some None
  /\ liveCount w = 1%nat
  /\ GlContextImpl.id (currentContext w' 0) = 0
  /\ GlContextImpl.ptr (currentContext w' 0) = None
  /\ liveCount w' = 1%nat
  /\ atomicId w' = 3
  /\ err w' = [ErrCouldNotLoadFunction; ErrCouldNotInitializeInCreate].
Proof. intros w w'. evaluate_all. Qed.

(** ** Version detection *)


(** ** The list of unshared objects *)

(** With 100 and 101 recorded under context 2 and 200 under context 3, the
    cleanup of context 2 leaves the entry of context 3. *)
Lemma C4_cleanup_removes_owned_witness :
  let w := worldAfter registerThree friendlyStart in
  weakUnsharedGlObjects w
  = Some {| use_count := 3;
            objects := [{| contextId := 2; object := 100 |};
                        {| contextId := 2; object := 101 |};
                        {| contextId := 3; object := 200 |}] |}
  /\ exists w', cleanupUnsharedResources 0 context2 graphicsContext1 w = Some (tt, w')
       /\ weakUnsharedGlObjects w'
          = Some {| use_count := 3;
                    objects := [{| contextId := 3; object := 200 |}] |}.
Proof.
  intros w.
  assert (Hlist : weakUnsharedGlObjects w
                  = Some {| use_count := 3;
                            objects := [{| contextId := 2; object := 100 |};
                                        {| contextId := 2; object := 101 |};
                                        {| contextId := 3; object := 200 |}] |})
    by evaluate.
  clearbody w. split; [exact Hlist|].
  destruct (C4_cleanup_removes_owned 0%nat context2 graphicsContext1 w)
    as (w' & Hrun & Hlist' & _).
  exists w'. split; [exact Hrun|]. rewrite Hlist', Hlist. reflexivity.
Defined.

(** In the same world context 3 is active on thread 0: unregistering 200
    erases its entry, unregistering 100, recorded under context 2, does
    nothing. *)
Lemma C5_unregister_first_match_witness :
  let w := worldAfter registerThree friendlyStart in
  GlContextImpl.id (currentContext w 0) = 3
  /\ (exists w', unregisterUnsharedGlObject 0 200 w = Some (tt, w')
        /\ weakUnsharedGlObjects w'
           = Some {| use_count := 3;
                     objects := [{| contextId := 2; object := 100 |};
                                 {| contextId := 2; object := 101 |}] |})
  /\ unregisterUnsharedGlObject 0 100 w = Some (tt, w).
Proof.
  intros w.
  assert (Hid : GlContextImpl.id (currentContext w 0) = 3) by evaluate.
  assert (Hlist : weakUnsharedGlObjects w
                  = Some {| use_count := 3;
                            objects := [{| contextId := 2; object := 100 |};
                                        {| contextId := 2; object := 101 |};
                                        {| contextId := 3; object := 200 |}] |})
    by evaluate.
  clearbody w. split; [exact Hid|]. split.
  - destruct (C5_unregister_first_match 0%nat 200 w)
      as (w' & Hrun & _ & _ & _ & Hfirst & _).
    exists w'. split; [exact Hrun|].
    rewrite Hid in Hfirst.
    apply (Hfirst _ [{| contextId := 2; object := 100 |};
                     {| contextId := 2; object := 101 |}]
                  {| contextId := 3; object := 200 |} [] Hlist); [reflexivity | |].
    + split; reflexivity.
    + intros o [<-|[<-|[]]] [H _]; discriminate H.
  - destruct (C5_unregister_first_match 0%nat 100 w)
      as (w' & Hrun & _ & _ & Hnone & _).
    rewrite Hrun. f_equal. f_equal.
    rewrite Hid in Hnone. apply (Hnone _ Hlist).
    intros o [<-|[<-|[<-|[]]]] [H1 H2]; discriminate.
Defined.

(** ** The context of the caller across a cleanup *)

(** Context 2 is active on thread 0 when context 3 is cleaned up: context 2
    is active again afterwards. No context is active on thread 1 when
    context 3 is cleaned up there: the thread keeps it. *)
Lemma C10_cleanup_restores_caller_witness :
  let w0 := worldAfter (run constructThree) friendlyStart in
  let w := worldAfter (setActive 0 context2 graphicsContext1 true) w0 in
  (GlContextImpl.ptr (currentContext w 0) = Some context2
   /\ GlContextImpl.id (currentContext w 0) = identity context2
   /\ identity context2 <> identity context3
   /\ makeCurrentSucceeds (pf := friendlyPlatform) context2 true
   /\ exists w', cleanupUnsharedResources 0 context3 graphicsContext1 w = Some (tt, w')
        /\ GlContextImpl.id (currentContext w' 0) = identity context2
        /\ GlContextImpl.ptr (currentContext w' 0) = Some context2)
  /\ (GlContextImpl.ptr (currentContext w 1) = None
      /\ exists b1 w1 w',
           setActive 1 context3 graphicsContext1 true w = Some (b1, w1)
           /\ cleanupUnsharedResources 1 context3 graphicsContext1 w = Some (tt, w')
           /\ currentContext w' = currentContext w1).
Proof.
  intros w0 w.
  assert (Hptr : GlContextImpl.ptr (currentContext w 0) = Some context2) by evaluate.
  assert (Hid : GlContextImpl.id (currentContext w 0) = identity context2) by evaluate.
  assert (Hne : identity context2 <> identity context3) by evaluate.
  assert (Hmc : makeCurrentSucceeds (pf := friendlyPlatform) context2 true)
    by (intros p; reflexivity).
  assert (Hnone : GlContextImpl.ptr (currentContext w 1) = None) by evaluate.
  clearbody w. clear w0.
  split.
  - split; [exact Hptr|]. split; [exact Hid|]. split; [exact Hne|].
    split; [exact Hmc|].
    exact (proj1 (C10_cleanup_restores_caller 0%nat context3 context2
                    graphicsContext1 w) Hptr Hid Hne Hmc).
  - split; [exact Hnone|].
    exact (proj2 (proj2 (C10_cleanup_restores_caller 1%nat context3 context2
                           graphicsContext1 w)) (or_intror Hnone)).
Defined.

(** The claim C10 as stated fails on the code: context 2 is active on
    thread 0 when context 3 is cleaned up, the platform refuses the
    restoring call, and the thread is left with context 3. *)
Lemma C10_counterexample_failed_restore :
  let w0 := worldAfter (run constructThree) (tiringStart 0) in
  let w := worldAfter (setActive 0 context2 graphicsContext1 true) w0 in
  let w' := worldAfter (cleanupUnsharedResources 0 context3 graphicsContext1) w in
  valueOf (run constructThree) (tiringStart 0) = Some [context1; context2; context3]
  /\ GlContextImpl.ptr (currentContext w 0) = Some context2
  /\ GlContextImpl.id (currentContext w 0) = identity context2
  /\ identity context2 <> identity context3
  /\ valueOf (cleanupUnsharedResources 0 context3 graphicsContext1) w = Some tt
  /\ GlContextImpl.id (currentContext w' 0) = identity context3
  /\ GlContextImpl.ptr (currentContext w' 0) = Some context3
  /\ err w' = [ErrMakeCurrentFailure true; ErrCouldNotRestoreInCleanup].
Proof. intros w0 w w'. evaluate_all. Qed.

(** ** The widths of the counters *)

(** In a debug build, 2^32 acquisitions followed by as many releases on a
    thread whose active context is context 2 abort. *)
Example acquireThenRelease_overflow_example :
  let w := worldAfter (setActive 0 context2 graphicsContext1 true) friendlyStart in
  GlContextImpl.id (currentContext w 0) = 2
  /\ acquireThenRelease 0 graphicsContext1 (N.to_nat uint_modulus) w = None.
Proof.
  intros w.
  assert (Hid : GlContextImpl.id (currentContext w 0) = 2) by evaluate.
  assert (Hcount : GlContextImpl.transientCount (currentContext w 0) = 0) by evaluate.
  assert (Htc : transientContext w 0 = None) by evaluate.
  clearbody w. split; [exact Hid|].
  assert (Hne : GlContextImpl.id (currentContext w 0) <> 0)
    by (rewrite Hid; discriminate).
  exact (acquireThenRelease_overflow (pf := friendlyPlatform) 0%nat graphicsContext1
           (N.to_nat uint_modulus) w eq_refl Hne Hcount Htc (N2Nat.id uint_modulus)).
Qed.

(** The version number of the check is computed in [unsigned int]:
    429496730 * 10 wraps to 4. *)
Example versionNumber_wraps :
  versionNumber {| depthBits := 0; stencilBits := 0; antialiasingLevel := 0;
                   majorVersion := 429496730; minorVersion := 0;
                   attributeFlags := 0; sRgbCapable := false |} = 4%Z.
Proof. evaluate. Qed.

(** * Further properties *)

Section FurtherProperties.

Context {pf : Platform}.

Ltac unfold_primitives :=
  unfold bind, ret, assert, logErr, getCurrentContext, setCurrentContext,
    getTransientContext, setTransientContext, getUnsharedGlObjects,
    setUnsharedGlObjects, callMakeCurrent, fetch_add_atomicId, getDriver in *.

(** ** Pixel format evaluation *)

Lemma to_int_small u : (Z.of_N u < 2 ^ 31)%Z -> to_int u = Z.of_N u.
Proof.
  intros H. unfold to_int, uint_modulus.
  assert (H32 : u < 2 ^ 32).
  { change (2 ^ 31)%Z with (Z.of_N (2 ^ 31)) in H.
    apply N.lt_trans with (2 ^ 31); [lia | reflexivity]. }
  rewrite (N.mod_small _ _ H32).
  destruct (Z.ltb_spec (Z.of_N u) (2 ^ 31)); [reflexivity | lia].
Qed.

Lemma abs_weight_cases d :
  ((0 < d)%Z /\ Z.abs (weight d) = (100000 * d)%Z)
  \/ ((d <= 0)%Z /\ Z.abs (weight d) = (- d)%Z).
Proof.
  unfold weight. destruct (Z.ltb_spec 0 d); [left | right]; lia.
Qed.

(** The score as a sum, with what is known of each summand. *)
Ltac score_facts :=
  unfold evaluateFormat, requestWithin, formatWithin, isInt in *;
  cbv zeta;
  repeat match goal with
         | H : _ /\ _ |- _ => destruct H
         end;
  rewrite !to_int_small by lia;
  repeat match goal with
         | |- context [Z.abs (weight ?d)] =>
             let H := fresh "Hw" in
             let x := fresh "x" in
             pose proof (abs_weight_cases d) as H;
             set (x := Z.abs (weight d)) in *; clearbody x
         end.

(** X1: for bit counts up to 5000 the score is an [int] and not negative,
    and it is 0 exactly for an accelerated format with the requested bit
    counts that is sRGB capable when that is requested. *)
Theorem X1_evaluateFormat_zero_iff_exact (bitsPerPixel : N) (settings : ContextSettings)
    (colorBits depthBits' stencilBits' antialiasing : Z) (accelerated sRgb : bool) :
  requestWithin 5000 bitsPerPixel settings ->
  formatWithin 5000 colorBits depthBits' stencilBits' antialiasing ->
  isInt (evaluateFormat bitsPerPixel settings colorBits depthBits' stencilBits'
           antialiasing accelerated sRgb)
  /\ (0 <= evaluateFormat bitsPerPixel settings colorBits depthBits' stencilBits'
             antialiasing accelerated sRgb)%Z
  /\ (evaluateFormat bitsPerPixel settings colorBits depthBits' stencilBits'
        antialiasing accelerated sRgb = 0%Z
      <-> (colorBits = Z.of_N bitsPerPixel
           /\ depthBits' = Z.of_N (depthBits settings)
           /\ stencilBits' = Z.of_N (stencilBits settings)
           /\ antialiasing = Z.of_N (antialiasingLevel settings)
           /\ accelerated = true
           /\ (sRgbCapable settings = true -> sRgb = true))).
Proof.
  intros Hreq Hfmt.
  destruct accelerated, sRgb, (sRgbCapable settings) eqn:Hs;
    score_facts; rewrite ?Hs; simpl;
    (split; [lia|]); (split; [lia|]);
    (split; [intros Hzero | intros (? & ? & ? & ? & ? & Himp)]);
    try (specialize (Himp eq_refl)); try discriminate; try lia;
    repeat split; try lia; try reflexivity; try discriminate.
Qed.

(** X2: for bit counts up to 224 every accelerated format scores below
    every format that is not accelerated. *)
Theorem X2_evaluateFormat_prefers_acceleration (bitsPerPixel : N)
    (settings : ContextSettings)
    (colorBits1 depthBits1 stencilBits1 antialiasing1 : Z) (sRgb1 : bool)
    (colorBits2 depthBits2 stencilBits2 antialiasing2 : Z) (sRgb2 : bool) :
  requestWithin 224 bitsPerPixel settings ->
  formatWithin 224 colorBits1 depthBits1 stencilBits1 antialiasing1 ->
  formatWithin 224 colorBits2 depthBits2 stencilBits2 antialiasing2 ->
  (evaluateFormat bitsPerPixel settings colorBits1 depthBits1 stencilBits1
     antialiasing1 true sRgb1
   < evaluateFormat bitsPerPixel settings colorBits2 depthBits2 stencilBits2
       antialiasing2 false sRgb2)%Z.
Proof.
  intros Hreq Hfmt1 Hfmt2.
  assert (Hlow : (evaluateFormat bitsPerPixel settings colorBits1 depthBits1
                    stencilBits1 antialiasing1 true sRgb1 < 100000000)%Z).
  { clear Hfmt2. score_facts. destruct (_ && _); simpl; lia. }
  assert (Hhigh : (100000000 <= evaluateFormat bitsPerPixel settings colorBits2
                                  depthBits2 stencilBits2 antialiasing2 false sRgb2)%Z).
  { clear Hfmt1 Hlow. score_facts. destruct (_ && _); simpl; lia. }
  lia.
Qed.

(** X3: for bit counts up to 5000, an accelerated format that has at
    least the requested bit counts, and sRGB when requested, scores below
    every format that misses a requested bit somewhere. *)
Theorem X3_evaluateFormat_shortfall_outweighs_surplus (bitsPerPixel : N)
    (settings : ContextSettings)
    (colorBits1 depthBits1 stencilBits1 antialiasing1 : Z) (sRgb1 : bool)
    (colorBits2 depthBits2 stencilBits2 antialiasing2 : Z)
    (accelerated2 sRgb2 : bool) :
  requestWithin 5000 bitsPerPixel settings ->
  formatWithin 5000 colorBits1 depthBits1 stencilBits1 antialiasing1 ->
  formatWithin 5000 colorBits2 depthBits2 stencilBits2 antialiasing2 ->
  (Z.of_N bitsPerPixel <= colorBits1 /\ Z.of_N (depthBits settings) <= depthBits1
   /\ Z.of_N (stencilBits settings) <= stencilBits1
   /\ Z.of_N (antialiasingLevel settings) <= antialiasing1)%Z ->
  (sRgbCapable settings = true -> sRgb1 = true) ->
  (colorBits2 < Z.of_N bitsPerPixel \/ depthBits2 < Z.of_N (depthBits settings)
   \/ stencilBits2 < Z.of_N (stencilBits settings)
   \/ antialiasing2 < Z.of_N (antialiasingLevel settings))%Z ->
  (evaluateFormat bitsPerPixel settings colorBits1 depthBits1 stencilBits1
     antialiasing1 true sRgb1
   < evaluateFormat bitsPerPixel settings colorBits2 depthBits2 stencilBits2
       antialiasing2 accelerated2 sRgb2)%Z.
Proof.
  intros Hreq Hfmt1 Hfmt2 Hmeets HsRgb Hshort.
  assert (Hlow : (evaluateFormat bitsPerPixel settings colorBits1 depthBits1
                    stencilBits1 antialiasing1 true sRgb1 < 100000)%Z).
  { clear Hfmt2 Hshort.
    destruct sRgb1, (sRgbCapable settings) eqn:Hs;
      try (specialize (HsRgb eq_refl); discriminate);
      score_facts; rewrite ?Hs; simpl; lia. }
  assert (Hhigh : (100000 <= evaluateFormat bitsPerPixel settings colorBits2
                               depthBits2 stencilBits2 antialiasing2 accelerated2
                               sRgb2)%Z).
  { clear Hfmt1 Hmeets HsRgb Hlow. score_facts.
    destruct (_ && _), accelerated2; simpl; lia. }
  lia.
Qed.

(** ** Version strings *)

Lemma isdigit_value c : isdigit c = true -> N_of_ascii c - 48 <= 9.
Proof.
  unfold isdigit. rewrite andb_true_iff, !N.leb_le. lia.
Qed.

Lemma digit_ascii d :
  d <= 9 ->
  isdigit (ascii_of_N (48 + d)) = true
  /\ N_of_ascii (ascii_of_N (48 + d)) - 48 = d.
Proof.
  intros Hd. unfold isdigit.
  rewrite N_ascii_embedding by lia.
  split; [apply andb_true_iff; rewrite !N.leb_le|]; lia.
Qed.

(** X4: the shared parser reads back the one-digit major and minor numbers
    written after the prefix, whatever follows them; and whatever it
    accepts, the numbers it returns are at most 9. *)
Theorem X4_parseVersionString_round_trip (prefix rest versionString : string)
    (major minor a b : N) :
  (major <= 9 -> minor <= 9 ->
   parseVersionString
     (prefix ++ String (ascii_of_N (48 + major))
                  (String "." (String (ascii_of_N (48 + minor)) rest)))
     prefix
   = Some (major, minor))
  /\ (parseVersionString versionString prefix = Some (a, b) -> a <= 9 /\ b <= 9).
Proof.
  split.
  - intros Hmajor Hminor. apply parseVersionString_spec.
    destruct (digit_ascii major Hmajor) as [Hd1 Hv1].
    destruct (digit_ascii minor Hminor) as [Hd2 Hv2].
    exists (ascii_of_N (48 + major)), (ascii_of_N (48 + minor)), rest.
    repeat split; auto.
  - intros H. apply parseVersionString_spec in H.
    destruct H as (d1 & d2 & r & _ & Hd1 & Hd2 & -> & ->).
    split; now apply isdigit_value.
Qed.

Lemma parseVersionString_not_prefix (p s : string) :
  String.prefix p s = false -> parseVersionString s p = None.
Proof.
  intros H. unfold parseVersionString. cbv zeta.
  now rewrite H, andb_false_r.
Qed.

Lemma prefix_letter_digit (a c : ascii) (p s : string) :
  isdigit c = true -> isdigit a = false ->
  String.prefix (String a p) (String c s) = false.
Proof.
  intros Hc Ha. simpl. destruct (ascii_dec a c) as [->|]; [congruence | reflexivity].
Qed.

(** X5: each of the four documented forms of the version string (ES
    Common Lite, ES Common, ES Full and desktop) followed by a digit, a dot
    and a digit is parsed to these two digits. *)
Theorem X5_parseVersion_recognises_each_form (prefix rest : string) (c1 c2 : ascii) :
  In prefix versionPrefixes ->
  isdigit c1 = true -> isdigit c2 = true ->
  parseVersion (prefix ++ String c1 (String "." (String c2 rest)))
  = Some (N_of_ascii c1 - 48, N_of_ascii c2 - 48).
Proof.
  intros Hin Hc1 Hc2.
  assert (Hat : forall p, versionAt p (p ++ String c1 (String "." (String c2 rest)))
                            (N_of_ascii c1 - 48) (N_of_ascii c2 - 48)).
  { intros p. exists c1, c2, rest. repeat split; assumption. }
  assert (Hself : forall p, parseVersionString
                              (p ++ String c1 (String "." (String c2 rest))) p
                            = Some (N_of_ascii c1 - 48, N_of_ascii c2 - 48)).
  { intros p. apply parseVersionString_spec, Hat. }
  unfold versionPrefixes in Hin.
  destruct Hin as [<-|[<-|[<-|[<-|[]]]]]; unfold parseVersion.
  - now rewrite Hself.
  - rewrite (parseVersionString_not_prefix "OpenGL ES-CL ") by reflexivity.
    now rewrite Hself.
  - rewrite (parseVersionString_not_prefix "OpenGL ES-CL ") by reflexivity.
    rewrite (parseVersionString_not_prefix "OpenGL ES-CM ") by reflexivity.
    now rewrite Hself.
  - simpl String.append.
    rewrite !parseVersionString_not_prefix
      by (apply prefix_letter_digit; [assumption | reflexivity]).
    apply (Hself EmptyString).
Qed.

(** ** What the member functions leave alone *)

Section Footprint.

Variable live : GlContext -> Prop.

Lemma sameTarget_refl cc : sameTarget cc cc.
Proof. split; reflexivity. Qed.

Lemma sameTarget_valid cc cc' :
  sameTarget cc cc' -> valid live cc -> valid live cc'.
Proof. unfold sameTarget, valid. intros [-> ->]. auto. Qed.

Lemma footprint_refl t w : footprint live t w w.
Proof.
  unfold footprint. repeat split; auto. left. apply sameTarget_refl.
Qed.

Lemma footprint_trans t w1 w2 w3 :
  footprint live t w1 w2 -> footprint live t w2 w3 -> footprint live t w1 w3.
Proof.
  unfold footprint. intros (Ho1 & Ht1 & Ha1) (Ho2 & Ht2 & Ha2).
  split; [|split; [|congruence]].
  - intros t' Hne. destruct (Ho1 t' Hne) as [<- <-]. now apply Ho2.
  - destruct Ht2 as [Hs2|Hc2]; [|now right].
    destruct Ht1 as [Hs1|Hc1].
    + left. unfold sameTarget in *. destruct Hs1, Hs2. split; congruence.
    + right. eapply sameTarget_valid; eassumption.
Qed.

(** A step that leaves the records of all threads and the counter. *)
Lemma footprint_unchanged t w w' :
  currentContext w' = currentContext w ->
  (forall t', t' <> t -> transientContext w' t' = transientContext w t') ->
  atomicId w' = atomicId w ->
  footprint live t w w'.
Proof.
  intros Hcc Htc Ha. unfold footprint. rewrite Hcc.
  repeat split; auto. left. apply sameTarget_refl.
Qed.

Lemma footprint_assert t c : preserves (footprint live t) (assert c).
Proof.
  intros w a w' H. apply assert_Some in H as ->. apply footprint_refl.
Qed.

Lemma footprint_logErr t d : preserves (footprint live t) (logErr d).
Proof.
  intros w a w' H. inversion H; subst. now apply footprint_unchanged.
Qed.

Lemma footprint_getCurrentContext t u :
  preserves (footprint live t) (getCurrentContext u).
Proof. intros w a w' H. inversion H; subst. apply footprint_refl. Qed.

Lemma footprint_getTransientContext t u :
  preserves (footprint live t) (getTransientContext u).
Proof. intros w a w' H. inversion H; subst. apply footprint_refl. Qed.

Lemma footprint_setTransientContext t tc :
  preserves (footprint live t) (setTransientContext t tc).
Proof.
  intros w a w' H. inversion H; subst.
  apply footprint_unchanged; [reflexivity | | reflexivity].
  intros u Hne. simpl. now apply update_neq.
Qed.

Lemma footprint_getUnsharedGlObjects t :
  preserves (footprint live t) getUnsharedGlObjects.
Proof. intros w a w' H. inversion H; subst. apply footprint_refl. Qed.

Lemma footprint_setUnsharedGlObjects t s :
  preserves (footprint live t) (setUnsharedGlObjects s).
Proof. intros w a w' H. inversion H; subst. now apply footprint_unchanged. Qed.

Lemma footprint_callMakeCurrent t this active :
  preserves (footprint live t) (callMakeCurrent this active).
Proof. intros w a w' H. inversion H; subst. now apply footprint_unchanged. Qed.

Lemma footprint_getDriver t : preserves (footprint live t) getDriver.
Proof. intros w a w' H. inversion H; subst. apply footprint_refl. Qed.

(** Writing a valid record, or one that names the same context. *)
Lemma footprint_setCurrentContext t cc :
  valid live cc -> preserves (footprint live t) (setCurrentContext t cc).
Proof.
  intros Hcc w a w' H. inversion H; subst. unfold footprint. simpl.
  rewrite update_eq. split; [|split; [now right | reflexivity]].
  intros u Hne. split; [now apply update_neq | reflexivity].
Qed.

Lemma footprint_retarget t w cc :
  sameTarget (currentContext w t) cc ->
  forall a w', setCurrentContext t cc w = Some (a, w') -> footprint live t w w'.
Proof.
  intros Hcc a w' H. inversion H; subst. unfold footprint. simpl.
  rewrite update_eq. split; [|split; [now left | reflexivity]].
  intros u Hne. split; [now apply update_neq | reflexivity].
Qed.

(** The record written is valid: it points to none and holds 0, or it
    points to a context known to be alive and holds its identity. *)
Ltac valid_record :=
  first [ reflexivity | split; [assumption | reflexivity] ].

Ltac footprint_step :=
  first
    [ apply preserves_ret; apply footprint_refl
    | apply footprint_assert
    | apply footprint_logErr
    | apply footprint_getCurrentContext
    | apply footprint_getTransientContext
    | apply footprint_setTransientContext
    | apply footprint_getUnsharedGlObjects
    | apply footprint_setUnsharedGlObjects
    | apply footprint_callMakeCurrent
    | apply footprint_getDriver
    | apply footprint_setCurrentContext; valid_record
    | assumption
    | progress cbv zeta
    | apply preserves_bind; [apply footprint_trans | | intros ?]
    | match goal with
      | |- preserves _ (if ?b then _ else _) => destruct b
      | |- preserves _ (match ?o with Some _ => _ | None => _ end) => destruct o
      end ].

Ltac footprint_steps := repeat footprint_step.

(** An activation writes a pointer to the context, which has to be alive;
    a deactivation writes none. *)
Lemma footprint_setActive t this gc active :
  (active = true -> live this) ->
  preserves (footprint live t) (setActive t this gc active).
Proof.
  intros Hlive. unfold setActive.
  destruct active; cbn [andb negb];
    [specialize (Hlive eq_refl) | clear Hlive]; footprint_steps.
Qed.

Lemma footprint_GraphicsContext_setActive t gc active :
  (active = true -> live (sharedContext gc)) ->
  preserves (footprint live t) (GraphicsContext_setActive t gc active).
Proof. apply footprint_setActive. Qed.

Lemma footprint_TransientContext_reset t :
  preserves (footprint live t) (TransientContext_reset t).
Proof.
  assert (Hoff : forall gc, preserves (footprint live t)
                              (GraphicsContext_setActive t gc false)).
  { intros gc. apply footprint_GraphicsContext_setActive. discriminate. }
  unfold TransientContext_reset, TransientContext_dtor. footprint_steps.
  all: apply Hoff.
Qed.

Lemma footprint_TransientContext_emplace t gc :
  live (sharedContext gc) ->
  preserves (footprint live t) (TransientContext_emplace t gc).
Proof.
  intros Hlive.
  pose proof (footprint_TransientContext_reset t) as Hreset.
  assert (Hon : preserves (footprint live t) (GraphicsContext_setActive t gc true)).
  { apply footprint_GraphicsContext_setActive. intros _. exact Hlive. }
  unfold TransientContext_emplace, TransientContext_ctor, hasActiveContext,
    getActiveContextId.
  footprint_steps.
Qed.

Lemma footprint_acquireTransientContext t gc :
  live (sharedContext gc) ->
  preserves (footprint live t) (acquireTransientContext t gc).
Proof.
  intros Hlive.
  pose proof (footprint_TransientContext_emplace t gc Hlive) as Hemplace.
  intros w a w' H. unfold acquireTransientContext in H.
  apply bind_Some in H as (cc & w1 & Hget & H). inversion Hget; subst; clear Hget.
  destruct (negb (GlContextImpl.id (currentContext w1 t) =? 0)).
  - eapply footprint_retarget; [|exact H]. split; reflexivity.
  - apply bind_Some in H as ([] & w2 & Hassert & H).
    apply assert_Some in Hassert as ->.
    assert (Hrest : preserves (footprint live t)
              (o <- getTransientContext t ;;
               assert (negb (bool_decide (is_Some o))) ;;;
               TransientContext_emplace t gc ;;;
               cc' <- getCurrentContext t ;;
               assert (negb (GlContextImpl.id cc' =? 0))))
      by footprint_steps.
    exact (Hrest _ _ _ H).
Qed.

Lemma footprint_releaseTransientContext t :
  preserves (footprint live t) (releaseTransientContext t).
Proof.
  pose proof (footprint_TransientContext_reset t) as Hreset.
  intros w a w' H. unfold releaseTransientContext in H.
  apply bind_Some in H as (cc & w1 & Hget & H). inversion Hget; subst; clear Hget.
  apply bind_Some in H as ([] & w2 & Hassert & H).
  apply assert_Some in Hassert as ->.
  destruct (0 <? GlContextImpl.transientCount (currentContext w1 t)).
  - eapply footprint_retarget; [|exact H]. split; reflexivity.
  - assert (Hrest : preserves (footprint live t)
              (o <- getTransientContext t ;;
               assert (bool_decide (is_Some o)) ;;;
               TransientContext_reset t))
      by footprint_steps.
    exact (Hrest _ _ _ H).
Qed.

Lemma footprint_Impl_dtor t : preserves (footprint live t) Impl_dtor.
Proof.
  unfold Impl_dtor. footprint_steps.
  destruct (use_count _) as [|[|n]]; footprint_steps.
Qed.

Lemma footprint_GlContext_dtor t this :
  preserves (footprint live t) (GlContext_dtor t this).
Proof.
  pose proof (footprint_Impl_dtor t) as Himpl.
  unfold GlContext_dtor. footprint_steps.
Qed.

Lemma footprint_detectVersion t gl : preserves (footprint live t) (detectVersion gl).
Proof. unfold detectVersion. footprint_steps. Qed.

Lemma footprint_checkSettings t m_settings requestedSettings :
  preserves (footprint live t) (checkSettings m_settings requestedSettings).
Proof. unfold checkSettings. footprint_steps. Qed.

(** The cleanup activates the context, and then the context the record of
    the thread pointed to, which is alive when that record is valid. *)
Lemma footprint_cleanupUnsharedResources t this gc w a w' :
  live this ->
  (forall r, GlContextImpl.ptr (currentContext w t) = Some r -> live r) ->
  cleanupUnsharedResources t this gc w = Some (a, w') ->
  footprint live t w w'.
Proof.
  intros Hlive Hptr H.
  assert (Hthis : preserves (footprint live t) (setActive t this gc true)).
  { apply footprint_setActive. intros _. exact Hlive. }
  unfold cleanupUnsharedResources in H.
  apply bind_Some in H as (cc & w1 & Hget & H). inversion Hget; subst; clear Hget.
  cbv zeta in H.
  destruct (GlContextImpl.ptr (currentContext w1 t)) as [r|].
  - pose proof (Hptr r eq_refl) as Hr.
    assert (Hrestore : preserves (footprint live t) (setActive t r gc true)).
    { apply footprint_setActive. intros _. exact Hr. }
    revert H. generalize (Impl.id (m_impl this) =? GlContextImpl.id (currentContext w1 t)).
    intros b H.
    assert (Hrest : preserves (footprint live t)
              (ok <- setActive t this gc true ;;
               (if ok then ret tt else logErr ErrCouldNotEnableInCleanup) ;;;
               s <- getUnsharedGlObjects ;;
               match s with
               | Some so =>
                   setUnsharedGlObjects
                     (Some {| use_count := use_count so;
                              objects := eraseOwned (Impl.id (m_impl this))
                                           (objects so) |})
               | None => ret tt
               end ;;;
               match (if b then None else Some r) with
               | Some r0 =>
                   ok' <- setActive t r0 gc true ;;
                   if ok' then ret tt else logErr ErrCouldNotRestoreInCleanup
               | None => ret tt
               end)).
    { destruct b; footprint_steps. }
    exact (Hrest _ _ _ H).
  - assert (Hrest : preserves (footprint live t)
              (ok <- setActive t this gc true ;;
               (if ok then ret tt else logErr ErrCouldNotEnableInCleanup) ;;;
               s <- getUnsharedGlObjects ;;
               match s with
               | Some so =>
                   setUnsharedGlObjects
                     (Some {| use_count := use_count so;
                              objects := eraseOwned (Impl.id (m_impl this))
                                           (objects so) |})
               | None => ret tt
               end ;;;
               ret tt)).
    { footprint_steps. }
    destruct (Impl.id (m_impl this) =? GlContextImpl.id (currentContext w1 t));
      exact (Hrest _ _ _ H).
Qed.

Lemma footprint_registerUnsharedGlObject t objectSharedPtr :
  preserves (footprint live t) (registerUnsharedGlObject t objectSharedPtr).
Proof. unfold registerUnsharedGlObject, getActiveContextId. footprint_steps. Qed.

Lemma footprint_unregisterUnsharedGlObject t objectSharedPtr :
  preserves (footprint live t) (unregisterUnsharedGlObject t objectSharedPtr).
Proof. unfold unregisterUnsharedGlObject, getActiveContextId. footprint_steps. Qed.

Lemma footprint_initialize t this m_settings gc requestedSettings :
  live this ->
  preserves (footprint live t) (initialize t this m_settings gc requestedSettings).
Proof.
  intros Hlive.
  assert (Hthis : preserves (footprint live t) (setActive t this gc true)).
  { apply footprint_setActive. intros _. exact Hlive. }
  pose proof (footprint_detectVersion t) as Hversion.
  unfold initialize.
  repeat first [apply Hversion | footprint_step].
Qed.

Lemma footprint_confinedTo t w w' : footprint live t w w' -> confinedTo t w w'.
Proof. intros (Hothers & _ & Hid). split; assumption. Qed.

Lemma footprint_allValid t w w' :
  footprint live t w w' -> allValid live w -> allValid live w'.
Proof.
  intros (Hothers & Ht & _) Hall u.
  destruct (Nat.eq_dec u t) as [->|Hne].
  - destruct Ht as [Hsame|Hvalid]; [|assumption].
    eapply sameTarget_valid; [exact Hsame | apply Hall].
  - destruct (Hothers u Hne) as [-> _]. apply Hall.
Qed.

End Footprint.

(** X6: what a member function run on a thread does stays on that thread:
    the activation records and the transient contexts of all other threads
    are what they were, and no identity is drawn from the counter. *)
Theorem X6_member_functions_confined (t : ThreadId) (this : GlContext)
    (gc : GraphicsContext) (active : bool) (objectSharedPtr : N)
    (m_settings requestedSettings : ContextSettings) :
  preserves (confinedTo t) (setActive t this gc active)
  /\ preserves (confinedTo t) (acquireTransientContext t gc)
  /\ preserves (confinedTo t) (releaseTransientContext t)
  /\ preserves (confinedTo t) (GlContext_dtor t this)
  /\ preserves (confinedTo t) (cleanupUnsharedResources t this gc)
  /\ preserves (confinedTo t) (registerUnsharedGlObject t objectSharedPtr)
  /\ preserves (confinedTo t) (unregisterUnsharedGlObject t objectSharedPtr)
  /\ preserves (confinedTo t) (initialize t this m_settings gc requestedSettings).
Proof.
  repeat match goal with |- _ /\ _ => split end;
    intros w a w' H; apply (footprint_confinedTo (fun _ => True)).
  - exact (footprint_setActive _ _ _ _ _ (fun _ => I) _ _ _ H).
  - exact (footprint_acquireTransientContext _ _ _ I _ _ _ H).
  - exact (footprint_releaseTransientContext _ _ _ _ _ H).
  - exact (footprint_GlContext_dtor _ _ _ _ _ _ H).
  - exact (footprint_cleanupUnsharedResources _ _ _ _ _ _ _ I (fun _ _ => I) H).
  - exact (footprint_registerUnsharedGlObject _ _ _ _ _ _ H).
  - exact (footprint_unregisterUnsharedGlObject _ _ _ _ _ _ H).
  - exact (footprint_initialize _ _ _ _ _ _ I _ _ _ H).
Qed.

(** X7: the records of the threads and the contexts that are alive. When
    the record of every thread is valid (it points to a live context and
    holds its identity, or points to none and holds 0), it still is after
    any member function has run on a live context: the identity and the
    pointer of a record are only ever written together. The destructor
    is different: its context is not alive afterwards, and the records
    are valid again only if no other thread pointed to that context; the
    record of another thread that did is left pointing to it. *)
Theorem X7_records_stay_valid (live : GlContext -> Prop) (t : ThreadId)
    (this : GlContext) (gc : GraphicsContext) (active : bool) (objectSharedPtr : N)
    (m_settings requestedSettings : ContextSettings) (w : World) :
  allValid live w -> live this -> live (sharedContext gc) ->
  (forall b w', setActive t this gc active w = Some (b, w') -> allValid live w')
  /\ (forall w', acquireTransientContext t gc w = Some (tt, w') -> allValid live w')
  /\ (forall w', releaseTransientContext t w = Some (tt, w') -> allValid live w')
  /\ (forall w', cleanupUnsharedResources t this gc w = Some (tt, w') ->
        allValid live w')
  /\ (forall w', registerUnsharedGlObject t objectSharedPtr w = Some (tt, w') ->
        allValid live w')
  /\ (forall w', unregisterUnsharedGlObject t objectSharedPtr w = Some (tt, w') ->
        allValid live w')
  /\ (forall r w', initialize t this m_settings gc requestedSettings w = Some (r, w') ->
        allValid live w')
  /\ (forall w', GlContext_dtor t this w = Some (tt, w') ->
        (forall u, u <> t -> GlContextImpl.ptr (currentContext w u) <> Some this) ->
        allValid (fun c => live c /\ c <> this) w')
  /\ (forall w' u, GlContext_dtor t this w = Some (tt, w') ->
        u <> t -> GlContextImpl.ptr (currentContext w u) = Some this ->
        GlContextImpl.ptr (currentContext w' u) = Some this
        /\ ~ valid (fun c => live c /\ c <> this) (currentContext w' u)).
Proof.
  intros Hall Hthis Hshared.
  assert (Hkeep : forall w', footprint live t w w' -> allValid live w').
  { intros w' H. exact (footprint_allValid live t w w' H Hall). }
  assert (Hdtor : forall w', GlContext_dtor t this w = Some (tt, w') ->
            (forall u, u <> t -> currentContext w' u = currentContext w u)
            /\ currentContext w' t
               = (if identity this =? GlContextImpl.id (currentContext w t)
                  then {| GlContextImpl.id := 0;
                          GlContextImpl.ptr := None;
                          GlContextImpl.transientCount :=
                            GlContextImpl.transientCount (currentContext w t) |}
                  else currentContext w t)).
  { intros w'. unfold identity, GlContext_dtor, Impl_dtor. unfold_primitives.
    destruct (Impl.id (m_impl this) =? GlContextImpl.id (currentContext w t)); simpl;
      destruct (weakUnsharedGlObjects w) as [[[|[|n]] l]|]; simpl;
      intros H; inversion H; subst; simpl;
      (split; [intros u Hne; rewrite ?update_neq by assumption; reflexivity|]);
      rewrite ?update_eq; reflexivity. }
  repeat match goal with |- _ /\ _ => split end.
  - intros b w' H. apply Hkeep.
    exact (footprint_setActive live t this gc active (fun _ => Hthis) _ _ _ H).
  - intros w' H. apply Hkeep.
    exact (footprint_acquireTransientContext live t gc Hshared _ _ _ H).
  - intros w' H. apply Hkeep.
    exact (footprint_releaseTransientContext live t _ _ _ H).
  - intros w' H. apply Hkeep.
    refine (footprint_cleanupUnsharedResources live t this gc w tt w' Hthis _ H).
    intros r Hr. specialize (Hall t). unfold valid in Hall. rewrite Hr in Hall.
    exact (proj1 Hall).
  - intros w' H. apply Hkeep.
    exact (footprint_registerUnsharedGlObject live t objectSharedPtr _ _ _ H).
  - intros w' H. apply Hkeep.
    exact (footprint_unregisterUnsharedGlObject live t objectSharedPtr _ _ _ H).
  - intros r w' H. apply Hkeep.
    exact (footprint_initialize live t this m_settings gc requestedSettings Hthis
             _ _ _ H).
  - intros w' H Hothers. destruct (Hdtor w' H) as [Hrest Hown]. intros u.
    destruct (Nat.eq_dec u t) as [->|Hne].
    + rewrite Hown. specialize (Hall t). unfold valid in *.
      destruct (N.eqb_spec (identity this) (GlContextImpl.id (currentContext w t)))
        as [E|E]; simpl; [reflexivity|].
      destruct (GlContextImpl.ptr (currentContext w t)) as [c|]; [|exact Hall].
      destruct Hall as [Hc Hid]. split; [split; [exact Hc|] | exact Hid].
      intros ->. congruence.
    + rewrite (Hrest u Hne). specialize (Hall u). specialize (Hothers u Hne).
      unfold valid in *.
      destruct (GlContextImpl.ptr (currentContext w u)) as [c|]; [|exact Hall].
      destruct Hall as [Hc Hid]. split; [split; [exact Hc|] | exact Hid].
      intros ->. now apply Hothers.
  - intros w' u H Hne Hptr. destruct (Hdtor w' H) as [Hrest _].
    rewrite (Hrest u Hne). split; [exact Hptr|].
    unfold valid. rewrite Hptr. intros [[_ Hnot] _]. now apply Hnot.
Qed.

(** ** Destruction *)

(** X8: the destructor always returns and looks at the record of the
    calling thread only: when that record holds the identity of the context
    it is cleared (the nesting count stays), otherwise it is left as it is;
    the record of any other thread stays, also one that names the context
    being destroyed. The destructor makes no platform call and writes no
    message. *)
Theorem X8_dtor_clears_only_the_caller (t : ThreadId) (this : GlContext) (w : World) :
  exists w',
    GlContext_dtor t this w = Some (tt, w')
    /\ (forall u, u <> t -> currentContext w' u = currentContext w u)
    /\ currentContext w' t
       = (if identity this =? GlContextImpl.id (currentContext w t)
          then {| GlContextImpl.id := 0;
                  GlContextImpl.ptr := None;
                  GlContextImpl.transientCount :=
                    GlContextImpl.transientCount (currentContext w t) |}
          else currentContext w t)
    /\ transientContext w' = transientContext w
    /\ platform w' = platform w
    /\ err w' = err w.
Proof.
  unfold identity, GlContext_dtor, Impl_dtor. unfold_primitives.
  destruct (Impl.id (m_impl this) =? GlContextImpl.id (currentContext w t)); simpl;
    destruct (weakUnsharedGlObjects w) as [[[|[|n]] l]|]; simpl;
    eexists; (split; [reflexivity|]); simpl;
    (split; [intros u Hne; rewrite ?update_neq by assumption; reflexivity|]);
    rewrite ?update_eq; repeat split.
Qed.


(** ** The assertions of the transient activation *)

Lemma assert_debug c w a w' :
  NDEBUG = false -> assert c w = Some (a, w') -> c = true /\ w' = w.
Proof.
  unfold assert. intros ->. simpl. destruct c; [|discriminate].
  intros H. inversion H. split; reflexivity.
Qed.

Lemma assert_fails w : NDEBUG = false -> assert false w = None.
Proof. unfold assert. now intros ->. Qed.

(** X9: what the assertions of the transient activation enforce in a debug
    build. An acquisition that returns leaves a context active on the
    thread. An acquisition on a thread without an active context aborts
    when the nesting count is not 0 or a transient context is still there.
    A release aborts on a thread without an active context, and on a thread
    whose nesting count is 0 and that has no transient context. *)
Theorem X9_debug_build_contracts (t : ThreadId) (gc : GraphicsContext) (w : World) :
  NDEBUG = false ->
  (forall w', acquireTransientContext t gc w = Some (tt, w') ->
     GlContextImpl.id (currentContext w' t) <> 0)
  /\ (GlContextImpl.id (currentContext w t) = 0 ->
      GlContextImpl.transientCount (currentContext w t) <> 0
      \/ transientContext w t <> None ->
      acquireTransientContext t gc w = None)
  /\ (GlContextImpl.id (currentContext w t) = 0 ->
      releaseTransientContext t w = None)
  /\ (GlContextImpl.transientCount (currentContext w t) = 0 ->
      transientContext w t = None ->
      releaseTransientContext t w = None).
Proof.
  intros Hdebug. split; [|split; [|split]].
  - intros w' H. unfold acquireTransientContext in H.
    apply bind_Some in H as (cc & w1 & Hget & H). inversion Hget; subst; clear Hget.
    destruct (N.eqb_spec (GlContextImpl.id (currentContext w1 t)) 0) as [E|E];
      simpl in H.
    + apply bind_Some in H as (? & w2 & _ & H).
      apply bind_Some in H as (? & w3 & _ & H).
      apply bind_Some in H as (? & w4 & _ & H).
      apply bind_Some in H as (? & w5 & _ & H).
      apply bind_Some in H as (cc' & w6 & Hget & H).
      inversion Hget; subst; clear Hget.
      apply (assert_debug _ _ _ _ Hdebug) in H as [Hid ->].
      apply negb_true_iff, N.eqb_neq in Hid. exact Hid.
    + inversion H; subst. simpl. now rewrite update_eq.
  - intros Hid Hbad. unfold acquireTransientContext.
    unfold bind at 1. unfold getCurrentContext at 1. rewrite Hid. simpl.
    destruct (N.eqb_spec (GlContextImpl.transientCount (currentContext w t)) 0)
      as [Hcount|Hcount].
    + destruct Hbad as [Hbad|Hbad]; [contradiction|].
      unfold bind at 1. unfold assert at 1. rewrite orb_true_r.
      unfold bind at 1. unfold getTransientContext at 1.
      destruct (transientContext w t) as [tc|]; [|contradiction].
      unfold bind at 1.
      replace (negb (bool_decide (is_Some (Some tc)))) with false; [|reflexivity].
      now rewrite assert_fails.
    + unfold bind at 1. now rewrite assert_fails.
  - intros Hid. unfold releaseTransientContext.
    unfold bind at 1. unfold getCurrentContext at 1. rewrite Hid. simpl.
    unfold bind at 1. now rewrite assert_fails.
  - intros Hcount Hnone. unfold releaseTransientContext.
    unfold bind at 1. unfold getCurrentContext at 1.
    unfold bind at 1. unfold assert at 1. rewrite Hdebug. simpl.
    destruct (negb (GlContextImpl.id (currentContext w t) =? 0)); [|reflexivity].
    rewrite Hcount. simpl.
    unfold bind at 1. unfold getTransientContext at 1. rewrite Hnone.
    unfold bind at 1.
    replace (bool_decide (is_Some (@None TransientContext))) with false;
      [|reflexivity].
    now rewrite assert_fails.
Qed.

(** ** The life of the list of unshared objects *)

Lemma Impl_ctor_live w :
  exists i w', Impl_ctor w = Some (i, w')
    /\ liveCount w' = S (liveCount w) /\ listOwned w'.
Proof.
  unfold Impl_ctor, liveCount, listOwned. unfold_primitives.
  destruct (weakUnsharedGlObjects w) as [so|]; simpl;
    eexists; eexists; (split; [reflexivity|]); simpl; split; (reflexivity || lia).
Qed.

Lemma GlContext_dtor_live t c w :
  exists w', GlContext_dtor t c w = Some (tt, w')
    /\ liveCount w' = Nat.pred (liveCount w) /\ listOwned w'.
Proof.
  unfold GlContext_dtor, Impl_dtor, liveCount, listOwned. unfold_primitives.
  destruct (Impl.id (m_impl c) =? GlContextImpl.id (currentContext w t)); simpl;
    destruct (weakUnsharedGlObjects w) as [[[|[|n]] l]|] eqn:Hso; simpl;
    eexists; (split; [reflexivity|]); simpl; rewrite ?Hso;
    split; (reflexivity || lia || exact I).
Qed.

(** X10: the list of unshared objects lives exactly as long as a context
    does. Over any sequence of constructions and destructions the number of
    owners of the list follows the number of live contexts, a list that
    exists has an owner, and the weak pointer has expired at the end
    exactly when no context is left. *)
Theorem X10_list_lives_with_the_contexts (es : list Event) (w : World) :
  listOwned w ->
  exists cs w',
    run es w = Some (cs, w')
    /\ listOwned w'
    /\ liveCount w' = liveAfter es (liveCount w)
    /\ (weakUnsharedGlObjects w' = None <-> liveAfter es (liveCount w) = 0%nat).
Proof.
  intros Howned.
  assert (Hrun : exists cs w', run es w = Some (cs, w') /\ listOwned w'
                   /\ liveCount w' = liveAfter es (liveCount w)).
  { revert w Howned. induction es as [|[t settings|t c] es IH]; intros w Howned.
    - exists [], w. repeat split; assumption.
    - destruct (Impl_ctor_live w) as (i & w1 & Hctor & Hlive & Howned1).
      destruct (IH w1 Howned1) as (cs & w' & Hrun & Howned' & Hlive').
      exists ({| m_impl := i |} :: cs), w'.
      simpl run. unfold bind at 1. unfold GlContext_ctor. unfold bind at 1.
      rewrite Hctor. unfold ret at 1. unfold bind at 1. rewrite Hrun.
      split; [reflexivity|]. split; [assumption|].
      simpl liveAfter. now rewrite <- Hlive.
    - destruct (GlContext_dtor_live t c w) as (w1 & Hdtor & Hlive & Howned1).
      destruct (IH w1 Howned1) as (cs & w' & Hrun & Howned' & Hlive').
      exists cs, w'. simpl run. unfold bind at 1. rewrite Hdtor.
      split; [assumption|]. split; [assumption|].
      simpl liveAfter. now rewrite <- Hlive. }
  destruct Hrun as (cs & w' & Hrun & Howned' & Hlive).
  exists cs, w'. split; [assumption|]. split; [assumption|]. split; [assumption|].
  rewrite <- Hlive. unfold liveCount, listOwned in *.
  destruct (weakUnsharedGlObjects w') as [so|].
  - split; [discriminate | lia].
  - split; reflexivity.
Qed.

(** X11: the destruction of the last context destroys the list with
    everything registered in it. Until a context is constructed again a
    registration and an unregistration do nothing, and the next context
    starts with an empty list. *)
Theorem X11_list_dies_with_the_last_context (t : ThreadId) (c : GlContext)
    (settings : ContextSettings) (objectSharedPtr : N) (w : World) (so : SharedObjects) :
  weakUnsharedGlObjects w = Some so -> use_count so = 1%nat ->
  exists w1,
    GlContext_dtor t c w = Some (tt, w1)
    /\ weakUnsharedGlObjects w1 = None
    /\ registerUnsharedGlObject t objectSharedPtr w1 = Some (tt, w1)
    /\ unregisterUnsharedGlObject t objectSharedPtr w1 = Some (tt, w1)
    /\ exists c' w2,
         GlContext_ctor settings w1 = Some (c', w2)
         /\ weakUnsharedGlObjects w2 = Some {| use_count := 1; objects := [] |}.
Proof.
  intros Hso Hcount.
  unfold GlContext_dtor, Impl_dtor, GlContext_ctor, Impl_ctor,
    registerUnsharedGlObject, unregisterUnsharedGlObject.
  unfold_primitives.
  destruct (Impl.id (m_impl c) =? GlContextImpl.id (currentContext w t)); simpl;
    rewrite Hso; simpl; rewrite Hcount;
    eexists; (split; [reflexivity|]); simpl;
    (split; [reflexivity|]); (split; [reflexivity|]); (split; [reflexivity|]);
    eexists; eexists; split; reflexivity.
Qed.

(** The entry a registration appends is the only one the predicate of the
    unregistration accepts up to equality. *)
Lemma matches_entry currentContextId objectSharedPtr obj :
  (contextId obj =? currentContextId) && (object obj =? objectSharedPtr) = true ->
  obj = {| contextId := currentContextId; object := objectSharedPtr |}.
Proof.
  rewrite andb_true_iff, !N.eqb_eq. destruct obj. simpl. intros [-> ->]. reflexivity.
Qed.

(** X12: a registration followed by the unregistration of the same handle
    on the same thread, while the list exists, leaves the entries of the
    list as they were up to their order, and the whole state exactly as it
    was when no entry had the active identity and the handle before. *)
Theorem X12_register_unregister_round_trip (t : ThreadId) (objectSharedPtr : N)
    (w : World) (so : SharedObjects) :
  weakUnsharedGlObjects w = Some so ->
  exists w1 w2 so2,
    registerUnsharedGlObject t objectSharedPtr w = Some (tt, w1)
    /\ unregisterUnsharedGlObject t objectSharedPtr w1 = Some (tt, w2)
    /\ weakUnsharedGlObjects w2 = Some so2
    /\ use_count so2 = use_count so
    /\ Permutation (objects so2) (objects so)
    /\ ((forall o, In o (objects so) ->
           ~ matches (GlContextImpl.id (currentContext w t)) objectSharedPtr o) ->
        w2 = w).
Proof.
  intros Hso.
  unfold registerUnsharedGlObject, unregisterUnsharedGlObject, getActiveContextId.
  unfold_primitives. rewrite Hso. simpl.
  set (i := GlContextImpl.id (currentContext w t)).
  set (pred := fun obj => (contextId obj =? i) && (object obj =? objectSharedPtr)).
  set (x := {| contextId := i; object := objectSharedPtr |}).
  assert (Hx : pred x = true) by (unfold pred, x; simpl; now rewrite !N.eqb_refl).
  destruct (findIf pred (objects so ++ [x])) as [j|] eqn:Hfind.
  - eexists. eexists. eexists. split; [reflexivity|]. simpl. fold i. fold x. fold pred.
    rewrite Hfind. split; [reflexivity|]. simpl.
    split; [reflexivity|]. simpl. split; [reflexivity|]. split.
    + apply findIf_Some in Hfind as (l1 & e & l2 & Hl & <- & He & _).
      rewrite Hl, delete_middle.
      apply matches_entry in He. fold x in He. subst e.
      apply (Permutation_cons_inv (a := x)).
      rewrite Permutation_middle, <- Hl.
      symmetry. apply Permutation_cons_append.
    + intros Hnone.
      rewrite findIf_first in Hfind.
      * injection Hfind as <-.
        replace (objects so ++ [x]) with (objects so ++ x :: []) by reflexivity.
        rewrite delete_middle, app_nil_r.
        destruct w as [a o cc tc p e]. simpl in *. subst o. now destruct so.
      * apply List.Forall_forall. intros o Ho. apply not_matches_pred. now apply Hnone.
      * exact Hx.
  - apply findIf_None in Hfind. apply Forall_app in Hfind as [_ Hlast].
    inversion Hlast; subst. congruence.
Qed.


(** ** Initialisation *)

(** X13: [initialize] always returns, and it fails exactly when one of the
    five functions it needs cannot be loaded from the driver; then the
    settings of the context are left as they were, and the message about
    the function is the last one written. *)
Theorem X13_initialize_fails_iff_a_function_is_missing (t : ThreadId)
    (this : GlContext) (m_settings : ContextSettings) (gc : GraphicsContext)
    (requestedSettings : ContextSettings) (w : World) :
  exists b s' w',
    initialize t this m_settings gc requestedSettings w = Some ((b, s'), w')
    /\ b = functionsLoaded (driver (platform w'))
    /\ (b = false ->
        s' = m_settings /\ exists l, err w' = l ++ [ErrCouldNotLoadFunction]).
Proof.
  destruct (initialize_cases t this m_settings gc requestedSettings w)
    as (b0 & w0 & w1 & _ & _ & [(Hfl & Hrun) | (Hfl & v & w2 & Hdv & Hrun)]).
  - eexists. eexists. eexists. split; [exact Hrun|].
    rewrite withErr_platform. split; [now rewrite Hfl|].
    intros _. split; [reflexivity|]. exists (err w1). reflexivity.
  - eexists. eexists. eexists. split; [exact Hrun|]. split; [|discriminate].
    destruct (detectVersion_total (driver (platform w1)) w1)
      as (v' & w2' & Hdv' & Hw2).
    rewrite Hdv in Hdv'. injection Hdv' as _ <-.
    assert (Hp : platform w2 = platform w1)
      by (destruct Hw2 as [->|[d ->]]; reflexivity).
    destruct (_ && _ && negb _); rewrite ?withErr_platform, Hp; now rewrite Hfl.
Qed.

(** X14: what a successful [initialize] makes of the settings the backend
    gave the context. The depth and stencil bits are kept. The antialiasing
    level is kept when antialiasing was requested and is 0 otherwise. The
    context is sRGB capable exactly when that was requested, the backend
    provided it and the driver reports the framebuffer as enabled. The
    attribute flags are those detected for the stored version. Nothing is
    ever raised above what the backend gave. *)
Theorem X14_initialize_keeps_or_lowers (t : ThreadId) (this : GlContext)
    (m_settings : ContextSettings) (gc : GraphicsContext)
    (requestedSettings s' : ContextSettings) (w w' : World) :
  initialize t this m_settings gc requestedSettings w = Some ((true, s'), w') ->
  depthBits s' = depthBits m_settings
  /\ stencilBits s' = stencilBits m_settings
  /\ antialiasingLevel s'
     = (if 0 <? antialiasingLevel requestedSettings
        then antialiasingLevel m_settings else 0)
  /\ antialiasingLevel s' <= antialiasingLevel m_settings
  /\ sRgbCapable s'
     = sRgbCapable requestedSettings && sRgbCapable m_settings
       && glIsEnabled (driver (platform w')) GL_FRAMEBUFFER_SRGB
  /\ attributeFlags s'
     = detectAttributeFlags (driver (platform w')) (majorVersion s') (minorVersion s').
Proof.
  intros H.
  destruct (initialize_cases t this m_settings gc requestedSettings w)
    as (b0 & w0 & w1 & _ & _ & [(Hfl & Hrun) | (Hfl & v & w2 & Hdv & Hrun)]);
    rewrite Hrun in H; [discriminate|].
  destruct (detectVersion_total (driver (platform w1)) w1) as (v' & w2' & Hdv' & Hw2).
  rewrite Hdv in Hdv'. injection Hdv' as _ <-.
  assert (Hp : platform w2 = platform w1)
    by (destruct Hw2 as [->|[d ->]]; reflexivity).
  assert (Hp' : platform w' = platform w1).
  { injection H as _ <-. destruct (_ && _ && negb _); rewrite ?withErr_platform; exact Hp. }
  injection H as <- _. simpl. rewrite Hp'.
  split; [reflexivity|]. split; [reflexivity|].
  split; [|split; [|split; reflexivity]].
  - destruct (N.ltb_spec 0 (antialiasingLevel requestedSettings)); [|reflexivity].
    destruct (N.ltb_spec 0 (antialiasingLevel m_settings)); simpl; lia.
  - destruct (_ && _); lia.
Qed.

(** ** The settings check, in both directions *)

Lemma versionNumber_lower_iff created requested :
  minorVersion created < 10 -> minorVersion requested < 10 ->
  versionFitsInt created -> versionFitsInt requested ->
  (versionNumber created <? versionNumber requested)%Z = true
  <-> versionLower created requested.
Proof.
  intros Hc10 Hr10 Hc Hr.
  rewrite (versionNumber_fits _ Hc), (versionNumber_fits _ Hr), Z.ltb_lt.
  unfold versionLower. lia.
Qed.

Lemma settingsNotMet_iff created requested :
  minorVersion created < 10 -> minorVersion requested < 10 ->
  versionFitsInt created -> versionFitsInt requested ->
  settingsNotMet created requested = true <-> fallsShort created requested.
Proof.
  intros Hc10 Hr10 Hc Hr. unfold settingsNotMet, fallsShort.
  rewrite !orb_true_iff, andb_true_iff, !negb_true_iff, !N.ltb_lt, N.eqb_neq.
  rewrite (versionNumber_lower_iff _ _ Hc10 Hr10 Hc Hr). tauto.
Qed.

(** X15: for versions with one-digit minor numbers whose number
    [major * 10 + minor] is an [int], the settings check writes its warning
    exactly when the attribute flags differ in any way (also when the
    context has a flag that was not requested), the version is lower, a bit
    count or the antialiasing level is lower, or sRGB capability is missing;
    otherwise it leaves the state as it is. *)
Theorem X15_checkSettings_warns_exactly_when_short
    (created requested : ContextSettings) (w : World) :
  minorVersion created < 10 -> minorVersion requested < 10 ->
  versionFitsInt created -> versionFitsInt requested ->
  (fallsShort created requested ->
   checkSettings created requested w
   = Some (tt, withErr w (WarnSettingsNotMet requested created)))
  /\ (~ fallsShort created requested ->
      checkSettings created requested w = Some (tt, w)).
Proof.
  intros Hc10 Hr10 Hc Hr.
  pose proof (settingsNotMet_iff _ _ Hc10 Hr10 Hc Hr) as Hiff.
  unfold checkSettings. destruct (settingsNotMet created requested).
  - split; [reflexivity|]. intros Hnot. exfalso. apply Hnot, Hiff. reflexivity.
  - split; [|reflexivity]. intros Hshort. apply Hiff in Hshort. discriminate.
Qed.


(** ** Creation *)

Lemma sameButErr_refl w : sameButErr w w.
Proof. repeat split. Qed.

Lemma sameButErr_trans w1 w2 w3 :
  sameButErr w1 w2 -> sameButErr w2 w3 -> sameButErr w1 w3.
Proof.
  unfold sameButErr. intros (? & ? & ? & ? & ?) (? & ? & ? & ? & ?).
  repeat split; congruence.
Qed.

Lemma sameButErr_withErr w d : sameButErr w (withErr w d).
Proof. repeat split. Qed.

Lemma sameButErr_log (b : bool) d w a w' :
  (if b then ret tt else logErr d) w = Some (a, w') -> sameButErr w w'.
Proof.
  destruct b; intros H; inversion H; subst;
    [apply sameButErr_refl | apply (sameButErr_withErr w d)].
Qed.

Lemma sameButErr_checkSettings m_settings requestedSettings w a w' :
  checkSettings m_settings requestedSettings w = Some (a, w') -> sameButErr w w'.
Proof.
  unfold checkSettings. destruct (settingsNotMet _ _); intros H; inversion H; subst;
    [apply (sameButErr_withErr w) | apply sameButErr_refl].
Qed.

(** A successful [initialize]: the activation, then messages only. *)
Lemma initialize_success t this m_settings gc requestedSettings w s' w' :
  initialize t this m_settings gc requestedSettings w = Some ((true, s'), w') ->
  exists b0 w0,
    setActive t this gc true w = Some (b0, w0)
    /\ sameButErr w0 w'
    /\ functionsLoaded (driver (platform w')) = true.
Proof.
  intros H.
  destruct (initialize_cases t this m_settings gc requestedSettings w)
    as (b0 & w0 & w1 & Hact & Hw1 & [(Hfl & Hrun) | (Hfl & v & w2 & Hdv & Hrun)]);
    rewrite Hrun in H; [discriminate|].
  exists b0, w0. split; [assumption|].
  assert (H01 : sameButErr w0 w1).
  { subst w1. destruct b0; [apply sameButErr_refl | apply sameButErr_withErr]. }
  assert (H12 : sameButErr w1 w2).
  { destruct (detectVersion_total (driver (platform w1)) w1)
      as (v' & w2' & Hdv' & Hw2).
    rewrite Hdv in Hdv'. injection Hdv' as _ <-.
    destruct Hw2 as [->|[d ->]]; [apply sameButErr_refl | apply sameButErr_withErr]. }
  assert (H2 : sameButErr w2 w').
  { injection H as _ <-.
    destruct (_ && _ && negb _); [apply sameButErr_withErr | apply sameButErr_refl]. }
  pose proof (sameButErr_trans _ _ _ H12 H2) as H1.
  split; [exact (sameButErr_trans _ _ _ H01 H1)|].
  destruct H1 as (_ & _ & _ & _ & ->). exact Hfl.
Qed.

Lemma callMakeContextType_spec args settings w c w' :
  callMakeContextType args settings w = Some (c, w') ->
  identity (fst c) = atomicId w
  /\ atomicId w' = (atomicId w + 1) mod uint64_modulus
  /\ liveCount w' = S (liveCount w)
  /\ currentContext w' = currentContext w.
Proof.
  unfold callMakeContextType, GlContext_ctor, Impl_ctor, identity, liveCount.
  unfold_primitives. intros H. injection H as <- <-. simpl.
  destruct (weakUnsharedGlObjects w); repeat split.
Qed.

(** X16: a creation that returns a context. The identity of the context is
    the value the counter had at the call and the counter has advanced by
    one (modulo 2^64); the list of unshared objects has one more owner;
    the five functions of [initialize] were found; on the other threads
    the same contexts are active as before; and on the calling thread the
    new context is the active one whenever the platform makes it current
    when asked. *)
Theorem X16_create_returns_a_fresh_context (t : ThreadId) (gc : GraphicsContext)
    (settings : ContextSettings) (args : ContextArgs) (w : World)
    (c : GlContext) (s : ContextSettings) (w' : World) :
  create t gc settings args w = Some (Some (c, s), w') ->
  identity c = atomicId w
  /\ atomicId w' = (atomicId w + 1) mod uint64_modulus
  /\ liveCount w' = S (liveCount w)
  /\ functionsLoaded (driver (platform w')) = true
  /\ (forall u, u <> t -> currentContext w' u = currentContext w u)
  /\ (makeCurrentSucceeds c true ->
      GlContextImpl.id (currentContext w' t) = identity c).
Proof.
  intros H. rewrite create_steps in H.
  destruct (createAndInitialize t gc settings args w) as [[[context r1] w1]|] eqn:Hci;
    [|discriminate].
  destruct r1 as [[] s1]; simpl in H.
  2: { apply bind_Some in H as (? & ? & _ & H).
       apply bind_Some in H as (? & ? & _ & H). discriminate. }
  apply bind_Some in H as ([] & w2 & Hcheck & H).
  apply sameButErr_checkSettings in Hcheck as (Hid1 & Hso1 & Hcc1 & _ & Hp1).
  injection H as <- <- <-.
  unfold createAndInitialize in Hci.
  apply bind_Some in Hci as (ok & wa & Hon & Hci).
  apply bind_Some in Hci as ([] & wb & Hlog & Hci).
  apply bind_Some in Hci as (made & wc & Hmade & Hci).
  apply bind_Some in Hci as (ok' & wd & Hoff & Hci).
  apply bind_Some in Hci as ([] & we & Hlog' & Hci).
  apply bind_Some in Hci as (r & wf & Hinit & Hci).
  inversion Hci; subst; clear Hci.
  apply (setActive_frame t (sharedContext gc) gc) in Hon
    as (Hso_a & Hid_a & _ & Hcc_a & _).
  apply sameButErr_log in Hlog as (Hid_b & Hso_b & Hcc_b & _ & _).
  apply callMakeContextType_spec in Hmade as (Hnew & Hid_c & Hlive_c & Hcc_c).
  apply (setActive_frame t (sharedContext gc) gc) in Hoff
    as (Hso_d & Hid_d & _ & Hcc_d & _).
  apply sameButErr_log in Hlog' as (Hid_e & Hso_e & Hcc_e & _ & _).
  apply initialize_success in Hinit as (b0 & w0 & Hact & (Hid_f & Hso_f & Hcc_f & _ & Hp_f) & Hfl).
  pose proof (setActive_frame _ _ _ _ _ _ _ Hact) as (Hso_0 & Hid_0 & _ & Hcc_0 & _).
  split; [|split; [|split; [|split; [|split]]]].
  - congruence.
  - congruence.
  - unfold liveCount in *. rewrite Hso1, Hso_f, Hso_0, Hso_e, Hso_d, Hlive_c.
    now rewrite Hso_b, Hso_a.
  - now rewrite Hp1.
  - intros u Hne. rewrite Hcc1, Hcc_f, (Hcc_0 u Hne), Hcc_e, (Hcc_d u Hne), Hcc_c, Hcc_b.
    exact (Hcc_a u Hne).
  - intros Hmc. rewrite Hcc1, Hcc_f.
    destruct (setActive_true_record _ _ _ _ _ _ Hact)
      as [(_ & Hid & _) | (_ & _ & Hfail & _)]; [exact Hid|].
    rewrite (Hmc (platform we)) in Hfail. discriminate.
Qed.

(** ** The attribute flags *)

(** X17: the attribute flags [initialize] detects, for the values 0, 1 and
    4 of [Default], [Core] and [Debug]. Below version 3.0 they are
    [Default]. The debug flag is set exactly for a version from 3.0 on
    whose context flags have the debug bit, whatever is decided about the
    profile. The core flag is never set for 3.0; for 3.1 it is set exactly
    when no extension string names [GL_ARB_compatibility]; from 3.2 on it
    is the core bit of the profile mask. No other bit is ever set. *)
Theorem X17_attribute_flags_by_version (gl : Driver) (major minor : N) :
  Attribute_Default = 0 -> Attribute_Core = 1 -> Attribute_Debug = 4 ->
  (major < 3 -> detectAttributeFlags gl major minor = 0)
  /\ N.testbit (detectAttributeFlags gl major minor) 2
     = (3 <=? major) && debugContext gl
  /\ (major = 3 -> minor = 0 ->
      N.testbit (detectAttributeFlags gl major minor) 0 = false)
  /\ (major = 3 -> minor = 1 ->
      N.testbit (detectAttributeFlags gl major minor) 0
      = negb (compatibilityExtension gl))
  /\ (3 < major \/ (major = 3 /\ 2 <= minor) ->
      N.testbit (detectAttributeFlags gl major minor) 0 = coreProfile gl)
  /\ N.land (detectAttributeFlags gl major minor) 5
     = detectAttributeFlags gl major minor.
Proof.
  intros Hdefault Hcore Hdebug.
  unfold detectAttributeFlags, debugContext, compatibilityExtension, coreProfile.
  cbv zeta. rewrite Hdefault, Hcore, Hdebug.
  destruct (N.leb_spec 3 major) as [H3|H3];
    [|repeat split; intros; (reflexivity || lia)].
  destruct (negb (Z.land (queryInteger gl GL_CONTEXT_FLAGS)
                         GL_CONTEXT_FLAG_DEBUG_BIT =? 0)%Z);
    destruct (N.eqb_spec major 3) as [Hm|Hm];
    destruct (N.eqb_spec minor 1) as [Hn|Hn]; simpl andb; cbv iota;
    try destruct (getFunction gl "glGetStringi");
    try destruct (existsb _ _);
    try destruct (N.ltb_spec 3 major);
    try destruct (N.leb_spec 2 minor); simpl orb; cbv iota;
    try destruct (negb (Z.land (queryInteger gl GL_CONTEXT_PROFILE_MASK)
                               GL_CONTEXT_CORE_PROFILE_BIT =? 0)%Z);
    (split; [intros; lia|]); (split; [reflexivity|]);
    (split; [intros; first [lia | reflexivity]|]);
    (split; [intros; first [lia | reflexivity]|]);
    (split; [intros; first [lia | reflexivity]|]); reflexivity.
Qed.


(** ** Versions the parser cannot read *)

Lemma parseVersionString_no_digit (p s : string) :
  isdigit (char_at s (String.length p)) = false -> parseVersionString s p = None.
Proof.
  intros H. unfold parseVersionString. cbv zeta.
  now rewrite H, !andb_false_r.
Qed.

Lemma parseVersionString_no_dot (p s : string) :
  Ascii.eqb (char_at s (String.length p + 1)) "." = false ->
  parseVersionString s p = None.
Proof.
  intros H. unfold parseVersionString. cbv zeta.
  now rewrite H, !andb_false_r.
Qed.

Lemma digit_not_dot c : isdigit c = true -> Ascii.eqb c "." = false.
Proof.
  unfold isdigit. rewrite andb_true_iff, !N.leb_le. intros [Hlow _].
  apply Ascii.eqb_neq. intros ->. vm_compute in Hlow. contradiction.
Qed.

(** X18: a version string whose major number has two digits is read by
    none of the four forms, with any of the documented prefixes. When the
    integer queries are not available the version is then taken to be 1.1
    and the message about the string is written. *)
Theorem X18_two_digit_major_is_not_parsed (prefix rest : string) (c1 c2 : ascii)
    (gl : Driver) (w : World) :
  In prefix versionPrefixes ->
  isdigit c1 = true -> isdigit c2 = true ->
  parseVersion (prefix ++ String c1 (String c2 rest)) = None
  /\ (glGetError gl = GL_INVALID_ENUM ->
      glGetString gl GL_VERSION = Some (prefix ++ String c1 (String c2 rest))%string ->
      detectVersion gl w
      = Some ((1, 1),
              withErr w (ErrUnableToParseVersion
                           (prefix ++ String c1 (String c2 rest))))).
Proof.
  intros Hin Hc1 Hc2.
  pose proof (digit_not_dot _ Hc2) as Hdot.
  assert (Hparse : parseVersion (prefix ++ String c1 (String c2 rest)) = None).
  { unfold versionPrefixes in Hin.
    destruct Hin as [<-|[<-|[<-|[<-|[]]]]]; unfold parseVersion; simpl String.append;
      repeat match goal with
             | |- context [parseVersionString ?s ?p] =>
                 rewrite (parseVersionString_not_prefix p s)
                   by first [reflexivity
                            | apply prefix_letter_digit; [assumption | reflexivity]]
             | |- context [parseVersionString ?s ?p] =>
                 rewrite (parseVersionString_no_digit p s) by reflexivity
             | |- context [parseVersionString ?s ?p] =>
                 rewrite (parseVersionString_no_dot p s) by exact Hdot
             end; reflexivity. }
  split; [exact Hparse|].
  intros Herr Hversion. apply N.eqb_eq in Herr.
  unfold detectVersion. cbv zeta. now rewrite Herr, Hversion, Hparse.
Qed.


End FurtherProperties.

(** * Further examples *)

(** ** Pixel format evaluation *)

(** 32 bits per pixel, 24 depth bits and 4 samples are requested; the format
    has them, and no stencil bits. *)
Lemma X1_evaluateFormat_zero_iff_exact_witness :
  requestWithin 5000 32 requestedSettings24x4
  /\ formatWithin 5000 32 24 0 4
  /\ isInt (evaluateFormat 32 requestedSettings24x4 32 24 0 4 true false)
  /\ (0 <= evaluateFormat 32 requestedSettings24x4 32 24 0 4 true false)%Z
  /\ (evaluateFormat 32 requestedSettings24x4 32 24 0 4 true false = 0%Z
      <-> (32%Z = Z.of_N 32
           /\ 24%Z = Z.of_N (depthBits requestedSettings24x4)
           /\ 0%Z = Z.of_N (stencilBits requestedSettings24x4)
           /\ 4%Z = Z.of_N (antialiasingLevel requestedSettings24x4)
           /\ true = true
           /\ (sRgbCapable requestedSettings24x4 = true -> false = true))).
Proof.
  assert (Hreq : requestWithin 5000 32 requestedSettings24x4)
    by (unfold requestWithin; simpl; lia).
  assert (Hfmt : formatWithin 5000 32 24 0 4) by (unfold formatWithin; lia).
  split; [exact Hreq|]. split; [exact Hfmt|].
  exact (X1_evaluateFormat_zero_iff_exact 32 requestedSettings24x4 32 24 0 4
           true false Hreq Hfmt).
Defined.

(** The accelerated format with 16 depth bits against the format without
    acceleration that has everything requested. *)
Lemma X2_evaluateFormat_prefers_acceleration_witness :
  requestWithin 224 32 requestedSettings24x4
  /\ formatWithin 224 32 16 0 0
  /\ formatWithin 224 32 24 0 4
  /\ (evaluateFormat 32 requestedSettings24x4 32 16 0 0 true false
      < evaluateFormat 32 requestedSettings24x4 32 24 0 4 false false)%Z.
Proof.
  assert (Hreq : requestWithin 224 32 requestedSettings24x4)
    by (unfold requestWithin; simpl; lia).
  assert (Hfmt1 : formatWithin 224 32 16 0 0) by (unfold formatWithin; lia).
  assert (Hfmt2 : formatWithin 224 32 24 0 4) by (unfold formatWithin; lia).
  split; [exact Hreq|]. split; [exact Hfmt1|]. split; [exact Hfmt2|].
  exact (X2_evaluateFormat_prefers_acceleration 32 requestedSettings24x4
           32 16 0 0 false 32 24 0 4 false Hreq Hfmt1 Hfmt2).
Defined.

(** A format with 32 depth bits, 8 stencil bits and 8 samples against one
    that lacks 8 depth bits. *)
Lemma X3_evaluateFormat_shortfall_outweighs_surplus_witness :
  requestWithin 5000 32 requestedSettings24x4
  /\ formatWithin 5000 32 32 8 8
  /\ formatWithin 5000 32 16 0 4
  /\ (Z.of_N 32 <= 32 /\ Z.of_N (depthBits requestedSettings24x4) <= 32
      /\ Z.of_N (stencilBits requestedSettings24x4) <= 8
      /\ Z.of_N (antialiasingLevel requestedSettings24x4) <= 8)%Z
  /\ (sRgbCapable requestedSettings24x4 = true -> false = true)
  /\ (32 < Z.of_N 32 \/ 16 < Z.of_N (depthBits requestedSettings24x4)
      \/ 0 < Z.of_N (stencilBits requestedSettings24x4)
      \/ 4 < Z.of_N (antialiasingLevel requestedSettings24x4))%Z
  /\ (evaluateFormat 32 requestedSettings24x4 32 32 8 8 true false
      < evaluateFormat 32 requestedSettings24x4 32 16 0 4 true true)%Z.
Proof.
  assert (Hreq : requestWithin 5000 32 requestedSettings24x4)
    by (unfold requestWithin; simpl; lia).
  assert (Hfmt1 : formatWithin 5000 32 32 8 8) by (unfold formatWithin; lia).
  assert (Hfmt2 : formatWithin 5000 32 16 0 4) by (unfold formatWithin; lia).
  assert (Hmeets : (Z.of_N 32 <= 32 /\ Z.of_N (depthBits requestedSettings24x4) <= 32
                    /\ Z.of_N (stencilBits requestedSettings24x4) <= 8
                    /\ Z.of_N (antialiasingLevel requestedSettings24x4) <= 8)%Z)
    by (simpl; lia).
  assert (HsRgb : sRgbCapable requestedSettings24x4 = true -> false = true)
    by (simpl; intros H; discriminate H).
  assert (Hshort : (32 < Z.of_N 32 \/ 16 < Z.of_N (depthBits requestedSettings24x4)
                    \/ 0 < Z.of_N (stencilBits requestedSettings24x4)
                    \/ 4 < Z.of_N (antialiasingLevel requestedSettings24x4))%Z)
    by (simpl; lia).
  split; [exact Hreq|]. split; [exact Hfmt1|]. split; [exact Hfmt2|].
  split; [exact Hmeets|]. split; [exact HsRgb|]. split; [exact Hshort|].
  exact (X3_evaluateFormat_shortfall_outweighs_surplus 32 requestedSettings24x4
           32 32 8 8 false 32 16 0 4 true true Hreq Hfmt1 Hfmt2 Hmeets HsRgb Hshort).
Defined.

(** ** Version strings *)

(** The version string of an OpenGL ES 3.2 driver. *)
Lemma X5_parseVersion_recognises_each_form_witness :
  In "OpenGL ES "%string versionPrefixes
  /\ isdigit "3" = true /\ isdigit "2" = true
  /\ parseVersion ("OpenGL ES " ++ String "3" (String "." (String "2" " Mesa")))
     = Some (N_of_ascii "3" - 48, N_of_ascii "2" - 48).
Proof.
  assert (Hin : In "OpenGL ES "%string versionPrefixes)
    by (unfold versionPrefixes; simpl; auto 10).
  assert (Hc1 : isdigit "3" = true) by evaluate.
  assert (Hc2 : isdigit "2" = true) by evaluate.
  split; [exact Hin|]. split; [exact Hc1|]. split; [exact Hc2|].
  exact (X5_parseVersion_recognises_each_form "OpenGL ES " " Mesa" "3" "2"
           Hin Hc1 Hc2).
Defined.

(** A driver without the integer queries that reports version 10.2. *)
Lemma X18_two_digit_major_is_not_parsed_witness :
  let gl := legacyDriver (Some "10.2 Mesa"%string) in
  In ""%string versionPrefixes
  /\ isdigit "1" = true /\ isdigit "0" = true
  /\ glGetError gl = GL_INVALID_ENUM
  /\ glGetString gl GL_VERSION = Some ("" ++ String "1" (String "0" ".2 Mesa"))%string
  /\ parseVersion ("" ++ String "1" (String "0" ".2 Mesa")) = None
  /\ detectVersion gl friendlyStart
     = Some ((1, 1),
             withErr friendlyStart
               (ErrUnableToParseVersion ("" ++ String "1" (String "0" ".2 Mesa")))).
Proof.
  intros gl.
  assert (Hin : In ""%string versionPrefixes)
    by (unfold versionPrefixes; simpl; auto 10).
  assert (Hc1 : isdigit "1" = true) by evaluate.
  assert (Hc2 : isdigit "0" = true) by evaluate.
  assert (Herr : glGetError gl = GL_INVALID_ENUM) by evaluate.
  assert (Hversion : glGetString gl GL_VERSION
                     = Some ("" ++ String "1" (String "0" ".2 Mesa"))%string)
    by evaluate.
  clearbody gl.
  pose proof (X18_two_digit_major_is_not_parsed (pf := friendlyPlatform)
                "" ".2 Mesa" "1" "0" gl friendlyStart Hin Hc1 Hc2) as [Hparse Hdetect].
  split; [exact Hin|]. split; [exact Hc1|]. split; [exact Hc2|].
  split; [exact Herr|]. split; [exact Hversion|]. split; [exact Hparse|].
  exact (Hdetect Herr Hversion).
Defined.

(** ** The records of the threads *)

(** With the first two contexts alive, context 2 is activated on thread 0
    of a fresh process. Once it is active on thread 1 as well, its
    destruction on thread 0 leaves the record of thread 1 pointing to it. *)
Lemma X7_records_stay_valid_witness :
  let live := fun c => c = context1 \/ c = context2 in
  let w' := worldAfter (setActive 0 context2 graphicsContext1 true) friendlyStart in
  let v := worldAfter (setActive 1 context2 graphicsContext1 true) w' in
  let v' := worldAfter (GlContext_dtor 0 context2) v in
  allValid live friendlyStart
  /\ live context2 /\ live (sharedContext graphicsContext1)
  /\ setActive 0 context2 graphicsContext1 true friendlyStart = Some (true, w')
  /\ allValid live w'
  /\ allValid live v
  /\ GlContext_dtor 0 context2 v = Some (tt, v')
  /\ GlContextImpl.ptr (currentContext v 1) = Some context2
  /\ GlContextImpl.ptr (currentContext v' 1) = Some context2
  /\ ~ valid (fun c => live c /\ c <> context2) (currentContext v' 1).
Proof.
  intros live w' v v'.
  assert (Hall : allValid live friendlyStart) by (intros u; reflexivity).
  assert (Hthis : live context2) by (right; reflexivity).
  assert (Hshared : live (sharedContext graphicsContext1)) by (left; reflexivity).
  assert (Hrun : setActive 0 context2 graphicsContext1 true friendlyStart
                 = Some (true, w')) by evaluate.
  assert (Hall2 : allValid live v).
  { intros [|[|u]]; cbv; auto. }
  assert (Hdtor : GlContext_dtor 0 context2 v = Some (tt, v')) by evaluate.
  assert (Hptr : GlContextImpl.ptr (currentContext v 1) = Some context2) by evaluate.
  clearbody v'. clearbody v. clearbody w'.
  split; [exact Hall|]. split; [exact Hthis|]. split; [exact Hshared|].
  split; [exact Hrun|]. split.
  { exact (proj1 (X7_records_stay_valid live 0%nat context2 graphicsContext1 true 0
                    defaultSettings defaultSettings friendlyStart Hall Hthis Hshared)
             true w' Hrun). }
  split; [exact Hall2|]. split; [exact Hdtor|]. split; [exact Hptr|].
  pose proof (X7_records_stay_valid live 0%nat context2 graphicsContext1 true 0
                defaultSettings defaultSettings v Hall2 Hthis Hshared)
    as (_ & _ & _ & _ & _ & _ & _ & _ & Hleft).
  refine (Hleft v' 1%nat Hdtor _ Hptr). discriminate.
Defined.

(** ** The assertions of the transient activation *)

(** A release on thread 0 of a fresh process, in a debug build. *)
Lemma X9_debug_build_contracts_witness :
  @NDEBUG friendlyPlatform = false
  /\ GlContextImpl.id (currentContext friendlyStart 0) = 0
  /\ releaseTransientContext 0 friendlyStart = None.
Proof.
  assert (Hdebug : @NDEBUG friendlyPlatform = false) by reflexivity.
  assert (Hid : GlContextImpl.id (currentContext friendlyStart 0) = 0) by evaluate.
  split; [exact Hdebug|]. split; [exact Hid|].
  exact (proj1 (proj2 (proj2 (X9_debug_build_contracts 0%nat graphicsContext1
                                friendlyStart Hdebug))) Hid).
Defined.

(** ** The life of the list of unshared objects *)

(** Two constructions and two destructions on a fresh process. *)
Lemma X10_list_lives_with_the_contexts_witness :
  listOwned friendlyStart
  /\ exists cs w',
       run constructAndDestroyTwo friendlyStart = Some (cs, w')
       /\ listOwned w'
       /\ liveCount w' = liveAfter constructAndDestroyTwo (liveCount friendlyStart)
       /\ (weakUnsharedGlObjects w' = None
           <-> liveAfter constructAndDestroyTwo (liveCount friendlyStart) = 0%nat).
Proof.
  assert (Howned : listOwned friendlyStart) by exact I.
  split; [exact Howned|].
  exact (X10_list_lives_with_the_contexts constructAndDestroyTwo friendlyStart Howned).
Defined.

(** The only context of the process is destroyed after the object 100 was
    registered under it. *)
Lemma X11_list_dies_with_the_last_context_witness :
  let w := worldAfter registerOne friendlyStart in
  let so := {| use_count := 1; objects := [{| contextId := 1; object := 100 |}] |} in
  weakUnsharedGlObjects w = Some so
  /\ use_count so = 1%nat
  /\ exists w1,
       GlContext_dtor 0 context1 w = Some (tt, w1)
       /\ weakUnsharedGlObjects w1 = None
       /\ registerUnsharedGlObject 0 100 w1 = Some (tt, w1)
       /\ unregisterUnsharedGlObject 0 100 w1 = Some (tt, w1)
       /\ exists c' w2,
            GlContext_ctor defaultSettings w1 = Some (c', w2)
            /\ weakUnsharedGlObjects w2 = Some {| use_count := 1; objects := [] |}.
Proof.
  intros w so.
  assert (Hso : weakUnsharedGlObjects w = Some so) by evaluate.
  assert (Hcount : use_count so = 1%nat) by reflexivity.
  clearbody w.
  split; [exact Hso|]. split; [exact Hcount|].
  exact (X11_list_dies_with_the_last_context 0%nat context1 defaultSettings 100 w so
           Hso Hcount).
Defined.

(** With the objects 100 and 101 of context 2 and 200 of the active context
    3 in the list, the object 300 is registered and unregistered. *)
Lemma X12_register_unregister_round_trip_witness :
  let w := worldAfter registerThree friendlyStart in
  let so := {| use_count := 3;
               objects := [{| contextId := 2; object := 100 |};
                           {| contextId := 2; object := 101 |};
                           {| contextId := 3; object := 200 |}] |} in
  weakUnsharedGlObjects w = Some so
  /\ exists w1 w2 so2,
       registerUnsharedGlObject 0 300 w = Some (tt, w1)
       /\ unregisterUnsharedGlObject 0 300 w1 = Some (tt, w2)
       /\ weakUnsharedGlObjects w2 = Some so2
       /\ use_count so2 = use_count so
       /\ Permutation (objects so2) (objects so)
       /\ ((forall o, In o (objects so) ->
              ~ matches (GlContextImpl.id (currentContext w 0)) 300 o) ->
           w2 = w).
Proof.
  intros w so.
  assert (Hso : weakUnsharedGlObjects w = Some so) by evaluate.
  clearbody w.
  split; [exact Hso|].
  exact (X12_register_unregister_round_trip 0%nat 300 w so Hso).
Defined.

(** ** Initialisation and creation *)

(** The backend gave 24 depth bits and 4 samples; no antialiasing was
    requested. *)
Lemma X14_initialize_keeps_or_lowers_witness :
  let w' := worldAfter (initialize 0 context1 requestedSettings24x4 graphicsContext1
                          defaultSettings) friendlyStart in
  let s' := {| depthBits := 24; stencilBits := 0; antialiasingLevel := 0;
               majorVersion := 4; minorVersion := 6;
               attributeFlags := 0; sRgbCapable := false |} in
  initialize 0 context1 requestedSettings24x4 graphicsContext1 defaultSettings
    friendlyStart = Some ((true, s'), w')
  /\ depthBits s' = depthBits requestedSettings24x4
  /\ stencilBits s' = stencilBits requestedSettings24x4
  /\ antialiasingLevel s'
     = (if 0 <? antialiasingLevel defaultSettings
        then antialiasingLevel requestedSettings24x4 else 0)
  /\ antialiasingLevel s' <= antialiasingLevel requestedSettings24x4
  /\ sRgbCapable s'
     = sRgbCapable defaultSettings && sRgbCapable requestedSettings24x4
       && glIsEnabled (driver (platform w')) GL_FRAMEBUFFER_SRGB
  /\ attributeFlags s'
     = detectAttributeFlags (pf := friendlyPlatform) (driver (platform w'))
         (majorVersion s') (minorVersion s').
Proof.
  intros w' s'.
  assert (Hrun : initialize 0 context1 requestedSettings24x4 graphicsContext1
                   defaultSettings friendlyStart = Some ((true, s'), w')) by evaluate.
  clearbody w'.
  split; [exact Hrun|].
  exact (X14_initialize_keeps_or_lowers 0%nat context1 requestedSettings24x4
           graphicsContext1 defaultSettings s' friendlyStart w' Hrun).
Defined.

(** 24 depth bits and 4 samples were requested, 16 and 0 were created. *)
Lemma X15_checkSettings_warns_exactly_when_short_witness :
  minorVersion createdSettings16x0 < 10
  /\ minorVersion requestedSettings24x4 < 10
  /\ versionFitsInt createdSettings16x0
  /\ versionFitsInt requestedSettings24x4
  /\ fallsShort createdSettings16x0 requestedSettings24x4
  /\ checkSettings createdSettings16x0 requestedSettings24x4 friendlyStart
     = Some (tt, withErr friendlyStart
                   (WarnSettingsNotMet requestedSettings24x4 createdSettings16x0)).
Proof.
  assert (Hc10 : minorVersion createdSettings16x0 < 10) by reflexivity.
  assert (Hr10 : minorVersion requestedSettings24x4 < 10) by reflexivity.
  assert (Hc : versionFitsInt createdSettings16x0) by reflexivity.
  assert (Hr : versionFitsInt requestedSettings24x4) by reflexivity.
  assert (Hshort : fallsShort
                     createdSettings16x0 requestedSettings24x4)
    by (right; right; right; left; reflexivity).
  split; [exact Hc10|]. split; [exact Hr10|]. split; [exact Hc|]. split; [exact Hr|].
  split; [exact Hshort|].
  exact (proj1 (X15_checkSettings_warns_exactly_when_short createdSettings16x0
                  requestedSettings24x4 friendlyStart Hc10 Hr10 Hc Hr) Hshort).
Defined.

(** A context is created on thread 0 once the shared context exists. *)
Lemma X16_create_returns_a_fresh_context_witness :
  let w := worldAfter (GlContext_ctor defaultSettings) friendlyStart in
  let w' := worldAfter (create (pf := friendlyPlatform) 0 graphicsContext1 defaultSettings tt) w in
  create (pf := friendlyPlatform) 0 graphicsContext1 defaultSettings tt w
  = Some (Some (context2, createdSettings_4_6), w')
  /\ identity context2 = atomicId w
  /\ atomicId w' = (atomicId w + 1) mod uint64_modulus
  /\ liveCount w' = S (liveCount w)
  /\ functionsLoaded (driver (platform w')) = true
  /\ (forall u, u <> 0%nat -> currentContext w' u = currentContext w u)
  /\ (makeCurrentSucceeds (pf := friendlyPlatform) context2 true ->
      GlContextImpl.id (currentContext w' 0) = identity context2).
Proof.
  intros w w'.
  assert (Hrun : create (pf := friendlyPlatform) 0 graphicsContext1 defaultSettings tt w
                 = Some (Some (context2, createdSettings_4_6), w')) by evaluate.
  clearbody w'. clearbody w.
  split; [exact Hrun|].
  exact (X16_create_returns_a_fresh_context (pf := friendlyPlatform) 0%nat
           graphicsContext1 defaultSettings tt
           w context2 createdSettings_4_6 w' Hrun).
Defined.

(** The desktop driver, which reports version 4.6 without the debug bit and
    without the core bit. *)
Lemma X17_attribute_flags_by_version_witness :
  @Attribute_Default friendlyPlatform = 0
  /\ @Attribute_Core friendlyPlatform = 1
  /\ @Attribute_Debug friendlyPlatform = 4
  /\ N.testbit (detectAttributeFlags (pf := friendlyPlatform) desktopDriver 4 6) 2
     = (3 <=? 4) && debugContext desktopDriver
  /\ N.testbit (detectAttributeFlags (pf := friendlyPlatform) desktopDriver 4 6) 0
     = coreProfile desktopDriver.
Proof.
  assert (Hdefault : @Attribute_Default friendlyPlatform = 0) by reflexivity.
  assert (Hcore : @Attribute_Core friendlyPlatform = 1) by reflexivity.
  assert (Hdebug : @Attribute_Debug friendlyPlatform = 4) by reflexivity.
  pose proof (X17_attribute_flags_by_version (pf := friendlyPlatform) desktopDriver 4 6
                Hdefault Hcore Hdebug) as (_ & Hbit2 & _ & _ & Hbit0 & _).
  split; [exact Hdefault|]. split; [exact Hcore|]. split; [exact Hdebug|].
  split; [exact Hbit2|].
  apply Hbit0. left. reflexivity.
Defined.
